(** * The JSON plugin's variant-to-map converter

    A shallow embedding of [src/plugins/json/varianttomapconverter.cpp]:
    the converter walks a tree of dynamic values ([QVariant]) and builds the
    map document (tilesets, layers, objects and the game's extension
    records).  The converter's member variables ([mError], [mGidMapper],
    [mMapDir]) are threaded explicitly; a function that returns a pointer
    returns an [option], [None] being the null pointer. *)

From Stdlib Require Import ZArith List String Ascii Bool Lia.
From Stdlib Require Import DecimalString.
From Stdlib Require Import PrimFloat SpecFloat FloatOps.
Import ListNotations.

Set Warnings "-register-all".

Open Scope bool_scope.
Open Scope string_scope.
Open Scope Z_scope.

(* ================================================================== *)
(** ** Machine integers *)

(** [int] is a 32-bit two's complement integer, [unsigned] a 32-bit
    natural; both are carried by [Z] and every operation of the source that
    can leave the range is followed by its wrap-around. *)
Definition INT_MAX : Z := 2147483647.
Definition INT_MIN : Z := -2147483648.

Definition to_int (z : Z) : Z := (z + 2147483648) mod 4294967296 - 2147483648.
Definition to_unsigned (z : Z) : Z := z mod 4294967296.

Definition int_mul (a b : Z) : Z := to_int (a * b).
Definition int_add (a b : Z) : Z := to_int (a + b).

(** [qreal] is a double; the converter only stores doubles, converts
    integers to them and compares them with [0]. *)
Definition qreal : Set := float.

Definition qreal_of_Z (z : Z) : qreal := SF2Prim (binary_normalize prec emax z 0 false).

Definition qreal_is_zero (d : qreal) : bool := PrimFloat.eqb d PrimFloat.zero.

(* ================================================================== *)
(** ** Strings *)

Definition nl : string := String (ascii_of_nat 10) EmptyString.

(** [QString::number(int)]. *)
Definition QString_number (z : Z) : string := NilZero.string_of_int (Z.to_int z).

Definition is_space (c : ascii) : bool :=
  let n := nat_of_ascii c in
  (Nat.eqb n 32 || (Nat.leb 9 n && Nat.leb n 13))%bool.

Fixpoint trim_left (s : string) : string :=
  match s with
  | String c r => if is_space c then trim_left r else s
  | EmptyString => EmptyString
  end.

Fixpoint rev_string (acc s : string) : string :=
  match s with
  | EmptyString => acc
  | String c r => rev_string (String c acc) r
  end.

Definition trimmed (s : string) : string :=
  rev_string EmptyString (trim_left (rev_string EmptyString (trim_left s))).

Definition digit_of (c : ascii) : option Z :=
  let n := Z.of_nat (nat_of_ascii c) in
  if (48 <=? n) && (n <=? 57) then Some (n - 48) else None.

Fixpoint parse_digits (acc : Z) (s : string) : option Z :=
  match s with
  | EmptyString => Some acc
  | String c r =>
      match digit_of c with
      | Some d => parse_digits (10 * acc + d) r
      | None => None
      end
  end.

Definition parse_unsigned (s : string) : option Z :=
  match s with
  | EmptyString => None
  | _ => parse_digits 0 s
  end.

(** A decimal integer with an optional sign, surrounding white space
    ignored: the text [QString::toLongLong] accepts in base 10. *)
Definition parse_integer (s : string) : option Z :=
  match trimmed s with
  | String "-" r => option_map Z.opp (parse_unsigned r)
  | String "+" r => parse_unsigned r
  | t => parse_unsigned t
  end.

Definition parse_natural (s : string) : option Z :=
  match trimmed s with
  | String "+" r => parse_unsigned r
  | String "-" r => None
  | t => parse_unsigned t
  end.

(** [QString::toLongLong(&ok)] and [QString::toULongLong(&ok)]. *)
Definition QString_toLongLong (s : string) : option Z :=
  match parse_integer s with
  | Some z => if (-9223372036854775808 <=? z) && (z <=? 9223372036854775807)
              then Some z else None
  | None => None
  end.

Definition QString_toULongLong (s : string) : option Z :=
  match parse_natural s with
  | Some z => if z <=? 18446744073709551615 then Some z else None
  | None => None
  end.

(** [QString::toInt()]: [0] when the text is no integer or does not fit. *)
Definition QString_toInt (s : string) : Z :=
  match QString_toLongLong s with
  | Some z => if (INT_MIN <=? z) && (z <=? INT_MAX) then z else 0
  | None => 0
  end.

Fixpoint lower_string (s : string) : string :=
  match s with
  | EmptyString => EmptyString
  | String c r =>
      let n := nat_of_ascii c in
      String (if (Nat.leb 65 n && Nat.leb n 90)%bool then ascii_of_nat (n + 32) else c)
             (lower_string r)
  end.

(* ================================================================== *)
(** ** Dynamic values *)

(** [QVariant] as the JSON reader produces it.  A [QVariantMap] is kept as
    the association list of its entries in iteration order (a [QMap]
    iterates in key order and holds a key once); [size()] of a list or
    [count()] of a map is the length of the list. *)
Inductive QVariant : Type :=
| VInvalid
| VBool (b : bool)
| VInt (n : Z)
| VDouble (d : qreal)
| VString (s : string)
| VList (l : list QVariant)
| VMap (m : list (string * QVariant)).

Definition QVariantList : Type := list QVariant.
Definition QVariantMap : Type := list (string * QVariant).

Fixpoint map_find (k : string) (m : QVariantMap) : option QVariant :=
  match m with
  | [] => None
  | (k', v) :: r => if String.eqb k k' then Some v else map_find k r
  end.

(** [variantMap[key]] on a constant map, and [variantMap.value(key)]: the
    stored value, or a default-constructed (invalid) variant. *)
Definition at_key (m : QVariantMap) (k : string) : QVariant :=
  match map_find k m with
  | Some v => v
  | None => VInvalid
  end.

Definition contains (m : QVariantMap) (k : string) : bool :=
  match map_find k m with
  | Some _ => true
  | None => false
  end.

Definition count {A : Type} (l : list A) : Z := Z.of_nat (List.length l).

Notation "m [[ k ]]" := (at_key m k) (at level 1, format "m [[ k ]]").

Definition QVariant_toMap (v : QVariant) : QVariantMap :=
  match v with
  | VMap m => m
  | _ => []
  end.

Definition QVariant_toList (v : QVariant) : QVariantList :=
  match v with
  | VList l => l
  | _ => []
  end.

Definition isValid (v : QVariant) : bool :=
  match v with
  | VInvalid => false
  | _ => true
  end.

Definition isNull (v : QVariant) : bool :=
  match v with
  | VInvalid => true
  | _ => false
  end.

Record QSize : Set := mkQSize { sz_width : Z; sz_height : Z }.
Record QPoint : Set := mkQPoint { pt_x : Z; pt_y : Z }.
Record QSizeF : Set := mkQSizeF { szf_width : qreal; szf_height : qreal }.
Record QPointF : Set := mkQPointF { ptf_x : qreal; ptf_y : qreal }.

(** A [QColor]: the colour name it was built from, when that name is one. *)
Definition QColor : Set := option string.

(* ================================================================== *)
(** ** The document model's enumerations *)

Inductive Orientation : Set :=
| Unknown | Orthogonal | Isometric | Staggered | Hexagonal.

Inductive StaggerAxis : Set := StaggerX | StaggerY.
Inductive StaggerIndex : Set := StaggerOdd | StaggerEven.
Inductive RenderOrder : Set := RightDown | RightUp | LeftDown | LeftUp.
Inductive DrawOrder : Set := UnknownOrder | TopDownOrder | IndexOrder.
Inductive Shape : Set := Rectangle | Polygon | Polyline | Ellipse.

(** [RTBMapObject::objectType()]: the game's object categories; the last
    one stands for every value the [switch] of [toRTBMapObject] sends to
    [default]. *)
Inductive RTBObjectType : Set :=
| CustomFloorTrap | MovingFloorTrapSpawner | Button | LaserBeam
| ProjectileTurret | Teleporter | Target | FloorText | CameraTrigger
| StartLocation | FinishHole | NPCBallSpawner | OtherObjectType.

(* ================================================================== *)
(** ** The document model

    The classes of the host document model ([Map], [Tileset], [Tile],
    [TileLayer], [ObjectGroup], [ImageLayer], [MapObject], [GidMapper] and
    the game's [RTB...] records) are declared in headers that are not among
    the sources.  They are written here as records holding what the
    converter passes to their constructors and setters. *)

Definition Properties : Type := list (string * string).

(** [properties[key] = value] *)
Fixpoint properties_set (k v : string) (p : Properties) : Properties :=
  match p with
  | [] => [(k, v)]
  | (k', v') :: r =>
      if String.eqb k k' then (k, v) :: r else (k', v') :: properties_set k v r
  end.

(** A tile pointer: the key under which the tile's tileset is registered in
    the global-id mapper, and the tile's index in that tileset. *)
Record TileRef : Set := mkTileRef { ref_tileset : Z; ref_tile : Z }.

(** A [Cell] holds a tile pointer, null for the empty cell. *)
Definition Cell : Set := option TileRef.

(** The extension records, each with the fields [toRTBMapObject] sets. *)
Inductive RTBMapObject : Set :=
| RTBCustomFloorTrap (intervalSpeed intervalOffset : Z)
| RTBMovingFloorTrapSpawner (spawnAmount intervalSpeed randomizeStart : Z)
| RTBButtonObject (beatsActive : Z) (laserBeamTargets : string)
| RTBLaserBeam (beamType activatedOnStart directionDegrees
                targetDirectionDegrees intervalOffset intervalSpeed : Z)
| RTBProjectileTurret (intervalSpeed intervalOffset projectileSpeed shotDirection : Z)
| RTBTeleporter (teleporterTarget : string)
| RTBTeleporterTarget
| RTBFloorText (text : string) (maxCharacters : Z) (triggerZoneSize : QSizeF)
               (useTrigger : Z) (scale offsetX offsetY : qreal)
| RTBCameraTrigger (target : string) (triggerZoneSize : QSizeF)
                   (cameraHeight cameraAngle : Z)
| RTBStartLocation
| RTBFinishHole
| RTBNPCBallSpawner (spawnClass size intervalOffset spawnFrequency speed direction : Z)
| RTBOtherObject.

Definition objectType (o : RTBMapObject) : RTBObjectType :=
  match o with
  | RTBCustomFloorTrap _ _ => CustomFloorTrap
  | RTBMovingFloorTrapSpawner _ _ _ => MovingFloorTrapSpawner
  | RTBButtonObject _ _ => Button
  | RTBLaserBeam _ _ _ _ _ _ => LaserBeam
  | RTBProjectileTurret _ _ _ _ => ProjectileTurret
  | RTBTeleporter _ => Teleporter
  | RTBTeleporterTarget => Target
  | RTBFloorText _ _ _ _ _ _ _ => FloorText
  | RTBCameraTrigger _ _ _ _ => CameraTrigger
  | RTBStartLocation => StartLocation
  | RTBFinishHole => FinishHole
  | RTBNPCBallSpawner _ _ _ _ _ _ => NPCBallSpawner
  | RTBOtherObject => OtherObjectType
  end.

(** The record [createRTBMapObject] allocates for a category, before any
    setter is called. *)
Definition new_RTBMapObject (t : RTBObjectType) : RTBMapObject :=
  let z := PrimFloat.zero in
  match t with
  | CustomFloorTrap => RTBCustomFloorTrap 0 0
  | MovingFloorTrapSpawner => RTBMovingFloorTrapSpawner 0 0 0
  | Button => RTBButtonObject 0 EmptyString
  | LaserBeam => RTBLaserBeam 0 0 0 0 0 0
  | ProjectileTurret => RTBProjectileTurret 0 0 0 0
  | Teleporter => RTBTeleporter EmptyString
  | Target => RTBTeleporterTarget
  | FloorText => RTBFloorText EmptyString 0 (mkQSizeF z z) 0 z z z
  | CameraTrigger => RTBCameraTrigger EmptyString (mkQSizeF z z) 0 0
  | StartLocation => RTBStartLocation
  | FinishHole => RTBFinishHole
  | NPCBallSpawner => RTBNPCBallSpawner 0 0 0 0 0 0
  | OtherObjectType => RTBOtherObject
  end.

Record MapObject : Type := mkMapObject {
  mo_name : string;
  mo_type : string;
  mo_position : QPointF;
  mo_size : QSizeF;
  mo_id : Z;
  mo_rotation : qreal;
  mo_cell : Cell;
  mo_visible : bool;
  mo_properties : Properties;
  mo_shape : Shape;
  mo_polygon : list QPointF;
  mo_rtbMapObject : option RTBMapObject
}.

(** [new MapObject(name, type, pos, size)]: a visible rectangle with id 0,
    no rotation, no tile and no extension record. *)
Definition new_MapObject (name type : string) (pos : QPointF) (size : QSizeF) : MapObject :=
  mkMapObject name type pos size 0 PrimFloat.zero None true [] Rectangle [] None.

Definition mo_setId (id : Z) (o : MapObject) : MapObject :=
  mkMapObject (mo_name o) (mo_type o) (mo_position o) (mo_size o) id (mo_rotation o)
              (mo_cell o) (mo_visible o) (mo_properties o) (mo_shape o) (mo_polygon o)
              (mo_rtbMapObject o).

Definition mo_setRotation (r : qreal) (o : MapObject) : MapObject :=
  mkMapObject (mo_name o) (mo_type o) (mo_position o) (mo_size o) (mo_id o) r
              (mo_cell o) (mo_visible o) (mo_properties o) (mo_shape o) (mo_polygon o)
              (mo_rtbMapObject o).

Definition mo_setCell (c : Cell) (o : MapObject) : MapObject :=
  mkMapObject (mo_name o) (mo_type o) (mo_position o) (mo_size o) (mo_id o) (mo_rotation o)
              c (mo_visible o) (mo_properties o) (mo_shape o) (mo_polygon o)
              (mo_rtbMapObject o).

Definition mo_setWidth (w : qreal) (o : MapObject) : MapObject :=
  mkMapObject (mo_name o) (mo_type o) (mo_position o)
              (mkQSizeF w (szf_height (mo_size o))) (mo_id o) (mo_rotation o)
              (mo_cell o) (mo_visible o) (mo_properties o) (mo_shape o) (mo_polygon o)
              (mo_rtbMapObject o).

Definition mo_setHeight (h : qreal) (o : MapObject) : MapObject :=
  mkMapObject (mo_name o) (mo_type o) (mo_position o)
              (mkQSizeF (szf_width (mo_size o)) h) (mo_id o) (mo_rotation o)
              (mo_cell o) (mo_visible o) (mo_properties o) (mo_shape o) (mo_polygon o)
              (mo_rtbMapObject o).

Definition mo_setVisible (b : bool) (o : MapObject) : MapObject :=
  mkMapObject (mo_name o) (mo_type o) (mo_position o) (mo_size o) (mo_id o) (mo_rotation o)
              (mo_cell o) b (mo_properties o) (mo_shape o) (mo_polygon o)
              (mo_rtbMapObject o).

Definition mo_setProperties (p : Properties) (o : MapObject) : MapObject :=
  mkMapObject (mo_name o) (mo_type o) (mo_position o) (mo_size o) (mo_id o) (mo_rotation o)
              (mo_cell o) (mo_visible o) p (mo_shape o) (mo_polygon o)
              (mo_rtbMapObject o).

Definition mo_setShape (s : Shape) (o : MapObject) : MapObject :=
  mkMapObject (mo_name o) (mo_type o) (mo_position o) (mo_size o) (mo_id o) (mo_rotation o)
              (mo_cell o) (mo_visible o) (mo_properties o) s (mo_polygon o)
              (mo_rtbMapObject o).

Definition mo_setPolygon (p : list QPointF) (o : MapObject) : MapObject :=
  mkMapObject (mo_name o) (mo_type o) (mo_position o) (mo_size o) (mo_id o) (mo_rotation o)
              (mo_cell o) (mo_visible o) (mo_properties o) (mo_shape o) p
              (mo_rtbMapObject o).

Definition mo_setRTBMapObject (r : option RTBMapObject) (o : MapObject) : MapObject :=
  mkMapObject (mo_name o) (mo_type o) (mo_position o) (mo_size o) (mo_id o) (mo_rotation o)
              (mo_cell o) (mo_visible o) (mo_properties o) (mo_shape o) (mo_polygon o) r.

(** What every layer has: [Layer]'s members. *)
Record LayerData : Type := mkLayerData {
  l_name : string;
  l_x : Z;
  l_y : Z;
  l_width : Z;
  l_height : Z;
  l_opacity : qreal;
  l_visible : bool;
  l_properties : Properties
}.

(** [Layer(type, name, x, y, width, height)]: opaque and visible. *)
Definition new_Layer (name : string) (x y w h : Z) : LayerData :=
  mkLayerData name x y w h PrimFloat.one true [].

Definition l_setOpacity (o : qreal) (l : LayerData) : LayerData :=
  mkLayerData (l_name l) (l_x l) (l_y l) (l_width l) (l_height l) o (l_visible l)
              (l_properties l).

Definition l_setVisible (b : bool) (l : LayerData) : LayerData :=
  mkLayerData (l_name l) (l_x l) (l_y l) (l_width l) (l_height l) (l_opacity l) b
              (l_properties l).

Definition l_setProperties (p : Properties) (l : LayerData) : LayerData :=
  mkLayerData (l_name l) (l_x l) (l_y l) (l_width l) (l_height l) (l_opacity l)
              (l_visible l) p.

Record ObjectGroup : Type := mkObjectGroup {
  og_layer : LayerData;
  og_color : QColor;
  og_drawOrder : DrawOrder;
  og_objects : list MapObject
}.

Definition new_ObjectGroup (name : string) (x y w h : Z) : ObjectGroup :=
  mkObjectGroup (new_Layer name x y w h) None TopDownOrder [].

Record Frame : Set := mkFrame { tileId : Z; duration : Z }.

Record Tile : Type := mkTile {
  tile_id : Z;
  tile_size : QSize;
  tile_imageSource : string;
  tile_terrain : list Z;
  tile_terrainProbability : option qreal;
  tile_objectGroup : option ObjectGroup;
  tile_frames : list Frame;
  tile_properties : Properties
}.

(** [new Tile(image, id, tileset)] for an image of the given size: no
    terrain at any of the four corners, no probability, no objects, no
    animation. *)
Definition new_Tile (size : QSize) (id : Z) : Tile :=
  mkTile id size EmptyString [-1; -1; -1; -1] None None [] [].

Record Terrain : Set := mkTerrain { terrain_name : string; terrain_imageTileId : Z }.

Record Tileset : Type := mkTileset {
  ts_name : string;
  ts_tileWidth : Z;
  ts_tileHeight : Z;
  ts_tileSpacing : Z;
  ts_margin : Z;
  ts_tileOffset : QPoint;
  ts_transparentColor : QColor;
  ts_imageSource : string;
  ts_imageSize : QSize;
  ts_terrains : list Terrain;
  ts_tiles : list Tile;
  ts_properties : Properties
}.

Record TileLayer : Type := mkTileLayer {
  tl_layer : LayerData;
  tl_grid : list Cell
}.

Record ImageLayer : Type := mkImageLayer {
  il_layer : LayerData;
  il_transparentColor : QColor;
  il_imageSource : string;
  il_image : option QSize
}.

Inductive Layer : Type :=
| LayerTiles (l : TileLayer)
| LayerObjects (l : ObjectGroup)
| LayerImage (l : ImageLayer).

Definition layerData (l : Layer) : LayerData :=
  match l with
  | LayerTiles t => tl_layer t
  | LayerObjects g => og_layer g
  | LayerImage i => il_layer i
  end.

(** The game's record of a map, with the members [toRTBMap] sets. *)
Record RTBMap : Type := mkRTBMap {
  hasError : Z;
  customGlowColor : QColor;
  customBackgroundColor : QColor;
  levelBrightness : qreal;
  cloudDensity : qreal;
  cloudVelocity : qreal;
  cloudAlpha : qreal;
  snowDensity : qreal;
  snowVelocity : qreal;
  snowRisingVelocity : qreal;
  cameraGrain : qreal;
  cameraContrast : qreal;
  cameraSaturation : qreal;
  cameraGlow : qreal;
  hasWall : Z;
  levelName : string;
  levelDescription : string;
  backgroundColorScheme : Z;
  glowColorScheme : Z;
  chapter : Z;
  hasStarfield : Z;
  difficulty : Z;
  playStyle : Z;
  workShopId : Z;
  previewImagePath : string
}.

Record Map : Type := mkMap {
  map_orientation : Orientation;
  map_width : Z;
  map_height : Z;
  map_tileWidth : Z;
  map_tileHeight : Z;
  map_hexSideLength : Z;
  map_staggerAxis : StaggerAxis;
  map_staggerIndex : StaggerIndex;
  map_renderOrder : RenderOrder;
  map_rtbMap : RTBMap;
  map_nextObjectId : Z;
  map_properties : Properties;
  map_backgroundColor : QColor;
  map_tilesets : list Tileset;
  map_layers : list Layer
}.

(* ------------------------------------------------------------------ *)
(** *** Tilesets *)

Definition Tileset_create (name : string) (tileWidth tileHeight spacing margin : Z) : Tileset :=
  mkTileset name tileWidth tileHeight spacing margin (mkQPoint 0 0) None
            EmptyString (mkQSize 0 0) [] [] [].

Definition ts_with_tiles (tiles : list Tile) (t : Tileset) : Tileset :=
  mkTileset (ts_name t) (ts_tileWidth t) (ts_tileHeight t) (ts_tileSpacing t) (ts_margin t)
            (ts_tileOffset t) (ts_transparentColor t) (ts_imageSource t) (ts_imageSize t)
            (ts_terrains t) tiles (ts_properties t).

Definition ts_setTileOffset (p : QPoint) (t : Tileset) : Tileset :=
  mkTileset (ts_name t) (ts_tileWidth t) (ts_tileHeight t) (ts_tileSpacing t) (ts_margin t)
            p (ts_transparentColor t) (ts_imageSource t) (ts_imageSize t)
            (ts_terrains t) (ts_tiles t) (ts_properties t).

Definition ts_setTransparentColor (c : QColor) (t : Tileset) : Tileset :=
  mkTileset (ts_name t) (ts_tileWidth t) (ts_tileHeight t) (ts_tileSpacing t) (ts_margin t)
            (ts_tileOffset t) c (ts_imageSource t) (ts_imageSize t)
            (ts_terrains t) (ts_tiles t) (ts_properties t).

Definition ts_setProperties (p : Properties) (t : Tileset) : Tileset :=
  mkTileset (ts_name t) (ts_tileWidth t) (ts_tileHeight t) (ts_tileSpacing t) (ts_margin t)
            (ts_tileOffset t) (ts_transparentColor t) (ts_imageSource t) (ts_imageSize t)
            (ts_terrains t) (ts_tiles t) p.

Definition addTerrain (name : string) (imageTileId : Z) (t : Tileset) : Tileset :=
  mkTileset (ts_name t) (ts_tileWidth t) (ts_tileHeight t) (ts_tileSpacing t) (ts_margin t)
            (ts_tileOffset t) (ts_transparentColor t) (ts_imageSource t) (ts_imageSize t)
            (ts_terrains t ++ [mkTerrain name imageTileId]) (ts_tiles t) (ts_properties t).

Definition tileCount (t : Tileset) : Z := count (ts_tiles t).
Definition terrainCount (t : Tileset) : Z := count (ts_terrains t).

(** [tileset->addTile(QPixmap())]: one more tile, with a null image. *)
Definition addTile (t : Tileset) : Tileset :=
  ts_with_tiles (ts_tiles t ++ [new_Tile (mkQSize 0 0) (tileCount t)]) t.

(** [for (int i = tileset->tileCount(); i <= tileIndex; i++)
       tileset->addTile(QPixmap());] *)
Fixpoint addTiles (n : nat) (t : Tileset) : Tileset :=
  match n with
  | O => t
  | S n' => addTiles n' (addTile t)
  end.

Definition growTo (tileIndex : Z) (t : Tileset) : Tileset :=
  addTiles (Z.to_nat (tileIndex + 1 - tileCount t)) t.

(** What a read through a pointer or an index gives: a value, or nothing
    defined when the index lies outside the container. *)
Inductive Access (A : Type) : Type :=
| Value (a : A)
| OutOfBounds.
Arguments Value {A} a.
Arguments OutOfBounds {A}.

(** Modelled from the spec: [Tileset::tileAt] is declared in [tileset.h],
    which is not among the sources.  The tiles of a tileset are a sequence
    indexed by local index, from 0.  [tileAt] gives the tile at an index of
    the sequence and the null pointer at and beyond its end, the case the
    source tests for with [if (tile)]; a negative index is no index of the
    sequence (indices must be at least 0) and the read has no defined
    result. *)
Definition tileAt (t : Tileset) (id : Z) : Access (option Tile) :=
  if id <? tileCount t then
    if id <? 0 then OutOfBounds
    else Value (nth_error (ts_tiles t) (Z.to_nat id))
  else Value None.

Fixpoint list_set {A : Type} (l : list A) (n : nat) (a : A) : list A :=
  match l, n with
  | [], _ => []
  | _ :: r, O => a :: r
  | x :: r, S n' => x :: list_set r n' a
  end.

(** A write through a tile pointer obtained from [tileAt id]. *)
Definition storeTile (id : Z) (tile : Tile) (t : Tileset) : Tileset :=
  ts_with_tiles (list_set (ts_tiles t) (Z.to_nat id) tile) t.

Definition tile_with_image (size : QSize) (source : string) (x : Tile) : Tile :=
  mkTile (tile_id x) size source (tile_terrain x) (tile_terrainProbability x)
         (tile_objectGroup x) (tile_frames x) (tile_properties x).

(** [tile->setCornerTerrainId(corner, terrainId)] *)
Definition setCornerTerrainId (corner : Z) (terrainId : Z) (x : Tile) : Tile :=
  mkTile (tile_id x) (tile_size x) (tile_imageSource x)
         (list_set (tile_terrain x) (Z.to_nat corner) terrainId)
         (tile_terrainProbability x) (tile_objectGroup x) (tile_frames x) (tile_properties x).

Definition setTerrainProbability (p : qreal) (x : Tile) : Tile :=
  mkTile (tile_id x) (tile_size x) (tile_imageSource x) (tile_terrain x) (Some p)
         (tile_objectGroup x) (tile_frames x) (tile_properties x).

Definition setObjectGroup (g : option ObjectGroup) (x : Tile) : Tile :=
  mkTile (tile_id x) (tile_size x) (tile_imageSource x) (tile_terrain x)
         (tile_terrainProbability x) g (tile_frames x) (tile_properties x).

Definition setFrames (f : list Frame) (x : Tile) : Tile :=
  mkTile (tile_id x) (tile_size x) (tile_imageSource x) (tile_terrain x)
         (tile_terrainProbability x) (tile_objectGroup x) f (tile_properties x).

Definition tile_setProperties (p : Properties) (x : Tile) : Tile :=
  mkTile (tile_id x) (tile_size x) (tile_imageSource x) (tile_terrain x)
         (tile_terrainProbability x) (tile_objectGroup x) (tile_frames x) p.

(* ------------------------------------------------------------------ *)
(** *** Tile layers *)

(** [new TileLayer(name, x, y, width, height)]: a grid of
    [width * height] empty cells. *)
Definition new_TileLayer (name : string) (x y w h : Z) : TileLayer :=
  mkTileLayer (new_Layer name x y w h) (repeat None (Z.to_nat (int_mul w h))).

Definition tl_width (t : TileLayer) : Z := l_width (tl_layer t).
Definition tl_height (t : TileLayer) : Z := l_height (tl_layer t).

Definition tl_contains (t : TileLayer) (x y : Z) : bool :=
  (0 <=? x) && (x <? tl_width t) && (0 <=? y) && (y <? tl_height t).

(** Modelled from the spec: [TileLayer::cellAt], the cell stored at index
    [x + y * width] of the row-major grid. *)
Definition cellAt (t : TileLayer) (x y : Z) : Cell :=
  nth (Z.to_nat (x + y * tl_width t)) (tl_grid t) None.

(** Modelled from the spec: [TileLayer::setCell] is declared in
    [tilelayer.h], which is not among the sources.  The grid is dense and
    row-major: the cell of a position [(x, y)] of the layer is stored at
    index [x + y * width].  A position the layer does not contain, or one
    whose index lies outside the grid, is no cell, and the write has no
    defined result. *)
Definition setCell (x y : Z) (c : Cell) (t : TileLayer) : Access TileLayer :=
  if tl_contains t x y && (x + y * tl_width t <? count (tl_grid t)) then
    Value (mkTileLayer (tl_layer t) (list_set (tl_grid t) (Z.to_nat (x + y * tl_width t)) c))
  else OutOfBounds.

(* ------------------------------------------------------------------ *)
(** *** The global-id mapper *)

(** Modelled from the spec: [GidMapper] ([gidmapper.h]) is not among the
    sources.  Tilesets are registered under their first global id; a
    global id resolves to the tileset with the greatest first global id not
    exceeding it and to the local index [gid - firstGid]; global id [0],
    an id below every registered first id and an index at or beyond the
    tileset's tile count resolve to the empty cell, with [ok] cleared. *)
Definition GidMapper : Type := list (Z * Tileset).

Definition gm_insert (firstGid : Z) (t : Tileset) (m : GidMapper) : GidMapper :=
  (firstGid, t) :: filter (fun p => negb (fst p =? firstGid)) m.

Fixpoint gm_find (gid : Z) (m : GidMapper) : option (Z * Tileset) :=
  match m with
  | [] => None
  | (k, t) :: r =>
      match gm_find gid r with
      | Some (k', t') =>
          if (k <=? gid) && (k' <? k) then Some (k, t) else Some (k', t')
      | None => if k <=? gid then Some (k, t) else None
      end
  end.

(** The tile a global id resolves to, with the pointer to it. *)
Definition resolve (m : GidMapper) (gid : Z) : option (TileRef * Tile) :=
  if gid =? 0 then None
  else
    match gm_find gid m with
    | Some (firstGid, t) =>
        match nth_error (ts_tiles t) (Z.to_nat (gid - firstGid)) with
        | Some tile => Some (mkTileRef firstGid (gid - firstGid), tile)
        | None => None
        end
    | None => None
    end.

(** [mGidMapper.gidToCell(gid, ok)] *)
Definition gidToCell (m : GidMapper) (gid : Z) : Cell * bool :=
  match resolve m gid with
  | Some (r, _) => (Some r, true)
  | None => (None, false)
  end.

(* ================================================================== *)
(** ** What the converter calls and the sources do not define *)

(** The collaborators of the converter: Qt's conversions between text,
    doubles and integers, its paths and colours, the image decoder, and the
    functions of the document model declared in headers that are not among
    the sources.  Each field is named after the call it stands for. *)
Class Environment : Type := {
  (** [QString::toDouble(&ok)] *)
  QString_toDouble : string -> option qreal;
  (** [QString::number(double)], as [QVariant(double).toString()] gives it *)
  QString_fromDouble : qreal -> string;
  (** [qRound64(double)] *)
  qRound64 : qreal -> Z;
  (** [float(double)], stored back in a double *)
  to_float : qreal -> qreal;
  (** [variant == "text"] *)
  QVariant_equals : QVariant -> string -> bool;
  (** [QColor::isValidColor(name)] *)
  isValidColor : string -> bool;
  (** the image decoder, [QImage(path)] and [QPixmap(path)]: the pixel
      size of the image at [path], or [None] for a null image *)
  loadImage : string -> option QSize;
  (** [QDir::isRelativePath], [dir.absoluteFilePath], [QDir::cleanPath] *)
  isRelativePath : string -> bool;
  absoluteFilePath : string -> string -> string;
  cleanPath : string -> string;
  (** the number of tiles [Tileset::loadFromImage] cuts out of an image of
      the given size, for a tile width, tile height, spacing and margin *)
  tilesInImage : QSize -> Z -> Z -> Z -> Z -> nat;
  (** [orientationFromString] and its siblings of [map.h], and
      [drawOrderFromString] of [objectgroup.h] *)
  orientationFromString : string -> Orientation;
  staggerAxisFromString : string -> StaggerAxis;
  staggerIndexFromString : string -> StaggerIndex;
  renderOrderFromString : string -> RenderOrder;
  drawOrderFromString : string -> DrawOrder;
  (** the category [MapObject::createRTBMapObject] selects for an object of
      the given type tag *)
  rtbObjectTypeOf : string -> RTBObjectType
}.

Section Conversions.
Context {E : Environment}.

(** [QVariant::toString()]. *)
Definition QVariant_toString (v : QVariant) : string :=
  match v with
  | VString s => s
  | VInt n => QString_number n
  | VDouble d => QString_fromDouble d
  | VBool true => "true"
  | VBool false => "false"
  | VInvalid | VList _ | VMap _ => EmptyString
  end.

(** The value and the [ok] flag of a conversion to a 64-bit integer, before
    the cast to the requested width. *)
Definition QVariant_toLongLong (v : QVariant) : option Z :=
  match v with
  | VInt n => Some n
  | VBool b => Some (if b then 1 else 0)
  | VDouble d => Some (qRound64 d)
  | VString s => QString_toLongLong s
  | VInvalid | VList _ | VMap _ => None
  end.

Definition QVariant_toULongLong (v : QVariant) : option Z :=
  match v with
  | VInt n => Some n
  | VBool b => Some (if b then 1 else 0)
  | VDouble d => Some (qRound64 d)
  | VString s => QString_toULongLong s
  | VInvalid | VList _ | VMap _ => None
  end.

(** [QVariant::toInt()]: [0] when the value does not convert. *)
Definition QVariant_toInt (v : QVariant) : Z :=
  match QVariant_toLongLong v with
  | Some z => to_int z
  | None => 0
  end.

(** [QVariant::toUInt(&ok)]: [None] when [ok] is cleared. *)
Definition QVariant_toUInt (v : QVariant) : option Z :=
  option_map to_unsigned (QVariant_toULongLong v).

(** [QVariant::toDouble(&ok)]; [toReal()] drops the flag. *)
Definition QVariant_toDouble (v : QVariant) : option qreal :=
  match v with
  | VDouble d => Some d
  | VInt n => Some (qreal_of_Z n)
  | VBool b => Some (qreal_of_Z (if b then 1 else 0))
  | VString s => QString_toDouble s
  | VInvalid | VList _ | VMap _ => None
  end.

Definition QVariant_toReal (v : QVariant) : qreal :=
  match QVariant_toDouble v with
  | Some d => d
  | None => PrimFloat.zero
  end.

(** [QVariant::toFloat(&ok)]. *)
Definition QVariant_toFloat (v : QVariant) : option qreal :=
  option_map to_float (QVariant_toDouble v).

(** [QVariant::toBool()]. *)
Definition QVariant_toBool (v : QVariant) : bool :=
  match v with
  | VBool b => b
  | VInt n => negb (n =? 0)
  | VDouble d => negb (qreal_is_zero d)
  | VString s =>
      let t := lower_string s in
      negb (String.eqb t "0" || String.eqb t "false" || String.eqb t EmptyString)
  | VInvalid | VList _ | VMap _ => false
  end.

(** [variant.value<QColor>()], and [QColor(name)] guarded by
    [QColor::isValidColor(name)]. *)
Definition colorNamed (name : string) : QColor :=
  if isValidColor name then Some name else None.

Definition QVariant_toColor (v : QVariant) : QColor :=
  match v with
  | VString s => colorNamed s
  | _ => None
  end.

End Conversions.

(* ================================================================== *)
(** ** The converter *)

(** The converter's members.  [mMap] is assigned by [toMap] and read
    nowhere in the file: it is left out. *)
Record Converter : Type := mkConverter {
  mError : string;
  mGidMapper : GidMapper;
  mMapDir : string
}.

(** What a member function does with the converter: it returns a value and
    leaves the converter in a new state, or it runs into a read or write
    outside a container, after which nothing is defined. *)
Inductive Outcome (A : Type) : Type :=
| Returns (a : A) (c : Converter)
| Undefined.
Arguments Returns {A} a c.
Arguments Undefined {A}.

Definition M (A : Type) : Type := Converter -> Outcome A.

Definition ret {A : Type} (a : A) : M A := fun c => Returns a c.

Definition bind {A B : Type} (m : M A) (k : A -> M B) : M B :=
  fun c =>
    match m c with
    | Returns a c' => k a c'
    | Undefined => Undefined
    end.

Notation "x <- m ;; k" := (bind m (fun x => k))
  (at level 61, m at next level, right associativity).
Notation "m ;;; k" := (bind m (fun _ => k))
  (at level 61, right associativity).

(** [mError = message] *)
Definition setError (message : string) : M unit :=
  fun c => Returns tt (mkConverter message (mGidMapper c) (mMapDir c)).

Definition getGidMapper : M GidMapper := fun c => Returns (mGidMapper c) c.
Definition getMapDir : M string := fun c => Returns (mMapDir c) c.

(** [mGidMapper.insert(firstGid, tileset)]; the key is unsigned. *)
Definition registerTileset (firstGid : Z) (t : Tileset) : M unit :=
  fun c => Returns tt (mkConverter (mError c)
                                   (gm_insert (to_unsigned firstGid) t (mGidMapper c))
                                   (mMapDir c)).

Definition access {A : Type} (a : Access A) : M A :=
  match a with
  | Value x => ret x
  | OutOfBounds => fun _ => Undefined
  end.

(** Unfolds the steps of [M] in the goal and the hypotheses. *)
Ltac run_monad :=
  unfold bind, ret, setError, getGidMapper, getMapDir, registerTileset, access in *.

(** A step that may return the null pointer: the function returns at once
    when it does. *)
Notation "x <-? m ;; k" :=
  (bind m (fun r => match r with Some x => k | None => ret None end))
  (at level 61, m at next level, right associativity).

Infix "+++" := String.append (right associativity, at level 60).

Definition isEmpty (s : string) : bool :=
  match s with
  | EmptyString => true
  | _ => false
  end.

(** [tr(text)]: the text itself, no translation being installed. *)
Definition tr (s : string) : string := s.

Section Converter.
Context {E : Environment}.

Definition resolvePath (dir : string) (variant : QVariant) : string :=
  let fileName := QVariant_toString variant in
  if isRelativePath fileName then cleanPath (absoluteFilePath dir fileName)
  else fileName.

Definition toProperties (variant : QVariant) : Properties :=
  let variantMap := QVariant_toMap variant in
  fold_left (fun properties it => properties_set (fst it) (QVariant_toString (snd it)) properties)
            variantMap [].

Definition toPolygon (variant : QVariant) : list QPointF :=
  map (fun pointVariant =>
         let pointVariantMap := QVariant_toMap pointVariant in
         let pointX := QVariant_toReal pointVariantMap[["x"]] in
         let pointY := QVariant_toReal pointVariantMap[["y"]] in
         mkQPointF pointX pointY)
      (QVariant_toList variant).

Definition toRTBMap (variantMap : QVariantMap) (rtbMap : RTBMap) : RTBMap :=
  let color := QVariant_toString variantMap[["customglowcolor"]] in
  let glow := if negb (isEmpty color) && isValidColor color
              then Some color else customGlowColor rtbMap in
  let color := QVariant_toString variantMap[["custombackgroundcolor"]] in
  let background := if negb (isEmpty color) && isValidColor color
                    then Some color else customBackgroundColor rtbMap in
  mkRTBMap (QVariant_toInt variantMap[["haserror"]])
           glow
           background
           (QVariant_toReal variantMap[["levelbrightness"]])
           (QVariant_toReal variantMap[["clouddensity"]])
           (QVariant_toReal variantMap[["cloudvelocity"]])
           (QVariant_toReal variantMap[["cloudalpha"]])
           (QVariant_toReal variantMap[["snowdensity"]])
           (QVariant_toReal variantMap[["snowvelocity"]])
           (QVariant_toReal variantMap[["snowrisingvelocity"]])
           (QVariant_toReal variantMap[["cameragrain"]])
           (QVariant_toReal variantMap[["cameracontrast"]])
           (QVariant_toReal variantMap[["camerasaturation"]])
           (QVariant_toReal variantMap[["cameraglow"]])
           (QVariant_toInt variantMap[["haswalls"]])
           (QVariant_toString variantMap[["levelname"]])
           (QVariant_toString variantMap[["leveldescription"]])
           (QVariant_toInt variantMap[["backgroundcolorscheme"]])
           (QVariant_toInt variantMap[["glowcolorscheme"]])
           (QVariant_toInt variantMap[["chapter"]])
           (QVariant_toInt variantMap[["hasstarfield"]])
           (QVariant_toInt variantMap[["difficulty"]])
           (QVariant_toInt variantMap[["playstyle"]])
           (QVariant_toInt variantMap[["workshopid"]])
           (QVariant_toString variantMap[["previewimagepath"]]).

(** The [switch] on [rtbMapObject->objectType()]; every case sets all the
    members its record has here. *)
Definition toRTBMapObject (variantMap : QVariantMap) (rtbMapObject : RTBMapObject) : RTBMapObject :=
  let int_at := fun k => QVariant_toInt variantMap[[k]] in
  let double_at := fun k => QVariant_toReal variantMap[[k]] in
  let string_at := fun k => QVariant_toString variantMap[[k]] in
  match objectType rtbMapObject with
  | CustomFloorTrap =>
      RTBCustomFloorTrap (int_at "intervalspeed") (int_at "intervaloffset")
  | MovingFloorTrapSpawner =>
      RTBMovingFloorTrapSpawner (int_at "spawnamount") (int_at "intervalspeed")
                                (int_at "randomizestart")
  | Button =>
      RTBButtonObject (int_at "beatsactive") (string_at "laserbeamtargets")
  | LaserBeam =>
      RTBLaserBeam (int_at "beamtype") (int_at "activatedonstart")
                   (int_at "directiondegrees") (int_at "targetdirectiondegrees")
                   (int_at "intervaloffset") (int_at "intervalspeed")
  | ProjectileTurret =>
      RTBProjectileTurret (int_at "intervalspeed") (int_at "intervaloffset")
                          (int_at "projectilespeed") (int_at "shotdirection")
  | Teleporter =>
      let target := string_at "teleportertarget" in
      if negb (String.eqb target "0") then RTBTeleporter target
      else RTBTeleporter EmptyString
  | Target => rtbMapObject
  | FloorText =>
      let width := int_at "triggerzonewidth" in
      let height := int_at "triggerzoneheight" in
      RTBFloorText (string_at "text") (int_at "maxcharacters")
                   (mkQSizeF (qreal_of_Z width) (qreal_of_Z height))
                   (int_at "usetrigger")
                   (double_at "scale") (double_at "offsetx") (double_at "offsety")
  | CameraTrigger =>
      let target := string_at "cameratarget" in
      let stored := if negb (String.eqb target "0") then target else EmptyString in
      let width := int_at "cameratriggerzonewidth" in
      let height := int_at "cameratriggerzoneheight" in
      RTBCameraTrigger stored (mkQSizeF (qreal_of_Z width) (qreal_of_Z height))
                       (int_at "cameraheight") (int_at "cameraangle")
  | StartLocation => rtbMapObject
  | FinishHole => rtbMapObject
  | NPCBallSpawner =>
      RTBNPCBallSpawner (int_at "spawnclass") (int_at "size") (int_at "intervaloffset")
                        (int_at "spawnfrequency") (int_at "speed") (int_at "direction")
  | OtherObjectType => rtbMapObject
  end.

(** The body of the loop of [toObjectGroup]: the object built from one
    entry of the ["objects"] list.  The global-id mapper is only read. *)
Definition toMapObject (gidMapper : GidMapper) (objectVariant : QVariant) : MapObject :=
  let objectVariantMap := QVariant_toMap objectVariant in
  let name := QVariant_toString objectVariantMap[["name"]] in
  let type := QVariant_toString objectVariantMap[["type"]] in
  let id := QString_toInt (QVariant_toString objectVariantMap[["id"]]) in
  let gid := QVariant_toInt objectVariantMap[["gid"]] in
  let x := QVariant_toReal objectVariantMap[["x"]] in
  let y := QVariant_toReal objectVariantMap[["y"]] in
  let width := QVariant_toReal objectVariantMap[["width"]] in
  let height := QVariant_toReal objectVariantMap[["height"]] in
  let rotation := QVariant_toReal objectVariantMap[["rotation"]] in
  let pos := mkQPointF x y in
  let size := mkQSizeF width height in
  let object := new_MapObject name type pos size in
  let object := mo_setId id object in
  let object := mo_setRotation rotation object in
  let object :=
    if negb (gid =? 0) then
      match resolve gidMapper (to_unsigned gid) with
      | Some (pointer, tile) =>
          let object := mo_setCell (Some pointer) object in
          let tileSize := mkQSizeF (qreal_of_Z (sz_width (tile_size tile)))
                                   (qreal_of_Z (sz_height (tile_size tile))) in
          let object := if qreal_is_zero width
                        then mo_setWidth (szf_width tileSize) object else object in
          let object := if qreal_is_zero height
                        then mo_setHeight (szf_height tileSize) object else object in
          object
      | None => mo_setCell None object
      end
    else object in
  let object :=
    if contains objectVariantMap "visible"
    then mo_setVisible (QVariant_toBool objectVariantMap[["visible"]]) object
    else object in
  let object := mo_setProperties (toProperties objectVariantMap[["properties"]]) object in
  let polylineVariant := objectVariantMap[["polyline"]] in
  let polygonVariant := objectVariantMap[["polygon"]] in
  let object :=
    if isValid polygonVariant
    then mo_setPolygon (toPolygon polygonVariant) (mo_setShape Polygon object)
    else object in
  let object :=
    if isValid polylineVariant
    then mo_setPolygon (toPolygon polylineVariant) (mo_setShape Polyline object)
    else object in
  let object :=
    if contains objectVariantMap "ellipse" then mo_setShape Ellipse object else object in
  let created := new_RTBMapObject (rtbObjectTypeOf (mo_type object)) in
  mo_setRTBMapObject (Some (toRTBMapObject objectVariantMap created)) object.

Definition toObjectGroup (variantMap : QVariantMap) : M (option ObjectGroup) :=
  let layer := new_Layer (QVariant_toString variantMap[["name"]])
                         (QVariant_toInt variantMap[["x"]])
                         (QVariant_toInt variantMap[["y"]])
                         (QVariant_toInt variantMap[["width"]])
                         (QVariant_toInt variantMap[["height"]]) in
  let opacity := QVariant_toReal variantMap[["opacity"]] in
  let visible := QVariant_toBool variantMap[["visible"]] in
  let layer := l_setVisible visible (l_setOpacity opacity layer) in
  let color := QVariant_toColor variantMap[["color"]] in
  let drawOrderString := QVariant_toString variantMap[["draworder"]] in
  drawOrder <-? (if negb (isEmpty drawOrderString) then
                   match drawOrderFromString drawOrderString with
                   | UnknownOrder =>
                       setError (tr "Invalid draw order: " +++ drawOrderString) ;;;
                       ret None
                   | order => ret (Some order)
                   end
                 else ret (Some TopDownOrder)) ;;
  gidMapper <- getGidMapper ;;
  let objects := map (toMapObject gidMapper) (QVariant_toList variantMap[["objects"]]) in
  ret (Some (mkObjectGroup layer color drawOrder objects)).

(** The loop of [toTileLayer] over the data list, entered with the
    position [(x, y)] of the next cell. *)
Fixpoint readCells (data : QVariantList) (x y : Z) (tileLayer : TileLayer)
  : M (option TileLayer) :=
  match data with
  | [] => ret (Some tileLayer)
  | gidVariant :: rest =>
      match QVariant_toUInt gidVariant with
      | None =>
          setError (tr "Unable to parse tile at (" +++ QString_number x +++ ","
                    +++ QString_number y +++ ") on layer '"
                    +++ l_name (tl_layer tileLayer) +++ "'") ;;;
          ret None
      | Some gid =>
          gidMapper <- getGidMapper ;;
          let cell := fst (gidToCell gidMapper gid) in
          tileLayer <- access (setCell x y cell tileLayer) ;;
          let x := int_add x 1 in
          if x >=? tl_width tileLayer
          then readCells rest 0 (int_add y 1) tileLayer
          else readCells rest x y tileLayer
      end
  end.

Definition toTileLayer (variantMap : QVariantMap) : M (option TileLayer) :=
  let name := QVariant_toString variantMap[["name"]] in
  let width := QVariant_toInt variantMap[["width"]] in
  let height := QVariant_toInt variantMap[["height"]] in
  let dataVariantList := QVariant_toList variantMap[["data"]] in
  if negb (count dataVariantList =? int_mul width height) then
    setError (tr "Corrupt layer data for layer '" +++ name +++ "'") ;;;
    ret None
  else
    let tileLayer := new_TileLayer name
                                   (QVariant_toInt variantMap[["x"]])
                                   (QVariant_toInt variantMap[["y"]])
                                   width height in
    let opacity := QVariant_toReal variantMap[["opacity"]] in
    let visible := QVariant_toBool variantMap[["visible"]] in
    let tileLayer := mkTileLayer (l_setVisible visible (l_setOpacity opacity (tl_layer tileLayer)))
                                 (tl_grid tileLayer) in
    readCells dataVariantList 0 0 tileLayer.

(** [variantMap["image"].toString()] wrapped in a variant again: null when
    the text is a null [QString], which is what a value that has no text
    converts to. *)
Definition toString_isNull (v : QVariant) : bool :=
  match v with
  | VInvalid | VList _ | VMap _ => true
  | _ => false
  end.

Definition toImageLayer (variantMap : QVariantMap) : M (option ImageLayer) :=
  let layer := new_Layer (QVariant_toString variantMap[["name"]])
                         (QVariant_toInt variantMap[["x"]])
                         (QVariant_toInt variantMap[["y"]])
                         (QVariant_toInt variantMap[["width"]])
                         (QVariant_toInt variantMap[["height"]]) in
  let opacity := QVariant_toReal variantMap[["opacity"]] in
  let visible := QVariant_toBool variantMap[["visible"]] in
  let layer := l_setVisible visible (l_setOpacity opacity layer) in
  let trans := QVariant_toString variantMap[["transparentcolor"]] in
  let transparentColor :=
    if negb (isEmpty trans) && isValidColor trans then Some trans else None in
  let imageVariant := VString (QVariant_toString variantMap[["image"]]) in
  if negb (toString_isNull variantMap[["image"]]) then
    mapDir <- getMapDir ;;
    let imagePath := resolvePath mapDir imageVariant in
    match loadImage imagePath with
    | None =>
        setError (tr "Error loading image:" +++ nl +++ "'" +++ imagePath +++ "'") ;;;
        ret None
    | Some size =>
        ret (Some (mkImageLayer layer transparentColor imagePath (Some size)))
    end
  else ret (Some (mkImageLayer layer transparentColor EmptyString None)).

Definition layer_setProperties (p : Properties) (l : Layer) : Layer :=
  match l with
  | LayerTiles t => LayerTiles (mkTileLayer (l_setProperties p (tl_layer t)) (tl_grid t))
  | LayerObjects g =>
      LayerObjects (mkObjectGroup (l_setProperties p (og_layer g)) (og_color g)
                                  (og_drawOrder g) (og_objects g))
  | LayerImage i =>
      LayerImage (mkImageLayer (l_setProperties p (il_layer i)) (il_transparentColor i)
                               (il_imageSource i) (il_image i))
  end.

Definition toLayer (variant : QVariant) : M (option Layer) :=
  let variantMap := QVariant_toMap variant in
  layer <- (if QVariant_equals variantMap[["type"]] "tilelayer" then
              l <- toTileLayer variantMap ;; ret (option_map LayerTiles l)
            else if QVariant_equals variantMap[["type"]] "objectgroup" then
              l <- toObjectGroup variantMap ;; ret (option_map LayerObjects l)
            else if QVariant_equals variantMap[["type"]] "imagelayer" then
              l <- toImageLayer variantMap ;; ret (option_map LayerImage l)
            else ret None) ;;
  match layer with
  | Some l => ret (Some (layer_setProperties (toProperties variantMap[["properties"]]) l))
  | None => ret None
  end.

(** The path [toTileset] loads the tileset image from. *)
Definition rtbTilesetImage : string := ":/rtb_resources/tileset/Floor.png".

(** Modelled from the spec: [Tileset::loadFromImage] is declared in
    [tileset.h], which is not among the sources.  It fails on an image that
    does not decode; otherwise the tileset keeps the path and the decoded
    size as its shared source image, and the image is cut into tiles of the
    tileset's tile size, which replace the images of the tiles there are
    and are appended beyond them. *)
Definition loadFromImage (imagePath : string) (t : Tileset) : option Tileset :=
  match loadImage imagePath with
  | None => None
  | Some size =>
      let tileSize := mkQSize (ts_tileWidth t) (ts_tileHeight t) in
      let n := tilesInImage size (ts_tileWidth t) (ts_tileHeight t)
                            (ts_tileSpacing t) (ts_margin t) in
      let old := map (fun x => tile_with_image tileSize (tile_imageSource x) x) (ts_tiles t) in
      let fresh := map (fun i => new_Tile tileSize (Z.of_nat i))
                       (seq (List.length old) (n - List.length old)) in
      Some (mkTileset (ts_name t) (ts_tileWidth t) (ts_tileHeight t) (ts_tileSpacing t)
                      (ts_margin t) (ts_tileOffset t) (ts_transparentColor t)
                      imagePath size (ts_terrains t) (old ++ fresh) (ts_properties t))
  end.

(** The size of [QPixmap(path)]: a null pixmap has size [0 x 0]. *)
Definition pixmapSize (path : string) : QSize :=
  match loadImage path with
  | Some size => size
  | None => mkQSize 0 0
  end.

(** [for (int i = 0; i < 4; ++i)] over the four entries of ["terrain"],
    entered at corner [i]. *)
Fixpoint readCorners (tileset : Tileset) (i : Z) (terrains : QVariantList) (tile : Tile) : Tile :=
  match terrains with
  | [] => tile
  | v :: rest =>
      let tile :=
        match QVariant_toLongLong v with
        | Some z =>
            let terrainId := to_int z in
            if (terrainId >=? 0) && (terrainId <? terrainCount tileset)
            then setCornerTerrainId i terrainId tile else tile
        | None => tile
        end in
      readCorners tileset (i + 1) rest tile
  end.

(** What the loop over ["tiles"] does with the tile [tileAt] returned. *)
Definition readTile (tileset : Tileset) (tileVar : QVariantMap) (tile : Tile) : M Tile :=
  let terrains := QVariant_toList tileVar[["terrain"]] in
  let tile := if count terrains =? 4 then readCorners tileset 0 terrains tile else tile in
  let tile := match QVariant_toFloat tileVar[["probability"]] with
              | Some terrainProbability => setTerrainProbability terrainProbability tile
              | None => tile
              end in
  let imageVariant := tileVar[["image"]] in
  mapDir <- getMapDir ;;
  let tile := if negb (isNull imageVariant) then
                let imagePath := resolvePath mapDir imageVariant in
                tile_with_image (pixmapSize imagePath) imagePath tile
              else tile in
  let objectGroupVariant := QVariant_toMap tileVar[["objectgroup"]] in
  tile <- (match objectGroupVariant with
           | [] => ret tile
           | _ => g <- toObjectGroup objectGroupVariant ;; ret (setObjectGroup g tile)
           end) ;;
  let frameList := QVariant_toList tileVar[["animation"]] in
  let tile := match frameList with
              | [] => tile
              | _ => setFrames (map (fun f =>
                                       let frameVariantMap := QVariant_toMap f in
                                       mkFrame (QVariant_toInt frameVariantMap[["tileid"]])
                                               (QVariant_toInt frameVariantMap[["duration"]]))
                                    frameList) tile
              end in
  ret tile.

(** [if (tileIndex >= tileset->tileCount()) { ... }] in the loop over the
    entries of ["tiles"]: the tileset is extended to hold the index, unless
    the index is at or beyond [entries], the value of
    [tilesVariantMap.count()], in which case [toTileset] returns null. *)
Definition extendTileset (entries tileIndex : Z) (tileset : Tileset) : M (option Tileset) :=
  if tileIndex >=? tileCount tileset then
    if tileIndex >=? entries then
      setError (tr "Tileset tile index too high:" +++ nl +++ "'"
                +++ QString_number tileIndex +++ "'") ;;;
      ret None
    else ret (Some (growTo tileIndex tileset))
  else ret (Some tileset).

(** [Tile *tile = tileset->tileAt(tileIndex); if (tile) { ... }] *)
Definition overrideTile (tileIndex : Z) (value : QVariant) (tileset : Tileset) : M Tileset :=
  tile <- access (tileAt tileset tileIndex) ;;
  match tile with
  | Some tile =>
      tile <- readTile tileset (QVariant_toMap value) tile ;;
      ret (storeTile tileIndex tile tileset)
  | None => ret tileset
  end.

(** The body of the loop of [toTileset] over the entries of ["tiles"]:
    [None] when the body returns the null tileset from [toTileset], the
    tileset as the entry leaves it otherwise. *)
Definition readTilesEntry (entries : Z) (it : string * QVariant) (tileset : Tileset)
  : M (option Tileset) :=
  let tileIndex := QString_toInt (fst it) in
  (if tileIndex <? 0 then
     setError (tr "Tileset tile index negative:" +++ nl +++ "'"
               +++ QString_number tileIndex +++ "'")
   else ret tt) ;;;
  tileset <-? extendTileset entries tileIndex tileset ;;
  tileset <- overrideTile tileIndex (snd it) tileset ;;
  ret (Some tileset).

Fixpoint readTiles (entries : Z) (tiles : QVariantMap) (tileset : Tileset)
  : M (option Tileset) :=
  match tiles with
  | [] => ret (Some tileset)
  | it :: rest =>
      tileset <-? readTilesEntry entries it tileset ;;
      readTiles entries rest tileset
  end.

(** The loop of [toTileset] over the entries of ["tileproperties"]. *)
Definition readTileProperties (propertiesVariantMap : QVariantMap) (tileset : Tileset) : Tileset :=
  fold_left (fun tileset it =>
               let tileIndex := QString_toInt (fst it) in
               let propertiesVar := snd it in
               if (tileIndex >=? 0) && (tileIndex <? tileCount tileset) then
                 match nth_error (ts_tiles tileset) (Z.to_nat tileIndex) with
                 | Some tile =>
                     storeTile tileIndex (tile_setProperties (toProperties propertiesVar) tile)
                               tileset
                 | None => tileset
                 end
               else tileset)
            propertiesVariantMap tileset.

Definition readTerrains (terrainsVariantList : QVariantList) (tileset : Tileset) : Tileset :=
  fold_left (fun tileset terrain =>
               let terrainMap := QVariant_toMap terrain in
               addTerrain (QVariant_toString terrainMap[["name"]])
                          (QVariant_toInt terrainMap[["tile"]]) tileset)
            terrainsVariantList tileset.

Definition toTileset (variant : QVariant) : M (option Tileset) :=
  let variantMap := QVariant_toMap variant in
  let firstGid := QVariant_toInt variantMap[["firstgid"]] in
  let name := QVariant_toString variantMap[["name"]] in
  let tileWidth := QVariant_toInt variantMap[["tilewidth"]] in
  let tileHeight := QVariant_toInt variantMap[["tileheight"]] in
  let spacing := QVariant_toInt variantMap[["spacing"]] in
  let margin := QVariant_toInt variantMap[["margin"]] in
  let tileOffset := QVariant_toMap variantMap[["tileoffset"]] in
  let tileOffsetX := QVariant_toInt tileOffset[["x"]] in
  let tileOffsetY := QVariant_toInt tileOffset[["y"]] in
  if (tileWidth <=? 0) || (tileHeight <=? 0) || (firstGid =? 0) then
    setError (tr "Invalid tileset parameters for tileset '" +++ name +++ "'") ;;;
    ret None
  else
    let tileset := Tileset_create name tileWidth tileHeight spacing margin in
    let tileset := ts_setTileOffset (mkQPoint tileOffsetX tileOffsetY) tileset in
    let trans := QVariant_toString variantMap[["transparentcolor"]] in
    let tileset := if negb (isEmpty trans) && isValidColor trans
                   then ts_setTransparentColor (Some trans) tileset else tileset in
    let imageVariant := variantMap[["image"]] in
    tileset <-? (if negb (isNull imageVariant) then
                   let imagePath := rtbTilesetImage in
                   match loadFromImage imagePath tileset with
                   | None =>
                       setError (tr "Error loading tileset image:" +++ nl +++ "'"
                                 +++ imagePath +++ "'") ;;;
                       ret None
                   | Some loaded => ret (Some loaded)
                   end
                 else ret (Some tileset)) ;;
    let tileset := ts_setProperties (toProperties variantMap[["properties"]]) tileset in
    let tileset := readTerrains (QVariant_toList variantMap[["terrains"]]) tileset in
    let tilesVariantMap := QVariant_toMap variantMap[["tiles"]] in
    tileset <-? readTiles (count tilesVariantMap) tilesVariantMap tileset ;;
    let tileset := readTileProperties (QVariant_toMap variantMap[["tileproperties"]]) tileset in
    registerTileset firstGid tileset ;;;
    ret (Some tileset).

Definition dquote : string := String (ascii_of_nat 34) EmptyString.

(** The members [Map]'s constructor gives the game's record. *)
Definition new_RTBMap : RTBMap :=
  let z := PrimFloat.zero in
  mkRTBMap 0 None None z z z z z z z z z z z 0 EmptyString EmptyString 0 0 0 0 0 0 0
           EmptyString.

Definition map_addTileset (t : Tileset) (m : Map) : Map :=
  mkMap (map_orientation m) (map_width m) (map_height m) (map_tileWidth m) (map_tileHeight m)
        (map_hexSideLength m) (map_staggerAxis m) (map_staggerIndex m) (map_renderOrder m)
        (map_rtbMap m) (map_nextObjectId m) (map_properties m) (map_backgroundColor m)
        (map_tilesets m ++ [t]) (map_layers m).

Definition map_addLayer (l : Layer) (m : Map) : Map :=
  mkMap (map_orientation m) (map_width m) (map_height m) (map_tileWidth m) (map_tileHeight m)
        (map_hexSideLength m) (map_staggerAxis m) (map_staggerIndex m) (map_renderOrder m)
        (map_rtbMap m) (map_nextObjectId m) (map_properties m) (map_backgroundColor m)
        (map_tilesets m) (map_layers m ++ [l]).

(** The two loops of [toMap]. *)
Fixpoint addTilesets (tilesets : QVariantList) (map : Map) : M (option Map) :=
  match tilesets with
  | [] => ret (Some map)
  | tilesetVariant :: rest =>
      tileset <-? toTileset tilesetVariant ;;
      addTilesets rest (map_addTileset tileset map)
  end.

Fixpoint addLayers (layers : QVariantList) (map : Map) : M (option Map) :=
  match layers with
  | [] => ret (Some map)
  | layerVariant :: rest =>
      layer <-? toLayer layerVariant ;;
      addLayers rest (map_addLayer layer map)
  end.

Definition toMap (variant : QVariant) (mapDir : string) : M (option Map) :=
  (fun c => Returns tt (mkConverter (mError c) [] mapDir)) ;;;
  let variantMap := QVariant_toMap variant in
  let orientationString := QVariant_toString variantMap[["orientation"]] in
  let orientation := orientationFromString orientationString in
  match orientation with
  | Unknown =>
      setError (tr "Unsupported map orientation: " +++ dquote +++ orientationString
                +++ dquote) ;;;
      ret None
  | _ =>
      let staggerAxis := staggerAxisFromString (QVariant_toString variantMap[["staggeraxis"]]) in
      let staggerIndex := staggerIndexFromString (QVariant_toString variantMap[["staggerindex"]]) in
      let renderOrder := renderOrderFromString (QVariant_toString variantMap[["renderorder"]]) in
      let nextObjectId := QString_toInt (QVariant_toString variantMap[["nextobjectid"]]) in
      let bgColor := QVariant_toString variantMap[["backgroundcolor"]] in
      let map :=
        mkMap orientation
              (QVariant_toInt variantMap[["width"]])
              (QVariant_toInt variantMap[["height"]])
              (QVariant_toInt variantMap[["tilewidth"]])
              (QVariant_toInt variantMap[["tileheight"]])
              (QVariant_toInt variantMap[["hexsidelength"]])
              staggerAxis staggerIndex renderOrder
              (toRTBMap variantMap new_RTBMap)
              (if negb (nextObjectId =? 0) then nextObjectId else 1)
              (toProperties variantMap[["properties"]])
              (if negb (isEmpty bgColor) && isValidColor bgColor then Some bgColor else None)
              [] [] in
      map <-? addTilesets (QVariant_toList variantMap[["tilesets"]]) map ;;
      addLayers (QVariant_toList variantMap[["layers"]]) map
  end.

End Converter.

(* ================================================================== *)
(** ** An environment to run the converter in *)

(** [qRound64] on the finite doubles: the nearest integer, halves away
    from zero. *)
Definition round_double (d : qreal) : Z :=
  match Prim2SF d with
  | S754_finite s m e =>
      let v := if 0 <=? e then Z.pos m * 2 ^ e
               else (2 * Z.pos m + 2 ^ (- e)) / 2 ^ (- e + 1) in
      if s then - v else v
  | _ => 0
  end.

Definition starts_with (c : ascii) (s : string) : bool :=
  match s with
  | String c' _ => Ascii.eqb c c'
  | EmptyString => false
  end.

(** Qt on a Unix file system, with the image decoder [decode]: paths are
    relative unless they start with a slash or name a resource, colours are
    written [#rrggbb], a text is a double when it is an integer, and the
    enumerations are read from the names the map format gives them. *)
Definition qtEnvironment (decode : string -> option QSize) : Environment := {|
  QString_toDouble := fun s => option_map qreal_of_Z (QString_toLongLong s);
  QString_fromDouble := fun d => QString_number (round_double d);
  qRound64 := round_double;
  to_float := fun d => d;
  QVariant_equals := fun v s => match v with
                                | VString t => String.eqb t s
                                | _ => false
                                end;
  isValidColor := fun s => starts_with "#" s && (String.length s =? 7)%nat;
  loadImage := decode;
  isRelativePath := fun s => negb (starts_with "/" s || starts_with ":" s);
  absoluteFilePath := fun dir s => dir +++ "/" +++ s;
  cleanPath := fun s => s;
  tilesInImage := fun size tw th spacing margin =>
                    if (0 <? tw + spacing) && (0 <? th + spacing) then
                      Z.to_nat (((sz_width size - margin + spacing) / (tw + spacing))
                                * ((sz_height size - margin + spacing) / (th + spacing)))
                    else O;
  orientationFromString := fun s =>
                             if String.eqb s "orthogonal" then Orthogonal
                             else if String.eqb s "isometric" then Isometric
                             else if String.eqb s "staggered" then Staggered
                             else if String.eqb s "hexagonal" then Hexagonal
                             else Unknown;
  staggerAxisFromString := fun s => if String.eqb s "x" then StaggerX else StaggerY;
  staggerIndexFromString := fun s => if String.eqb s "even" then StaggerEven else StaggerOdd;
  renderOrderFromString := fun s =>
                             if String.eqb s "right-up" then RightUp
                             else if String.eqb s "left-down" then LeftDown
                             else if String.eqb s "left-up" then LeftUp
                             else RightDown;
  drawOrderFromString := fun s =>
                           if String.eqb s "topdown" then TopDownOrder
                           else if String.eqb s "index" then IndexOrder
                           else UnknownOrder;
  rtbObjectTypeOf := fun s =>
                       if String.eqb s "CustomFloorTrap" then CustomFloorTrap
                       else if String.eqb s "MovingFloorTrapSpawner" then MovingFloorTrapSpawner
                       else if String.eqb s "Button" then Button
                       else if String.eqb s "LaserBeam" then LaserBeam
                       else if String.eqb s "ProjectileTurret" then ProjectileTurret
                       else if String.eqb s "Teleporter" then Teleporter
                       else if String.eqb s "Target" then Target
                       else if String.eqb s "FloorText" then FloorText
                       else if String.eqb s "CameraTrigger" then CameraTrigger
                       else if String.eqb s "StartLocation" then StartLocation
                       else if String.eqb s "FinishHole" then FinishHole
                       else if String.eqb s "NPCBallSpawner" then NPCBallSpawner
                       else OtherObjectType
|}.

(** A decoder that knows no image, and a converter that has not run. *)
Definition noImages : string -> option QSize := fun _ => None.

Definition newConverter : Converter := mkConverter EmptyString [] EmptyString.

(** The tileset [toTileset] has created when it comes to the image: lines
    149 to 157 of the source. *)
Definition createdTileset {E : Environment} (variantMap : QVariantMap) : Tileset :=
  let tileOffset := QVariant_toMap variantMap[["tileoffset"]] in
  let tileset := Tileset_create (QVariant_toString variantMap[["name"]])
                                (QVariant_toInt variantMap[["tilewidth"]])
                                (QVariant_toInt variantMap[["tileheight"]])
                                (QVariant_toInt variantMap[["spacing"]])
                                (QVariant_toInt variantMap[["margin"]]) in
  let tileset := ts_setTileOffset (mkQPoint (QVariant_toInt tileOffset[["x"]])
                                            (QVariant_toInt tileOffset[["y"]])) tileset in
  let trans := QVariant_toString variantMap[["transparentcolor"]] in
  if negb (isEmpty trans) && isValidColor trans
  then ts_setTransparentColor (Some trans) tileset else tileset.

(** The number of tiles the tileset image gives a tileset record: none
    without an image. *)
Definition imageTiles {E : Environment} (variantMap : QVariantMap) : Z :=
  if isNull variantMap[["image"]] then 0
  else match loadImage rtbTilesetImage with
       | Some size => Z.of_nat (tilesInImage size
                                             (QVariant_toInt variantMap[["tilewidth"]])
                                             (QVariant_toInt variantMap[["tileheight"]])
                                             (QVariant_toInt variantMap[["spacing"]])
                                             (QVariant_toInt variantMap[["margin"]]))
       | None => 0
       end.

(** A decoder that knows one image, of the given size. *)
Definition onlyImage (path : string) (size : QSize) : string -> option QSize :=
  fun p => if String.eqb p path then Some size else None.

(** A tileset record named ["ground"], first global id 1, tiles of
    16 x 16, with the image field and the entries of ["tiles"] given. *)
Definition groundTileset (image : QVariant) (tiles : QVariantMap) : QVariant :=
  VMap [("firstgid", VInt 1); ("image", image); ("name", VString "ground");
        ("tileheight", VInt 16); ("tiles", VMap tiles); ("tilewidth", VInt 16)].

(** A tile-layer record named ["floor"]. *)
Definition floorLayer (width height : Z) (data : QVariantList) : QVariant :=
  VMap [("data", VList data); ("height", VInt height); ("name", VString "floor");
        ("type", VString "tilelayer"); ("width", VInt width)].

(** An orthogonal map with the given tilesets and layers. *)
Definition orthogonalMap (tilesets layers : QVariantList) : QVariant :=
  VMap [("layers", VList layers); ("orientation", VString "orthogonal");
        ("tilesets", VList tilesets)].

(** A mapper that knows one tileset of four 16 x 16 tiles, from global id 1. *)
Definition fourTiles : GidMapper :=
  [(1, ts_with_tiles (map (new_Tile (mkQSize 16 16)) [0; 1; 2; 3])
                     (Tileset_create "ground" 16 16 0 0))].

(** What the loops of [toTileset] keep of a tileset: its image. *)
Definition same_image (a b : Tileset) : Prop :=
  ts_imageSource a = ts_imageSource b /\ ts_imageSize a = ts_imageSize b.

(** Two states of the converter in the same conversion: the same mapper
    and the same directory, whatever the error text. *)
Definition same_session (c c' : Converter) : Prop :=
  mGidMapper c' = mGidMapper c /\ mMapDir c' = mMapDir c.

(** The terrain a corner gets from its entry of ["terrain"]: the terrain id
    the entry converts to when that is one of the tileset's terrains, the
    terrain the corner had otherwise. *)
Definition cornerTerrain {E : Environment} (tileset : Tileset) (entry : QVariant) (was : Z) : Z :=
  match QVariant_toLongLong entry with
  | Some z => if (to_int z >=? 0) && (to_int z <? terrainCount tileset) then to_int z else was
  | None => was
  end.

(** A tileset that differs from another by its tiles at most. *)
Definition only_tiles (a b : Tileset) : Prop := a = ts_with_tiles (ts_tiles a) b.

(** The members of a map other than its tilesets and its layers. *)
Definition map_header (m : Map) :=
  (map_orientation m, map_width m, map_height m, map_tileWidth m, map_tileHeight m,
   map_hexSideLength m, map_staggerAxis m, map_staggerIndex m, map_renderOrder m,
   map_rtbMap m, map_nextObjectId m, map_properties m, map_backgroundColor m).

(** The target a teleporter or a camera trigger stores. *)
Definition storedTarget (o : RTBMapObject) : option string :=
  match o with
  | RTBTeleporter t => Some t
  | RTBCameraTrigger t _ _ _ => Some t
  | _ => None
  end.

(** The point [toPolygon] reads from one entry of a point list. *)
Definition pointOf {E : Environment} (pointVariant : QVariant) : QPointF :=
  mkQPointF (QVariant_toReal (QVariant_toMap pointVariant)[["x"]])
            (QVariant_toReal (QVariant_toMap pointVariant)[["y"]]).

(* ================================================================== *)
(** ** Objects *)

Section Objects.
Context {E : Environment}.

(** C9.  For an object of the teleporter or the camera-trigger category,
    let [s] be the text of its target field (["teleportertarget"], resp.
    ["cameratarget"]).  When [s] is the literal ["0"] the stored target is
    the empty string; for every other text the stored target is [s]
    itself. *)
Theorem target_zero_is_absent (variantMap : QVariantMap) (o : RTBMapObject) (s : string) :
  (objectType o = Teleporter /\ s = QVariant_toString variantMap[["teleportertarget"]]) \/
  (objectType o = CameraTrigger /\ s = QVariant_toString variantMap[["cameratarget"]]) ->
  (s = "0" -> storedTarget (toRTBMapObject variantMap o) = Some EmptyString) /\
  (s <> "0" -> storedTarget (toRTBMapObject variantMap o) = Some s).
Proof.
  intros [ [Ho Hs] | [Ho Hs] ]; unfold toRTBMapObject; rewrite Ho; cbv zeta; rewrite <- Hs;
    (split; intro H;
     [ rewrite H; reflexivity
     | apply String.eqb_neq in H; rewrite H; reflexivity ]).
Qed.

(** C7.  An object record with a polygon point list and a polyline point
    list and without an ["ellipse"] key gives an object of shape
    [Polyline] whose points are those of the polyline list. *)
Theorem polyline_wins_over_polygon
  (gidMapper : GidMapper) (objectVariant : QVariant) (polygon polyline : QVariantList) :
  (QVariant_toMap objectVariant)[["polygon"]] = VList polygon ->
  (QVariant_toMap objectVariant)[["polyline"]] = VList polyline ->
  contains (QVariant_toMap objectVariant) "ellipse" = false ->
  mo_shape (toMapObject gidMapper objectVariant) = Polyline /\
  mo_polygon (toMapObject gidMapper objectVariant) = map pointOf polyline.
Proof.
  intros Hpg Hpl He. unfold toMapObject. cbv zeta.
  rewrite Hpg, Hpl, He. cbn [isValid].
  split; reflexivity.
Qed.

Lemma resolve_zero (m : GidMapper) : resolve m 0 = None.
Proof. reflexivity. Qed.

(** C8.  When the global id of an object record resolves to a tile, the
    object refers to that tile; a width of [0] in the record is replaced by
    the width of the tile and any other width is kept, and likewise for
    the height. *)
Theorem tile_stamp_backfills_zero_size
  (gidMapper : GidMapper) (objectVariant : QVariant) (pointer : TileRef) (tile : Tile) :
  resolve gidMapper (to_unsigned (QVariant_toInt (QVariant_toMap objectVariant)[["gid"]]))
  = Some (pointer, tile) ->
  let object := toMapObject gidMapper objectVariant in
  let width := QVariant_toReal (QVariant_toMap objectVariant)[["width"]] in
  let height := QVariant_toReal (QVariant_toMap objectVariant)[["height"]] in
  mo_cell object = Some pointer /\
  (qreal_is_zero width = true ->
   szf_width (mo_size object) = qreal_of_Z (sz_width (tile_size tile))) /\
  (qreal_is_zero width = false -> szf_width (mo_size object) = width) /\
  (qreal_is_zero height = true ->
   szf_height (mo_size object) = qreal_of_Z (sz_height (tile_size tile))) /\
  (qreal_is_zero height = false -> szf_height (mo_size object) = height).
Proof.
  intros Hres object width height. subst object width height.
  assert (Hgid : (QVariant_toInt (QVariant_toMap objectVariant)[["gid"]] =? 0) = false).
  { destruct (QVariant_toInt (QVariant_toMap objectVariant)[["gid"]] =? 0) eqn:Hz; [|reflexivity].
    apply Z.eqb_eq in Hz. rewrite Hz in Hres. discriminate Hres. }
  unfold toMapObject. cbv zeta. rewrite Hgid, Hres. cbn [negb].
  destruct (qreal_is_zero (QVariant_toReal (QVariant_toMap objectVariant)[["width"]]));
    destruct (qreal_is_zero (QVariant_toReal (QVariant_toMap objectVariant)[["height"]]));
    destruct (contains (QVariant_toMap objectVariant) "visible");
    destruct (isValid (QVariant_toMap objectVariant)[["polygon"]]);
    destruct (isValid (QVariant_toMap objectVariant)[["polyline"]]);
    destruct (contains (QVariant_toMap objectVariant) "ellipse");
    repeat split; intros; try discriminate; reflexivity.
Qed.

(** Without a ["visible"] key an object stays visible, as its constructor
    made it. *)
Lemma object_visible_by_default (gidMapper : GidMapper) (objectVariant : QVariant) :
  contains (QVariant_toMap objectVariant) "visible" = false ->
  mo_visible (toMapObject gidMapper objectVariant) = true.
Proof.
  intros Hv. unfold toMapObject. cbv zeta. rewrite Hv.
  destruct (negb (QVariant_toInt (QVariant_toMap objectVariant)[["gid"]] =? 0));
    [ destruct (resolve gidMapper _) as [ [pointer tile] | ];
      [ destruct (qreal_is_zero (QVariant_toReal (QVariant_toMap objectVariant)[["width"]]));
        destruct (qreal_is_zero (QVariant_toReal (QVariant_toMap objectVariant)[["height"]])) | ] | ];
    destruct (isValid (QVariant_toMap objectVariant)[["polygon"]]);
    destruct (isValid (QVariant_toMap objectVariant)[["polyline"]]);
    destruct (contains (QVariant_toMap objectVariant) "ellipse");
    reflexivity.
Qed.

End Objects.

(* ================================================================== *)
(** ** Layers *)

Lemma absent_key_is_invalid (m : QVariantMap) (k : string) :
  contains m k = false -> m[[k]] = VInvalid.
Proof.
  unfold contains, at_key. destruct (map_find k m); [discriminate | reflexivity].
Qed.

Section Layers.
Context {E : Environment}.

Lemma absent_visible_is_false (m : QVariantMap) :
  contains m "visible" = false -> QVariant_toBool m[["visible"]] = false.
Proof. intros H. rewrite (absent_key_is_invalid _ _ H). reflexivity. Qed.

Lemma setCell_layer (x y : Z) (c : Cell) (t t' : TileLayer) :
  setCell x y c t = Value t' -> tl_layer t' = tl_layer t.
Proof.
  unfold setCell. destruct (_ && _); [|discriminate].
  intros H. injection H as <-. reflexivity.
Qed.

(** The loop over the data leaves the layer's own members alone. *)
Lemma readCells_layer (data : QVariantList) :
  forall x y t c t' c',
    readCells data x y t c = Returns (Some t') c' -> tl_layer t' = tl_layer t.
Proof.
  induction data as [|v rest IH]; intros x y t c t' c' H; simpl in H.
  - run_monad. injection H as <- _. reflexivity.
  - destruct (QVariant_toUInt v) as [gid|]; run_monad; [|discriminate].
    destruct (setCell x y _ t) as [t1|] eqn:Hset; [|discriminate].
    apply setCell_layer in Hset. run_monad.
    destruct (int_add x 1 >=? tl_width t1); apply IH in H; congruence.
Qed.

Lemma toTileLayer_visible (variantMap : QVariantMap) (c c' : Converter) (t : TileLayer) :
  toTileLayer variantMap c = Returns (Some t) c' ->
  l_visible (tl_layer t) = QVariant_toBool variantMap[["visible"]].
Proof.
  unfold toTileLayer. cbv zeta. destruct (negb _).
  - run_monad. discriminate.
  - intros H. apply readCells_layer in H. rewrite H. reflexivity.
Qed.

Lemma toObjectGroup_visible (variantMap : QVariantMap) (c c' : Converter) (g : ObjectGroup) :
  toObjectGroup variantMap c = Returns (Some g) c' ->
  l_visible (og_layer g) = QVariant_toBool variantMap[["visible"]].
Proof.
  unfold toObjectGroup. cbv zeta. run_monad.
  destruct (negb (isEmpty _)); [destruct (drawOrderFromString _)|];
    intros H; try discriminate; injection H as <- _; reflexivity.
Qed.

Lemma toImageLayer_visible (variantMap : QVariantMap) (c c' : Converter) (i : ImageLayer) :
  toImageLayer variantMap c = Returns (Some i) c' ->
  l_visible (il_layer i) = QVariant_toBool variantMap[["visible"]].
Proof.
  unfold toImageLayer. cbv zeta. run_monad.
  destruct (negb (toString_isNull _)); [destruct (loadImage _)|];
    intros H; try discriminate; injection H as <- _; reflexivity.
Qed.

(** C10.  A layer record without a ["visible"] key gives a layer that is
    not visible, whichever of the three builders makes it, whereas an
    object record without that key gives a visible object. *)
Theorem layer_without_visible_key_is_hidden (variantMap : QVariantMap) :
  contains variantMap "visible" = false ->
  (forall c c' t, toTileLayer variantMap c = Returns (Some t) c' ->
                  l_visible (tl_layer t) = false) /\
  (forall c c' g, toObjectGroup variantMap c = Returns (Some g) c' ->
                  l_visible (og_layer g) = false) /\
  (forall c c' i, toImageLayer variantMap c = Returns (Some i) c' ->
                  l_visible (il_layer i) = false) /\
  (forall variant c c' layer,
      QVariant_toMap variant = variantMap ->
      toLayer variant c = Returns (Some layer) c' ->
      l_visible (layerData layer) = false) /\
  (forall gidMapper objectVariant,
      QVariant_toMap objectVariant = variantMap ->
      mo_visible (toMapObject gidMapper objectVariant) = true).
Proof.
  intros Hv. pose proof (absent_visible_is_false _ Hv) as Hb.
  split; [|split; [|split; [|split] ] ].
  - intros c c' t H. rewrite (toTileLayer_visible _ _ _ _ H). exact Hb.
  - intros c c' g H. rewrite (toObjectGroup_visible _ _ _ _ H). exact Hb.
  - intros c c' i H. rewrite (toImageLayer_visible _ _ _ _ H). exact Hb.
  - intros variant c c' layer Hm H. unfold toLayer in H. cbv zeta in H.
    rewrite Hm in H. unfold bind at 1 in H.
    destruct (QVariant_equals variantMap[["type"]] "tilelayer").
    { unfold bind at 1 in H.
      destruct (toTileLayer variantMap c) as [ [t|] c1|] eqn:Ht; run_monad; simpl in H; try discriminate.
      injection H as <- _. simpl.
      rewrite (toTileLayer_visible _ _ _ _ Ht). exact Hb. }
    destruct (QVariant_equals variantMap[["type"]] "objectgroup").
    { unfold bind at 1 in H.
      destruct (toObjectGroup variantMap c) as [ [g|] c1|] eqn:Hg; run_monad; simpl in H; try discriminate.
      injection H as <- _. simpl.
      rewrite (toObjectGroup_visible _ _ _ _ Hg). exact Hb. }
    destruct (QVariant_equals variantMap[["type"]] "imagelayer").
    { unfold bind at 1 in H.
      destruct (toImageLayer variantMap c) as [ [i|] c1|] eqn:Hi; run_monad; simpl in H; try discriminate.
      injection H as <- _. simpl.
      rewrite (toImageLayer_visible _ _ _ _ Hi). exact Hb. }
    run_monad. discriminate.
  - intros gidMapper objectVariant Hm. apply object_visible_by_default.
    rewrite Hm. exact Hv.
Qed.

(** A layer record no layer can be built from keeps [toMap] from returning
    a document, wherever it stands in the list of layers. *)
Lemma addLayers_null (layerVariant : QVariant) :
  (forall c, exists c', toLayer layerVariant c = Returns None c') ->
  forall layers map c m c',
    In layerVariant layers -> addLayers layers map c <> Returns (Some m) c'.
Proof.
  intros Hnull layers. induction layers as [|v rest IH]; intros map c m c' Hin H.
  - destruct Hin.
  - simpl in H. unfold bind in H. destruct Hin as [->|Hin].
    + destruct (Hnull c) as [c1 Hc1]. rewrite Hc1 in H. discriminate H.
    + destruct (toLayer v c) as [ [l|] c1|]; try discriminate H.
      exact (IH _ _ _ _ Hin H).
Qed.

Lemma addTilesets_null (tilesetVariant : QVariant) :
  (forall c, exists c', toTileset tilesetVariant c = Returns None c') ->
  forall tilesets map c m c',
    In tilesetVariant tilesets -> addTilesets tilesets map c <> Returns (Some m) c'.
Proof.
  intros Hnull tilesets. induction tilesets as [|v rest IH]; intros map c m c' Hin H.
  - destruct Hin.
  - simpl in H. unfold bind in H. destruct Hin as [->|Hin].
    + destruct (Hnull c) as [c1 Hc1]. rewrite Hc1 in H. discriminate H.
    + destruct (toTileset v c) as [ [t|] c1|]; try discriminate H.
      exact (IH _ _ _ _ Hin H).
Qed.

(** When [toMap] returns a document, both of its loops ran to their end. *)
Lemma toMap_document (variant : QVariant) (mapDir : string) (c c' : Converter) (m : Map) :
  toMap variant mapDir c = Returns (Some m) c' ->
  exists map0 map1 c1 c2,
    addTilesets (QVariant_toList (QVariant_toMap variant)[["tilesets"]]) map0 c1
    = Returns (Some map1) c2 /\
    addLayers (QVariant_toList (QVariant_toMap variant)[["layers"]]) map1 c2
    = Returns (Some m) c'.
Proof.
  unfold toMap. cbv zeta. unfold bind at 1.
  destruct (orientationFromString _); [run_monad; discriminate| | | | ];
    unfold bind at 1;
    match goal with
    | |- context [addTilesets ?l ?m0 ?c0] =>
        destruct (addTilesets l m0 c0) as [ [map1|] c2|] eqn:Hts;
        [ intros H; exists m0, map1, c0, c2; split; [exact Hts | exact H]
        | run_monad; discriminate
        | discriminate ]
    end.
Qed.


End Layers.

(* ================================================================== *)
(** ** The grid of a tile layer *)

Lemma to_int_small (z : Z) : INT_MIN <= z <= INT_MAX -> to_int z = z.
Proof.
  unfold to_int, INT_MIN, INT_MAX. intros H.
  rewrite Z.mod_small by lia. lia.
Qed.

Lemma to_int_range (z : Z) : INT_MIN <= to_int z <= INT_MAX.
Proof.
  unfold to_int, INT_MIN, INT_MAX.
  pose proof (Z.mod_pos_bound (z + 2147483648) 4294967296 ltac:(lia)). lia.
Qed.

Lemma to_int_below (z : Z) : 0 <= z -> to_int z <= z.
Proof.
  unfold to_int. intros H.
  pose proof (Z.mod_le (z + 2147483648) 4294967296 ltac:(lia) ltac:(lia)). lia.
Qed.

Lemma length_list_set {A : Type} (l : list A) (n : nat) (a : A) :
  List.length (list_set l n a) = List.length l.
Proof.
  revert n. induction l as [|x r IH]; intros [|n]; simpl; try reflexivity.
  now rewrite IH.
Qed.

Lemma nth_list_set_same {A : Type} (l : list A) (n : nat) (a d : A) :
  (n < List.length l)%nat -> nth n (list_set l n a) d = a.
Proof.
  revert n. induction l as [|x r IH]; intros [|n] H; simpl in *; try lia; try reflexivity.
  apply IH. lia.
Qed.

Lemma nth_list_set_other {A : Type} (l : list A) (n i : nat) (a d : A) :
  i <> n -> nth i (list_set l n a) d = nth i l d.
Proof.
  revert n i. induction l as [|x r IH]; intros [|n] [|i] H; simpl; try reflexivity; try lia.
  apply IH. lia.
Qed.

Lemma next_column (w k : Z) :
  0 < w -> 0 <= k -> k mod w + 1 < w ->
  (k + 1) mod w = k mod w + 1 /\ (k + 1) / w = k / w.
Proof.
  intros Hw Hk Hx.
  pose proof (Z.mod_pos_bound k w Hw) as Hb.
  pose proof (Z.div_mod k w ltac:(lia)) as Hd.
  assert (He : k + 1 = w * (k / w) + (k mod w + 1)) by lia.
  split.
  - symmetry. apply (Z.mod_unique_pos (k + 1) w (k / w)); [lia | exact He].
  - symmetry. apply (Z.div_unique_pos (k + 1) w (k / w) (k mod w + 1)); [lia | exact He].
Qed.

Lemma next_row (w k : Z) :
  0 < w -> 0 <= k -> w <= k mod w + 1 ->
  (k + 1) mod w = 0 /\ (k + 1) / w = k / w + 1.
Proof.
  intros Hw Hk Hx.
  pose proof (Z.mod_pos_bound k w Hw) as Hb.
  pose proof (Z.div_mod k w ltac:(lia)) as Hd.
  assert (He : k + 1 = w * (k / w + 1) + 0) by lia.
  split.
  - symmetry. apply (Z.mod_unique_pos (k + 1) w (k / w + 1)); [lia | exact He].
  - symmetry. apply (Z.div_unique_pos (k + 1) w (k / w + 1) 0); [lia | exact He].
Qed.

Section Grid.
Context {E : Environment}.

Lemma QVariant_toInt_range (v : QVariant) : INT_MIN <= QVariant_toInt v <= INT_MAX.
Proof.
  unfold QVariant_toInt. destruct (QVariant_toLongLong v).
  - apply to_int_range.
  - unfold INT_MIN, INT_MAX. lia.
Qed.

(** The loop over the data, entered after [k] entries with the position
    [(k mod w, k / w)]: when the entries left are numeric and fit in the
    grid, it stores the cell of entry [j] at index [k + j] and leaves the
    cells before [k] alone. *)
Lemma readCells_fills (data : QVariantList) :
  forall (k : nat) (t : TileLayer) (c : Converter),
    0 < tl_width t <= INT_MAX ->
    tl_height t <= INT_MAX ->
    Z.of_nat k + count data <= tl_width t * tl_height t ->
    Z.of_nat k + count data <= count (tl_grid t) ->
    Forall (fun v => QVariant_toUInt v <> None) data ->
    exists t',
      readCells data (Z.of_nat k mod tl_width t) (Z.of_nat k / tl_width t) t c
      = Returns (Some t') c /\
      tl_layer t' = tl_layer t /\
      List.length (tl_grid t') = List.length (tl_grid t) /\
      (forall i, (i < k)%nat -> nth i (tl_grid t') None = nth i (tl_grid t) None) /\
      (forall j v, nth_error data j = Some v ->
                   exists gid, QVariant_toUInt v = Some gid /\
                               nth (k + j) (tl_grid t') None
                               = fst (gidToCell (mGidMapper c) gid)).
Proof.
  induction data as [|v rest IH]; intros k t c Hw Hh Hfit Hgrid Hnum.
  - exists t. simpl. repeat split; try reflexivity.
    intros [|j] v' H; discriminate H.
  - inversion Hnum as [|v0 r0 Hv Hrest]; subst v0 r0.
    destruct (QVariant_toUInt v) as [gid|] eqn:Hgid; [|contradiction].
    unfold count in Hfit, Hgrid. simpl List.length in Hfit, Hgrid.
    set (w := tl_width t) in *. set (h := tl_height t) in *.
    assert (Hk : 0 <= Z.of_nat k) by lia.
    pose proof (Z.mod_pos_bound (Z.of_nat k) w ltac:(lia)) as Hx.
    pose proof (Z.div_mod (Z.of_nat k) w ltac:(lia)) as Hd.
    assert (Hy0 : 0 <= Z.of_nat k / w) by (apply Z.div_pos; lia).
    assert (Hy : Z.of_nat k / w < h).
    { apply Z.div_lt_upper_bound; lia. }
    assert (Hidx : Z.of_nat k mod w + Z.of_nat k / w * w = Z.of_nat k) by lia.
    set (cell := fst (gidToCell (mGidMapper c) gid)).
    set (t1 := mkTileLayer (tl_layer t) (list_set (tl_grid t) k cell)).
    assert (Hset : setCell (Z.of_nat k mod w) (Z.of_nat k / w) cell t = Value t1).
    { unfold setCell, tl_contains. fold w. fold h. rewrite Hidx.
      replace (0 <=? Z.of_nat k mod w) with true by (symmetry; apply Z.leb_le; lia).
      replace (Z.of_nat k mod w <? w) with true by (symmetry; apply Z.ltb_lt; lia).
      replace (0 <=? Z.of_nat k / w) with true by (symmetry; apply Z.leb_le; lia).
      replace (Z.of_nat k / w <? h) with true by (symmetry; apply Z.ltb_lt; lia).
      replace (Z.of_nat k <? count (tl_grid t)) with true
        by (symmetry; apply Z.ltb_lt; unfold count; lia).
      simpl. rewrite Nat2Z.id. reflexivity. }
    assert (Hnext : (if int_add (Z.of_nat k mod w) 1 >=? tl_width t1
                     then readCells rest 0 (int_add (Z.of_nat k / w) 1) t1
                     else readCells rest (int_add (Z.of_nat k mod w) 1) (Z.of_nat k / w) t1)
                    = readCells rest (Z.of_nat (S k) mod tl_width t1)
                                (Z.of_nat (S k) / tl_width t1) t1).
    { change (tl_width t1) with w. rewrite Nat2Z.inj_succ. unfold Z.succ.
      unfold int_add. unfold INT_MAX in Hw, Hh.
      rewrite !to_int_small by (unfold INT_MIN, INT_MAX; lia).
      destruct (Z.of_nat k mod w + 1 >=? w) eqn:Hge.
      - apply Z.geb_le in Hge.
        destruct (next_row w (Z.of_nat k) ltac:(lia) Hk Hge) as [-> ->]. reflexivity.
      - rewrite Z.geb_leb in Hge. apply Z.leb_gt in Hge.
        destruct (next_column w (Z.of_nat k) ltac:(lia) Hk Hge) as [-> ->]. reflexivity. }
    destruct (IH (S k) t1 c) as (t' & Hrun & Hlayer & Hlen & Hbefore & Hafter).
    { exact Hw. }
    { exact Hh. }
    { change (tl_width t1) with w. change (tl_height t1) with h. unfold count.
      clear - Hfit. lia. }
    { unfold count. subst t1. cbn [tl_grid]. rewrite length_list_set.
      clear - Hgrid. lia. }
    { exact Hrest. }
    exists t'. split; [|split; [|split; [|split] ] ].
    + simpl. rewrite Hgid. unfold bind, getGidMapper. fold cell. rewrite Hset.
      unfold access, ret. rewrite Hnext. exact Hrun.
    + exact Hlayer.
    + rewrite Hlen. simpl. apply length_list_set.
    + intros i Hi. rewrite Hbefore by lia. simpl. apply nth_list_set_other. lia.
    + intros [|j] v' Hj; simpl in Hj.
      * injection Hj as <-. exists gid. split; [exact Hgid|].
        rewrite Nat.add_0_r. rewrite Hbefore by lia. simpl.
        apply nth_list_set_same. lia.
      * destruct (Hafter j v' Hj) as (gid' & Hg' & Hn'). exists gid'. split; [exact Hg'|].
        rewrite <- Hn'. f_equal. lia.
Qed.

Lemma numbers_are_numeric (n : Z) (d : qreal) :
  QVariant_toUInt (VInt n) <> None /\ QVariant_toUInt (VDouble d) <> None.
Proof. split; discriminate. Qed.

Lemma unresolved_is_empty (m : GidMapper) (gid : Z) :
  gid = 0 \/ resolve m gid = None -> fst (gidToCell m gid) = None.
Proof.
  intros [->|H]; unfold gidToCell; [rewrite resolve_zero | rewrite H]; reflexivity.
Qed.

(** C5, as the code has it.  For a tile-layer record with a width and a
    height that are not negative, whose data entries are all numeric and
    whose data list has length [width * height] (the product the source
    computes on [int]), [toTileLayer] returns a layer and leaves the
    converter as it was, error text included.  The layer has that width
    and height and exactly [width * height] cells, and the cell at
    [(x, y)] is what the global-id mapper resolves the data entry at
    row-major index [y * width + x] to: the empty cell when that global id
    is [0] or does not resolve.  When the product fits an [int], every
    position of the grid has its data entry. *)
Theorem tile_layer_cells_row_major (variantMap : QVariantMap) (c : Converter) :
  Forall (fun gidVariant => QVariant_toUInt gidVariant <> None)
         (QVariant_toList variantMap[["data"]]) ->
  count (QVariant_toList variantMap[["data"]])
  = int_mul (QVariant_toInt variantMap[["width"]]) (QVariant_toInt variantMap[["height"]]) ->
  0 <= QVariant_toInt variantMap[["width"]] ->
  0 <= QVariant_toInt variantMap[["height"]] ->
  exists tileLayer,
    toTileLayer variantMap c = Returns (Some tileLayer) c /\
    tl_width tileLayer = QVariant_toInt variantMap[["width"]] /\
    tl_height tileLayer = QVariant_toInt variantMap[["height"]] /\
    count (tl_grid tileLayer)
    = int_mul (QVariant_toInt variantMap[["width"]]) (QVariant_toInt variantMap[["height"]]) /\
    (forall x y gidVariant,
        0 <= x < QVariant_toInt variantMap[["width"]] -> 0 <= y ->
        nth_error (QVariant_toList variantMap[["data"]])
                  (Z.to_nat (y * QVariant_toInt variantMap[["width"]] + x)) = Some gidVariant ->
        exists gid,
          QVariant_toUInt gidVariant = Some gid /\
          cellAt tileLayer x y = fst (gidToCell (mGidMapper c) gid) /\
          (gid = 0 \/ resolve (mGidMapper c) gid = None -> cellAt tileLayer x y = None)) /\
    (QVariant_toInt variantMap[["width"]] * QVariant_toInt variantMap[["height"]] <= INT_MAX ->
     forall x y,
       0 <= x < QVariant_toInt variantMap[["width"]] ->
       0 <= y < QVariant_toInt variantMap[["height"]] ->
       exists gidVariant,
         nth_error (QVariant_toList variantMap[["data"]])
                   (Z.to_nat (y * QVariant_toInt variantMap[["width"]] + x)) = Some gidVariant).
Proof.
  set (w := QVariant_toInt variantMap[["width"]]).
  set (h := QVariant_toInt variantMap[["height"]]).
  set (data := QVariant_toList variantMap[["data"]]).
  intros Hnum Hlen Hw Hh.
  pose proof (QVariant_toInt_range variantMap[["width"]]) as Rw. fold w in Rw.
  pose proof (QVariant_toInt_range variantMap[["height"]]) as Rh. fold h in Rh.
  set (t0 := mkTileLayer
               (l_setVisible (QVariant_toBool variantMap[["visible"]])
                  (l_setOpacity (QVariant_toReal variantMap[["opacity"]])
                     (new_Layer (QVariant_toString variantMap[["name"]])
                                (QVariant_toInt variantMap[["x"]])
                                (QVariant_toInt variantMap[["y"]]) w h)))
               (repeat None (Z.to_nat (int_mul w h)))).
  assert (Hrun : toTileLayer variantMap c = readCells data 0 0 t0 c).
  { unfold toTileLayer. cbv zeta. fold w h data. rewrite Hlen, Z.eqb_refl. reflexivity. }
  assert (Hgrid0 : count (tl_grid t0) = int_mul w h).
  { unfold count, t0. cbn [tl_grid]. rewrite repeat_length, Z2Nat.id; [reflexivity|].
    rewrite <- Hlen. unfold count. lia. }
  assert (Hfill : exists t',
             readCells data 0 0 t0 c = Returns (Some t') c /\
             tl_layer t' = tl_layer t0 /\
             List.length (tl_grid t') = List.length (tl_grid t0) /\
             (forall j v, nth_error data j = Some v ->
                          exists gid, QVariant_toUInt v = Some gid /\
                                      nth j (tl_grid t') None
                                      = fst (gidToCell (mGidMapper c) gid))).
  { destruct data as [|v rest] eqn:Hdata.
    - exists t0. simpl. repeat split; try reflexivity. intros [|j] v H; discriminate H.
    - assert (Hpos : 0 < w).
      { destruct (Z.eq_dec w 0) as [Hz|Hz]; [|lia].
        exfalso. rewrite Hz in Hlen. unfold count, int_mul in Hlen.
        simpl in Hlen. discriminate Hlen. }
      destruct (readCells_fills (v :: rest) 0 t0 c) as (t' & H1 & H2 & H3 & _ & H5).
      + change (tl_width t0) with w. lia.
      + change (tl_height t0) with h. lia.
      + change (tl_width t0) with w. change (tl_height t0) with h.
        rewrite Hlen. unfold int_mul.
        pose proof (to_int_below (w * h) ltac:(nia)). lia.
      + rewrite Hgrid0, Hlen. lia.
      + exact Hnum.
      + change (tl_width t0) with w in H1.
        rewrite Z.mod_0_l, Z.div_0_l in H1 by lia.
        exists t'. repeat split; try assumption. }
  destruct Hfill as (t' & Hret & Hlayer & Hglen & Hcells).
  assert (Hwidth : tl_width t' = w) by (unfold tl_width; rewrite Hlayer; reflexivity).
  exists t'. split; [rewrite Hrun; exact Hret|].
  split; [exact Hwidth|].
  split; [unfold tl_height; rewrite Hlayer; reflexivity|].
  split; [unfold count in *; rewrite Hglen; exact Hgrid0|].
  split.
  - intros x y gidVariant Hx Hy Hnth.
    destruct (Hcells _ _ Hnth) as (gid & Hgid & Hcell).
    assert (Hat : cellAt t' x y = fst (gidToCell (mGidMapper c) gid)).
    { unfold cellAt. rewrite Hwidth. rewrite <- Hcell. f_equal. f_equal. lia. }
    exists gid. split; [exact Hgid|]. split; [exact Hat|].
    intros Hempty. rewrite Hat. apply unresolved_is_empty. exact Hempty.
  - intros Hfits x y Hx Hy.
    assert (Hprod : int_mul w h = w * h).
    { unfold int_mul. apply to_int_small. unfold INT_MIN. nia. }
    destruct (nth_error data (Z.to_nat (y * w + x))) as [v|] eqn:Hn; [exists v; reflexivity|].
    apply nth_error_None in Hn. exfalso.
    unfold count in Hlen. rewrite Hprod in Hlen. nia.
Qed.

End Grid.

(* ================================================================== *)
(** ** Tilesets *)

Lemma same_image_refl (a : Tileset) : same_image a a.
Proof. split; reflexivity. Qed.

Lemma same_image_trans (a b d : Tileset) :
  same_image a b -> same_image b d -> same_image a d.
Proof. intros [H1 H2] [H3 H4]. split; congruence. Qed.

Lemma tileCount_storeTile (id : Z) (tile : Tile) (t : Tileset) :
  tileCount (storeTile id tile t) = tileCount t.
Proof. unfold tileCount, count, storeTile. simpl. now rewrite length_list_set. Qed.

Lemma tileCount_addTiles (n : nat) :
  forall t, tileCount (addTiles n t) = tileCount t + Z.of_nat n.
Proof.
  induction n as [|n IH]; intros t; simpl.
  - lia.
  - rewrite IH. unfold tileCount, count, addTile. simpl.
    rewrite length_app. simpl. lia.
Qed.

Lemma same_image_addTiles (n : nat) : forall t, same_image (addTiles n t) t.
Proof.
  induction n as [|n IH]; intros t; simpl.
  - apply same_image_refl.
  - apply (same_image_trans _ _ _ (IH _)). split; reflexivity.
Qed.

Lemma tileCount_growTo (tileIndex : Z) (t : Tileset) :
  tileCount t <= tileIndex -> tileCount (growTo tileIndex t) = tileIndex + 1.
Proof. intros H. unfold growTo. rewrite tileCount_addTiles. lia. Qed.

Lemma fold_left_invariant {A B : Type} (P : A -> Prop) (f : A -> B -> A) (l : list B) :
  (forall a b, P a -> P (f a b)) -> forall a, P a -> P (fold_left f l a).
Proof.
  intros Hstep. induction l as [|b r IH]; intros a Ha; simpl; [exact Ha|].
  apply IH, Hstep, Ha.
Qed.

Section Tilesets.
Context {E : Environment}.

Lemma readTerrains_keeps (terrains : QVariantList) (t : Tileset) :
  ts_tiles (readTerrains terrains t) = ts_tiles t /\ same_image (readTerrains terrains t) t.
Proof.
  unfold readTerrains.
  apply (fold_left_invariant (fun a => ts_tiles a = ts_tiles t /\ same_image a t)).
  - intros a b [H1 H2]. split; [exact H1 | exact H2].
  - split; [reflexivity | apply same_image_refl].
Qed.

Lemma readTileProperties_keeps (properties : QVariantMap) (t : Tileset) :
  tileCount (readTileProperties properties t) = tileCount t /\
  same_image (readTileProperties properties t) t.
Proof.
  unfold readTileProperties.
  apply (fold_left_invariant (fun a => tileCount a = tileCount t /\ same_image a t)).
  - intros a b [H1 H2].
    destruct ((QString_toInt (fst b) >=? 0) && (QString_toInt (fst b) <? tileCount a));
      [destruct (nth_error (ts_tiles a) _)|]; try (split; assumption).
    split; [rewrite tileCount_storeTile; exact H1 | exact H2].
  - split; [reflexivity | apply same_image_refl].
Qed.

Lemma extendTileset_keeps (entries tileIndex : Z) (t t' : Tileset) (c c' : Converter) :
  extendTileset entries tileIndex t c = Returns (Some t') c' ->
  tileCount t <= tileCount t' <= Z.max (tileCount t) entries /\ same_image t' t.
Proof.
  unfold extendTileset.
  destruct (tileIndex >=? tileCount t) eqn:Hge;
    [destruct (tileIndex >=? entries) eqn:Hhigh|]; run_monad; try discriminate;
    intros H; injection H as <- _.
  - apply Z.geb_le in Hge. rewrite Z.geb_leb in Hhigh. apply Z.leb_gt in Hhigh.
    rewrite (tileCount_growTo _ _ Hge). split; [lia | apply same_image_addTiles].
  - split; [lia | apply same_image_refl].
Qed.

Lemma overrideTile_keeps (tileIndex : Z) (value : QVariant) (t t' : Tileset)
      (c c' : Converter) :
  overrideTile tileIndex value t c = Returns t' c' ->
  tileCount t' = tileCount t /\ same_image t' t.
Proof.
  unfold overrideTile. unfold bind at 1.
  destruct (tileAt t tileIndex) as [ [tile|] |]; simpl; try discriminate.
  - unfold bind. destruct (readTile t _ tile c) as [tile' c1|]; [|discriminate].
    unfold ret. intros H. injection H as <- _.
    split; [apply tileCount_storeTile | split; reflexivity].
  - unfold ret. intros H. injection H as <- _.
    split; [reflexivity | apply same_image_refl].
Qed.

(** One entry of ["tiles"] grows the tileset to at most [entries] tiles,
    and never shrinks it. *)
Lemma readTilesEntry_keeps (entries : Z) (it : string * QVariant) (t t' : Tileset)
      (c c' : Converter) :
  readTilesEntry entries it t c = Returns (Some t') c' ->
  tileCount t <= tileCount t' <= Z.max (tileCount t) entries /\ same_image t' t.
Proof.
  unfold readTilesEntry. cbv zeta.
  assert (Hrest : forall c1,
             (tileset <-? extendTileset entries (QString_toInt (fst it)) t ;;
              tileset <- overrideTile (QString_toInt (fst it)) (snd it) tileset ;;
              ret (Some tileset)) c1 = Returns (Some t') c' ->
             tileCount t <= tileCount t' <= Z.max (tileCount t) entries /\ same_image t' t).
  { intros c1. unfold bind at 1.
    destruct (extendTileset _ _ t c1) as [ [t1|] c2|] eqn:H1; try discriminate.
    unfold bind.
    destruct (overrideTile _ _ t1 c2) as [t2 c3|] eqn:H2; [|discriminate].
    unfold ret. intros H. injection H as <- _.
    apply extendTileset_keeps in H1. apply overrideTile_keeps in H2.
    destruct H1 as [Hn1 Hi1]. destruct H2 as [Hn2 Hi2].
    rewrite Hn2. split; [exact Hn1 | exact (same_image_trans _ _ _ Hi2 Hi1)]. }
  unfold bind at 1. destruct (QString_toInt (fst it) <? 0); apply Hrest.
Qed.

Lemma readTiles_keeps (entries : Z) (tiles : QVariantMap) :
  forall t t' c c',
    readTiles entries tiles t c = Returns (Some t') c' ->
    tileCount t <= tileCount t' <= Z.max (tileCount t) entries /\ same_image t' t.
Proof.
  induction tiles as [|it rest IH]; intros t t' c c' H; simpl in H.
  - unfold ret in H. injection H as <- _. split; [lia | apply same_image_refl].
  - unfold bind in H.
    destruct (readTilesEntry entries it t c) as [ [t1|] c1|] eqn:H1; try discriminate H.
    apply readTilesEntry_keeps in H1. apply IH in H.
    destruct H1 as [Hn1 Hi1]. destruct H as [Hn Hi].
    split; [lia | exact (same_image_trans _ _ _ Hi Hi1)].
Qed.

(** An index at or beyond both the tile count and the number of entries
    ends [toTileset] with the error "Tileset tile index too high". *)
Lemma readTilesEntry_too_high (entries : Z) (it : string * QVariant) (t : Tileset)
      (c : Converter) :
  tileCount t <= QString_toInt (fst it) ->
  entries <= QString_toInt (fst it) ->
  readTilesEntry entries it t c
  = Returns None (mkConverter ("Tileset tile index too high:" +++ nl +++ "'"
                               +++ QString_number (QString_toInt (fst it)) +++ "'")
                              (mGidMapper c) (mMapDir c)).
Proof.
  intros Hcount Hentries. unfold readTilesEntry. cbv zeta.
  assert (H0 : 0 <= QString_toInt (fst it)) by (unfold tileCount, count in Hcount; lia).
  replace (QString_toInt (fst it) <? 0) with false by (symmetry; apply Z.ltb_ge; exact H0).
  unfold extendTileset.
  replace (QString_toInt (fst it) >=? tileCount t) with true
    by (symmetry; rewrite Z.geb_leb; apply Z.leb_le; exact Hcount).
  replace (QString_toInt (fst it) >=? entries) with true
    by (symmetry; rewrite Z.geb_leb; apply Z.leb_le; exact Hentries).
  reflexivity.
Qed.

Lemma createdTileset_empty (variantMap : QVariantMap) :
  ts_tiles (createdTileset variantMap) = [] /\
  ts_tileWidth (createdTileset variantMap) = QVariant_toInt variantMap[["tilewidth"]] /\
  ts_tileHeight (createdTileset variantMap) = QVariant_toInt variantMap[["tileheight"]] /\
  ts_tileSpacing (createdTileset variantMap) = QVariant_toInt variantMap[["spacing"]] /\
  ts_margin (createdTileset variantMap) = QVariant_toInt variantMap[["margin"]].
Proof.
  unfold createdTileset. cbv zeta. destruct (_ && _); repeat split; reflexivity.
Qed.

(** What [toTileset] went through when it returns a tileset. *)
Lemma toTileset_returns (variant : QVariant) (c c' : Converter) (tileset : Tileset) :
  toTileset variant c = Returns (Some tileset) c' ->
  let variantMap := QVariant_toMap variant in
  exists t0 t1 c1,
    (if isNull variantMap[["image"]] then t0 = createdTileset variantMap
     else loadFromImage rtbTilesetImage (createdTileset variantMap) = Some t0) /\
    readTiles (count (QVariant_toMap variantMap[["tiles"]]))
              (QVariant_toMap variantMap[["tiles"]])
              (readTerrains (QVariant_toList variantMap[["terrains"]])
                 (ts_setProperties (toProperties variantMap[["properties"]]) t0)) c
    = Returns (Some t1) c1 /\
    tileset = readTileProperties (QVariant_toMap variantMap[["tileproperties"]]) t1.
Proof.
  intros H variantMap. unfold toTileset in H. cbv zeta in H. fold variantMap in H.
  destruct (_ || _) in H; [run_monad; discriminate|].
  fold (createdTileset variantMap) in H.
  unfold bind at 1 in H.
  destruct (isNull variantMap[["image"]]) eqn:Hnull; cbn [negb] in H.
  - unfold ret at 1 in H. unfold bind at 1 in H.
    destruct (readTiles _ _ _ c) as [ [t1|] c1|] eqn:Hr; run_monad; try discriminate.
    injection H as <- _. exists (createdTileset variantMap), t1, c1.
    repeat split. exact Hr.
  - destruct (loadFromImage rtbTilesetImage (createdTileset variantMap)) as [t0|] eqn:Hload;
      [|run_monad; discriminate].
    unfold ret at 1 in H. unfold bind at 1 in H.
    destruct (readTiles _ _ _ c) as [ [t1|] c1|] eqn:Hr; run_monad; try discriminate.
    injection H as <- _. exists t0, t1, c1.
    repeat split. exact Hr.
Qed.

Lemma loadFromImage_tiles (variantMap : QVariantMap) (t0 : Tileset) :
  isNull variantMap[["image"]] = false ->
  loadFromImage rtbTilesetImage (createdTileset variantMap) = Some t0 ->
  tileCount t0 = imageTiles variantMap /\
  ts_imageSource t0 = rtbTilesetImage /\
  loadImage rtbTilesetImage = Some (ts_imageSize t0).
Proof.
  intros Hnull. unfold loadFromImage, imageTiles. rewrite Hnull.
  destruct (createdTileset_empty variantMap) as (Ht & Hw & Hh & Hs & Hm).
  rewrite Ht, Hw, Hh, Hs, Hm.
  destruct (loadImage rtbTilesetImage) as [size|]; [|discriminate].
  intros H. injection H as <-. unfold tileCount, count. cbn [ts_tiles ts_imageSource ts_imageSize].
  repeat split. simpl. rewrite length_map, length_seq. f_equal. lia.
Qed.

(** C4.  Let [N] be the number of entries of ["tiles"] in a tileset
    record.  The tileset [toTileset] returns has the tiles cut from the
    tileset image (none without an image) and, when the loop over the
    entries has grown it beyond those, at most [N] tiles: at most [N]
    tiles when the record has no image.  In that loop, an index at or
    beyond the tile count that is also at or beyond [N] is not grown to:
    the body returns null from [toTileset] there with the error "Tileset
    tile index too high". *)
Theorem tile_growth_is_capped (variant : QVariant) (c c' : Converter) (tileset : Tileset) :
  toTileset variant c = Returns (Some tileset) c' ->
  imageTiles (QVariant_toMap variant) <= tileCount tileset /\
  (imageTiles (QVariant_toMap variant) < tileCount tileset ->
   tileCount tileset <= count (QVariant_toMap (QVariant_toMap variant)[["tiles"]])) /\
  (isNull (QVariant_toMap variant)[["image"]] = true ->
   tileCount tileset <= count (QVariant_toMap (QVariant_toMap variant)[["tiles"]])) /\
  (forall (it : string * QVariant) (t : Tileset) (c1 : Converter),
      tileCount t <= QString_toInt (fst it) ->
      count (QVariant_toMap (QVariant_toMap variant)[["tiles"]]) <= QString_toInt (fst it) ->
      readTilesEntry (count (QVariant_toMap (QVariant_toMap variant)[["tiles"]])) it t c1
      = Returns None (mkConverter ("Tileset tile index too high:" +++ nl +++ "'"
                                   +++ QString_number (QString_toInt (fst it)) +++ "'")
                                  (mGidMapper c1) (mMapDir c1))).
Proof.
  intros H. apply toTileset_returns in H. cbv zeta in H.
  destruct H as (t0 & t1 & c1 & Himg & Hr & ->).
  apply readTiles_keeps in Hr. destruct Hr as [Hn _].
  destruct (readTileProperties_keeps
              (QVariant_toMap (QVariant_toMap variant)[["tileproperties"]]) t1) as [Hp _].
  rewrite Hp.
  assert (Hstart : tileCount (readTerrains (QVariant_toList (QVariant_toMap variant)[["terrains"]])
                                (ts_setProperties
                                   (toProperties (QVariant_toMap variant)[["properties"]]) t0))
                   = tileCount t0).
  { unfold tileCount. destruct (readTerrains_keeps
                                  (QVariant_toList (QVariant_toMap variant)[["terrains"]])
                                  (ts_setProperties
                                     (toProperties (QVariant_toMap variant)[["properties"]]) t0))
      as [Ht _]. rewrite Ht. reflexivity. }
  rewrite Hstart in Hn.
  assert (Ht0 : tileCount t0 = imageTiles (QVariant_toMap variant)).
  { destruct (isNull (QVariant_toMap variant)[["image"]]) eqn:Hnull.
    - subst t0. unfold imageTiles. rewrite Hnull.
      unfold tileCount. destruct (createdTileset_empty (QVariant_toMap variant)) as [-> _].
      reflexivity.
    - apply (loadFromImage_tiles _ _ Hnull Himg). }
  rewrite Ht0 in Hn.
  split; [lia|]. split; [lia|]. split.
  - intros Hnull. unfold imageTiles in Hn. rewrite Hnull in Hn.
    unfold count in *. lia.
  - intros it t c2. apply readTilesEntry_too_high.
Qed.

(** C1, as the code has it.  For a tileset record with an image field,
    [toTileset] loads the tileset image from the resource path
    [":/rtb_resources/tileset/Floor.png"], whatever path the record gives:
    a tileset it returns has that path as its image source and the size
    the decoder gave for it.  When that image does not decode, [toTileset]
    returns null, with the error "Error loading tileset image" when the
    record's parameters are valid, and [toMap] returns no document for a
    map that lists the record among its tilesets. *)
Theorem tileset_image_is_the_resource (variant : QVariant) (c : Converter) :
  isNull (QVariant_toMap variant)[["image"]] = false ->
  (forall tileset c',
      toTileset variant c = Returns (Some tileset) c' ->
      ts_imageSource tileset = rtbTilesetImage /\
      loadImage rtbTilesetImage = Some (ts_imageSize tileset)) /\
  (loadImage rtbTilesetImage = None ->
   (exists c', toTileset variant c = Returns None c') /\
   (0 < QVariant_toInt (QVariant_toMap variant)[["tilewidth"]] ->
    0 < QVariant_toInt (QVariant_toMap variant)[["tileheight"]] ->
    QVariant_toInt (QVariant_toMap variant)[["firstgid"]] <> 0 ->
    toTileset variant c
    = Returns None (mkConverter ("Error loading tileset image:" +++ nl +++ "'"
                                 +++ rtbTilesetImage +++ "'")
                                (mGidMapper c) (mMapDir c))) /\
   (forall mapVariant mapDir c0 m c',
       In variant (QVariant_toList (QVariant_toMap mapVariant)[["tilesets"]]) ->
       toMap mapVariant mapDir c0 <> Returns (Some m) c')).
Proof.
  intros Hnull. split.
  - intros tileset c' H. apply toTileset_returns in H. cbv zeta in H.
    destruct H as (t0 & t1 & c1 & Himg & Hr & ->).
    rewrite Hnull in Himg.
    destruct (loadFromImage_tiles _ _ Hnull Himg) as (_ & Hsrc & Hsize).
    apply readTiles_keeps in Hr. destruct Hr as [_ [Hs1 Hz1] ].
    destruct (readTileProperties_keeps
                (QVariant_toMap (QVariant_toMap variant)[["tileproperties"]]) t1)
      as [_ [Hs2 Hz2] ].
    destruct (readTerrains_keeps
                (QVariant_toList (QVariant_toMap variant)[["terrains"]])
                (ts_setProperties (toProperties (QVariant_toMap variant)[["properties"]]) t0))
      as [_ [Hs3 Hz3] ].
    cbn [ts_setProperties ts_imageSource ts_imageSize] in Hs3, Hz3.
    split; [congruence|]. rewrite Hsize. f_equal. congruence.
  - intros Hdecode.
    assert (Hload : loadFromImage rtbTilesetImage (createdTileset (QVariant_toMap variant)) = None).
    { unfold loadFromImage. rewrite Hdecode. reflexivity. }
    assert (Hfail : forall c1,
               toTileset variant c1
               = (if (QVariant_toInt (QVariant_toMap variant)[["tilewidth"]] <=? 0)
                     || (QVariant_toInt (QVariant_toMap variant)[["tileheight"]] <=? 0)
                     || (QVariant_toInt (QVariant_toMap variant)[["firstgid"]] =? 0)
                  then Returns None (mkConverter ("Invalid tileset parameters for tileset '"
                                                  +++ QVariant_toString
                                                        (QVariant_toMap variant)[["name"]]
                                                  +++ "'")
                                                 (mGidMapper c1) (mMapDir c1))
                  else Returns None (mkConverter ("Error loading tileset image:" +++ nl +++ "'"
                                                  +++ rtbTilesetImage +++ "'")
                                                 (mGidMapper c1) (mMapDir c1)))).
    { intros c1. unfold toTileset. cbv zeta.
      destruct (_ || _); [reflexivity|].
      fold (createdTileset (QVariant_toMap variant)).
      rewrite Hnull, Hload. reflexivity. }
    split; [|split].
    + rewrite Hfail. destruct (_ || _); eexists; reflexivity.
    + intros Hw Hh Hg. rewrite Hfail.
      replace (_ <=? 0) with false by (symmetry; apply Z.leb_gt; exact Hw).
      replace (_ <=? 0) with false by (symmetry; apply Z.leb_gt; exact Hh).
      replace (_ =? 0) with false by (symmetry; apply Z.eqb_neq; exact Hg).
      reflexivity.
    + intros mapVariant mapDir c0 m c' Hin H.
      apply toMap_document in H. destruct H as (map0 & map1 & c1 & c2 & H & _).
      revert H. apply addTilesets_null with (tilesetVariant := variant); [|exact Hin].
      intros c3. rewrite Hfail. destruct (_ || _); eexists; reflexivity.
Qed.

End Tilesets.

(* ================================================================== *)
(** ** Further properties of the builders *)

Section Builders.
Context {E : Environment}.

(** A draw order that is not empty and that [drawOrderFromString] does not
    know makes [toObjectGroup] return null with the error "Invalid draw
    order: <text>". *)
Theorem invalid_draw_order_is_fatal (variantMap : QVariantMap) (c : Converter) :
  isEmpty (QVariant_toString variantMap[["draworder"]]) = false ->
  drawOrderFromString (QVariant_toString variantMap[["draworder"]]) = UnknownOrder ->
  toObjectGroup variantMap c
  = Returns None (mkConverter ("Invalid draw order: "
                               +++ QVariant_toString variantMap[["draworder"]])
                              (mGidMapper c) (mMapDir c)).
Proof.
  intros Hs Ho. unfold toObjectGroup. cbv zeta. rewrite Hs, Ho. reflexivity.
Qed.

(** [toObjectGroup] builds one object for each entry of ["objects"], in
    the order of the list, and leaves the converter as it was. *)
Theorem objects_follow_the_list (variantMap : QVariantMap) (c c' : Converter)
        (g : ObjectGroup) :
  toObjectGroup variantMap c = Returns (Some g) c' ->
  c' = c /\
  og_objects g = map (toMapObject (mGidMapper c)) (QVariant_toList variantMap[["objects"]]).
Proof.
  unfold toObjectGroup. cbv zeta. run_monad.
  destruct (negb (isEmpty _)); [destruct (drawOrderFromString _)|];
    intros H; try discriminate; injection H as <- <-; split; reflexivity.
Qed.

(** A tile width or a tile height that is not positive, or a first global
    id of 0, makes [toTileset] return null with the error "Invalid tileset
    parameters for tileset '<name>'". *)
Theorem invalid_tileset_parameters_are_fatal (variant : QVariant) (c : Converter) :
  QVariant_toInt (QVariant_toMap variant)[["tilewidth"]] <= 0 \/
  QVariant_toInt (QVariant_toMap variant)[["tileheight"]] <= 0 \/
  QVariant_toInt (QVariant_toMap variant)[["firstgid"]] = 0 ->
  toTileset variant c
  = Returns None (mkConverter ("Invalid tileset parameters for tileset '"
                               +++ QVariant_toString (QVariant_toMap variant)[["name"]]
                               +++ "'")
                              (mGidMapper c) (mMapDir c)).
Proof.
  intros H. unfold toTileset. cbv zeta.
  replace (_ || _) with true; [reflexivity|]. symmetry.
  destruct H as [H| [H|H] ].
  - apply Z.leb_le in H. rewrite H. reflexivity.
  - apply Z.leb_le in H. rewrite H. apply orb_true_iff. left. apply orb_true_r.
  - apply Z.eqb_eq in H. rewrite H. apply orb_true_r.
Qed.

(** An orientation [orientationFromString] does not know makes [toMap]
    return null with the error "Unsupported map orientation", the text of
    the orientation between double quotes; the mapper has been cleared and
    the directory of the map stored by then. *)
Theorem unknown_orientation_is_fatal (variant : QVariant) (mapDir : string) (c : Converter) :
  orientationFromString (QVariant_toString (QVariant_toMap variant)[["orientation"]]) = Unknown ->
  toMap variant mapDir c
  = Returns None (mkConverter ("Unsupported map orientation: " +++ dquote
                               +++ QVariant_toString (QVariant_toMap variant)[["orientation"]]
                               +++ dquote)
                              [] mapDir).
Proof.
  intros H. unfold toMap. cbv zeta. unfold bind at 1. rewrite H. reflexivity.
Qed.

(** A layer record whose type is none of ["tilelayer"], ["objectgroup"]
    and ["imagelayer"] makes [toLayer] return null and leave the converter
    as it was, so that no error text is written; [toMap] returns no
    document for a map that lists the record among its layers. *)
Theorem unknown_layer_type_gives_no_layer (layerVariant : QVariant) (c : Converter) :
  QVariant_equals (QVariant_toMap layerVariant)[["type"]] "tilelayer" = false ->
  QVariant_equals (QVariant_toMap layerVariant)[["type"]] "objectgroup" = false ->
  QVariant_equals (QVariant_toMap layerVariant)[["type"]] "imagelayer" = false ->
  toLayer layerVariant c = Returns None c /\
  (forall mapVariant mapDir c0 m c',
      In layerVariant (QVariant_toList (QVariant_toMap mapVariant)[["layers"]]) ->
      toMap mapVariant mapDir c0 <> Returns (Some m) c').
Proof.
  intros H1 H2 H3.
  assert (Hl : forall c1, toLayer layerVariant c1 = Returns None c1).
  { intros c1. unfold toLayer. cbv zeta. rewrite H1, H2, H3. reflexivity. }
  split; [apply Hl|].
  intros mapVariant mapDir c0 m c' Hin H.
  apply toMap_document in H. destruct H as (map0 & map1 & c1 & c2 & _ & H).
  revert H. apply addLayers_null with (layerVariant := layerVariant); [|exact Hin].
  intros c3. exists c3. apply Hl.
Qed.

(** An image layer whose image has a text and does not decode makes
    [toImageLayer] return null with the error "Error loading image", the
    resolved path on the next line between single quotes. *)
Theorem image_layer_decoding_failure_is_fatal (variantMap : QVariantMap) (c : Converter) :
  toString_isNull variantMap[["image"]] = false ->
  loadImage (resolvePath (mMapDir c) (VString (QVariant_toString variantMap[["image"]]))) = None ->
  toImageLayer variantMap c
  = Returns None (mkConverter ("Error loading image:" +++ nl +++ "'"
                               +++ resolvePath (mMapDir c)
                                     (VString (QVariant_toString variantMap[["image"]]))
                               +++ "'")
                              (mGidMapper c) (mMapDir c)).
Proof.
  intros Hn Hl. unfold toImageLayer. cbv zeta. rewrite Hn. cbn [negb].
  unfold bind, getMapDir. rewrite Hl. reflexivity.
Qed.

(** A ["terrain"] list that has not exactly four entries leaves the corner
    terrains of the tile as they were. *)
Theorem terrain_needs_four_entries (tileset : Tileset) (tileVar : QVariantMap)
        (tile tile' : Tile) (c c' : Converter) :
  count (QVariant_toList tileVar[["terrain"]]) <> 4 ->
  readTile tileset tileVar tile c = Returns tile' c' ->
  tile_terrain tile' = tile_terrain tile.
Proof.
  intros Hn. apply Z.eqb_neq in Hn. unfold readTile. cbv zeta. rewrite Hn.
  unfold bind at 1. unfold getMapDir.
  destruct (QVariant_toFloat tileVar[["probability"]]);
    destruct (negb (isNull tileVar[["image"]]));
    unfold bind at 1;
    (destruct (QVariant_toMap tileVar[["objectgroup"]]);
     [ unfold ret at 1
     | unfold bind at 1; destruct (toObjectGroup _ c) as [g c1|]; [unfold ret at 1|discriminate] ]);
    destruct (QVariant_toList tileVar[["animation"]]);
    unfold ret; intros H; injection H as <- _; reflexivity.
Qed.

End Builders.

(* ================================================================== *)
(** ** What the builders keep and what they pass over *)

Lemma same_session_refl (c : Converter) : same_session c c.
Proof. split; reflexivity. Qed.

Lemma same_session_trans (a b d : Converter) :
  same_session a b -> same_session b d -> same_session a d.
Proof. intros [H1 H2] [H3 H4]. split; congruence. Qed.

Lemma same_session_setError (message : string) (c : Converter) :
  same_session c (mkConverter message (mGidMapper c) (mMapDir c)).
Proof. split; reflexivity. Qed.

Section Frames.
Context {E : Environment}.

(** [toObjectGroup] always returns; it writes nothing but the error text,
    and not even that when it returns a group. *)
Lemma toObjectGroup_frame (variantMap : QVariantMap) (c : Converter) :
  exists r c',
    toObjectGroup variantMap c = Returns r c' /\
    same_session c c' /\ (r <> None -> c' = c).
Proof.
  unfold toObjectGroup. cbv zeta. run_monad.
  destruct (negb (isEmpty _)); [destruct (drawOrderFromString _)|];
    eexists; eexists; (split; [reflexivity|]);
    (split; [split; reflexivity|]); intros H; try reflexivity; contradiction H; reflexivity.
Qed.

Lemma toObjectGroup_invalid_order (variantMap : QVariantMap) (c : Converter) :
  isEmpty (QVariant_toString variantMap[["draworder"]]) = false ->
  drawOrderFromString (QVariant_toString variantMap[["draworder"]]) = UnknownOrder ->
  toObjectGroup variantMap c
  = Returns None (mkConverter ("Invalid draw order: "
                               +++ QVariant_toString variantMap[["draworder"]])
                              (mGidMapper c) (mMapDir c)).
Proof.
  intros Hs Ho. unfold toObjectGroup. cbv zeta. rewrite Hs, Ho. reflexivity.
Qed.

Lemma setCell_length (x y : Z) (cell : Cell) (t t' : TileLayer) :
  setCell x y cell t = Value t' -> List.length (tl_grid t') = List.length (tl_grid t).
Proof.
  unfold setCell. destruct (_ && _); [|discriminate].
  intros H. injection H as <-. simpl. apply length_list_set.
Qed.

Lemma readCells_frame (data : QVariantList) :
  forall x y t c r c',
    readCells data x y t c = Returns r c' ->
    same_session c c' /\
    (forall t', r = Some t' ->
                c' = c /\ List.length (tl_grid t') = List.length (tl_grid t)).
Proof.
  induction data as [|v rest IH]; intros x y t c r c' H; simpl in H.
  - run_monad. injection H as <- <-. split; [apply same_session_refl|].
    intros t' Ht. injection Ht as <-. split; reflexivity.
  - destruct (QVariant_toUInt v) as [gid|]; run_monad.
    + destruct (setCell x y _ t) as [t1|] eqn:Hset; [|discriminate].
      apply setCell_length in Hset. run_monad.
      destruct (int_add x 1 >=? tl_width t1); apply IH in H;
        (destruct H as [Hs Hr]; split; [exact Hs|];
         intros t' Ht; destruct (Hr t' Ht) as [Hc Hl]; split; [exact Hc | congruence]).
    + injection H as <- <-. split; [apply same_session_setError|]. intros t' Ht. discriminate Ht.
Qed.

(** A tile layer that is returned has the name, the place and the size
    of its record, one cell for each entry of the data, that is
    [width * height] cells, and the converter is as it was. *)
Theorem tile_layer_has_one_cell_per_entry (variantMap : QVariantMap) (c c' : Converter)
        (t : TileLayer) :
  toTileLayer variantMap c = Returns (Some t) c' ->
  c' = c /\
  count (tl_grid t) = count (QVariant_toList variantMap[["data"]]) /\
  count (tl_grid t)
  = int_mul (QVariant_toInt variantMap[["width"]]) (QVariant_toInt variantMap[["height"]]) /\
  l_name (tl_layer t) = QVariant_toString variantMap[["name"]] /\
  l_x (tl_layer t) = QVariant_toInt variantMap[["x"]] /\
  l_y (tl_layer t) = QVariant_toInt variantMap[["y"]] /\
  l_width (tl_layer t) = QVariant_toInt variantMap[["width"]] /\
  l_height (tl_layer t) = QVariant_toInt variantMap[["height"]] /\
  l_opacity (tl_layer t) = QVariant_toReal variantMap[["opacity"]] /\
  l_visible (tl_layer t) = QVariant_toBool variantMap[["visible"]].
Proof.
  unfold toTileLayer. cbv zeta.
  destruct (count _ =? int_mul _ _) eqn:Hlen; cbn [negb]; [|run_monad; discriminate].
  apply Z.eqb_eq in Hlen. intros H.
  pose proof (readCells_layer _ _ _ _ _ _ _ H) as Hlayer.
  apply readCells_frame in H. destruct H as [_ H].
  destruct (H t eq_refl) as [Hc Hl]. unfold new_TileLayer in Hl. cbn [tl_grid] in Hl.
  assert (Hcount : count (tl_grid t)
                   = int_mul (QVariant_toInt variantMap[["width"]])
                             (QVariant_toInt variantMap[["height"]])).
  { unfold count at 1. rewrite Hl, repeat_length, Z2Nat.id; [reflexivity|].
    rewrite <- Hlen. unfold count. lia. }
  split; [exact Hc|]. split; [congruence|]. split; [exact Hcount|].
  rewrite Hlayer. repeat split.
Qed.

Lemma toTileLayer_frame (variantMap : QVariantMap) (c : Converter) r c' :
  toTileLayer variantMap c = Returns r c' ->
  same_session c c' /\ (r <> None -> c' = c).
Proof.
  unfold toTileLayer. cbv zeta. destruct (negb _).
  - run_monad. intros H. injection H as <- <-. split; [apply same_session_setError|].
    intros H. contradiction H. reflexivity.
  - intros H. apply readCells_frame in H. destruct H as [Hs Hr]. split; [exact Hs|].
    intros Hn. destruct r as [t'|]; [|contradiction Hn; reflexivity].
    apply (Hr t' eq_refl).
Qed.

Lemma toImageLayer_frame (variantMap : QVariantMap) (c : Converter) :
  exists r c',
    toImageLayer variantMap c = Returns r c' /\
    same_session c c' /\ (r <> None -> c' = c).
Proof.
  unfold toImageLayer. cbv zeta. run_monad.
  destruct (negb (toString_isNull _)); [destruct (loadImage _)|];
    eexists; eexists; (split; [reflexivity|]);
    (split; [split; reflexivity|]); intros H; try reflexivity; contradiction H; reflexivity.
Qed.

(** What [toLayer] leaves of the converter, and the properties of the layer. *)
Lemma toLayer_frame (variant : QVariant) (c c' : Converter)
        (r : option Layer) :
  toLayer variant c = Returns r c' ->
  mGidMapper c' = mGidMapper c /\
  mMapDir c' = mMapDir c /\
  (forall layer, r = Some layer ->
                 c' = c /\
                 l_properties (layerData layer)
                 = toProperties (QVariant_toMap variant)[["properties"]]).
Proof.
  unfold toLayer. cbv zeta. unfold bind at 1.
  destruct (QVariant_equals _ "tilelayer").
  { unfold bind at 1.
    destruct (toTileLayer _ c) as [ [t|] c1|] eqn:Ht; [| |discriminate];
      apply toTileLayer_frame in Ht; destruct Ht as [ [Hg Hd] Hc];
      run_monad; simpl; intros H; injection H as <- <-.
    - rewrite (Hc ltac:(discriminate)). split; [reflexivity|]. split; [reflexivity|].
      intros layer Hl. injection Hl as <-. split; reflexivity.
    - split; [exact Hg|]. split; [exact Hd|]. intros layer Hl. discriminate Hl. }
  destruct (QVariant_equals _ "objectgroup").
  { unfold bind at 1.
    destruct (toObjectGroup_frame (QVariant_toMap variant) c) as (r1 & c1 & Hrun & [Hg Hd] & Hc).
    rewrite Hrun. destruct r1 as [g|]; run_monad; simpl; intros H; injection H as <- <-.
    - rewrite (Hc ltac:(discriminate)). split; [reflexivity|]. split; [reflexivity|].
      intros layer Hl. injection Hl as <-. split; reflexivity.
    - split; [exact Hg|]. split; [exact Hd|]. intros layer Hl. discriminate Hl. }
  destruct (QVariant_equals _ "imagelayer").
  { unfold bind at 1.
    destruct (toImageLayer_frame (QVariant_toMap variant) c) as (r1 & c1 & Hrun & [Hg Hd] & Hc).
    rewrite Hrun. destruct r1 as [g|]; run_monad; simpl; intros H; injection H as <- <-.
    - rewrite (Hc ltac:(discriminate)). split; [reflexivity|]. split; [reflexivity|].
      intros layer Hl. injection Hl as <-. split; reflexivity.
    - split; [exact Hg|]. split; [exact Hd|]. intros layer Hl. discriminate Hl. }
  run_monad. intros H. injection H as <- <-. split; [reflexivity|]. split; [reflexivity|].
  intros layer Hl. discriminate Hl.
Qed.

(** [toLayer] never touches the mapper or the directory of the map,
    and a layer that is returned leaves the whole converter as it was: the
    error text is written only when no layer is built.  The layer carries
    the properties of its record. *)
Theorem layer_builders_only_write_errors (variant : QVariant) (c c' : Converter)
        (r : option Layer) :
  toLayer variant c = Returns r c' ->
  mGidMapper c' = mGidMapper c /\
  mMapDir c' = mMapDir c /\
  (forall layer, r = Some layer ->
                 c' = c /\
                 l_properties (layerData layer)
                 = toProperties (QVariant_toMap variant)[["properties"]]).
Proof. apply toLayer_frame. Qed.

End Frames.

Section MoreLayers.
Context {E : Environment}.

(** One turn of the loop over the data, on a numeric entry whose cell the
    grid holds: the cell is stored at index [k] and the loop goes on at
    the position of index [k + 1]. *)
Lemma readCells_step (v : QVariant) (rest : QVariantList) (gid : Z) (k : nat)
      (t : TileLayer) (c : Converter) :
  QVariant_toUInt v = Some gid ->
  0 < tl_width t <= INT_MAX ->
  tl_height t <= INT_MAX ->
  Z.of_nat k < tl_width t * tl_height t ->
  Z.of_nat k < count (tl_grid t) ->
  readCells (v :: rest) (Z.of_nat k mod tl_width t) (Z.of_nat k / tl_width t) t c
  = readCells rest (Z.of_nat (S k) mod tl_width t) (Z.of_nat (S k) / tl_width t)
              (mkTileLayer (tl_layer t)
                           (list_set (tl_grid t) k (fst (gidToCell (mGidMapper c) gid))))
              c.
Proof.
  intros Hgid Hw Hh Hfit Hgrid.
  set (w := tl_width t) in *. set (h := tl_height t) in *.
  assert (Hk : 0 <= Z.of_nat k) by lia.
  pose proof (Z.mod_pos_bound (Z.of_nat k) w ltac:(lia)) as Hx.
  pose proof (Z.div_mod (Z.of_nat k) w ltac:(lia)) as Hd.
  assert (Hy0 : 0 <= Z.of_nat k / w) by (apply Z.div_pos; lia).
  assert (Hy : Z.of_nat k / w < h) by (apply Z.div_lt_upper_bound; lia).
  assert (Hidx : Z.of_nat k mod w + Z.of_nat k / w * w = Z.of_nat k) by lia.
  set (cell := fst (gidToCell (mGidMapper c) gid)).
  assert (Hset : setCell (Z.of_nat k mod w) (Z.of_nat k / w) cell t
                 = Value (mkTileLayer (tl_layer t) (list_set (tl_grid t) k cell))).
  { unfold setCell, tl_contains. fold w. fold h. rewrite Hidx.
    replace (0 <=? Z.of_nat k mod w) with true by (symmetry; apply Z.leb_le; lia).
    replace (Z.of_nat k mod w <? w) with true by (symmetry; apply Z.ltb_lt; lia).
    replace (0 <=? Z.of_nat k / w) with true by (symmetry; apply Z.leb_le; lia).
    replace (Z.of_nat k / w <? h) with true by (symmetry; apply Z.ltb_lt; lia).
    replace (Z.of_nat k <? count (tl_grid t)) with true by (symmetry; apply Z.ltb_lt; lia).
    simpl. rewrite Nat2Z.id. reflexivity. }
  cbn [readCells]. rewrite Hgid. unfold bind, getGidMapper. fold cell. rewrite Hset.
  unfold access, ret. change (tl_width {| tl_layer := tl_layer t; tl_grid := _ |}) with w.
  rewrite Nat2Z.inj_succ. unfold Z.succ. unfold int_add. unfold INT_MAX in Hw, Hh.
  rewrite !to_int_small by (unfold INT_MIN, INT_MAX; lia).
  destruct (Z.of_nat k mod w + 1 >=? w) eqn:Hge.
  - apply Z.geb_le in Hge.
    destruct (next_row w (Z.of_nat k) ltac:(lia) Hk Hge) as [-> ->]. reflexivity.
  - rewrite Z.geb_leb in Hge. apply Z.leb_gt in Hge.
    destruct (next_column w (Z.of_nat k) ltac:(lia) Hk Hge) as [-> ->]. reflexivity.
Qed.

(** The loop over a numeric prefix of the data that fits in the grid comes
    to the rest of the data at the position after the prefix, with the
    same layer members and a grid of the same length. *)
Lemma readCells_prefix (pre : QVariantList) :
  forall (rest : QVariantList) (k : nat) (t : TileLayer) (c : Converter),
    Forall (fun v => QVariant_toUInt v <> None) pre ->
    0 < tl_width t <= INT_MAX ->
    tl_height t <= INT_MAX ->
    Z.of_nat k + count pre <= tl_width t * tl_height t ->
    Z.of_nat k + count pre <= count (tl_grid t) ->
    exists t',
      tl_layer t' = tl_layer t /\
      List.length (tl_grid t') = List.length (tl_grid t) /\
      readCells (pre ++ rest)%list (Z.of_nat k mod tl_width t) (Z.of_nat k / tl_width t) t c
      = readCells rest (Z.of_nat (k + List.length pre) mod tl_width t)
                  (Z.of_nat (k + List.length pre) / tl_width t) t' c.
Proof.
  induction pre as [|v pre IH]; intros rest k t c Hnum Hw Hh Hfit Hgrid.
  - exists t. rewrite Nat.add_0_r. repeat split.
  - inversion Hnum as [|v0 r0 Hv Hpre]; subst v0 r0.
    destruct (QVariant_toUInt v) as [gid|] eqn:Hgid; [|contradiction].
    unfold count in Hfit, Hgrid. simpl List.length in Hfit, Hgrid.
    simpl app.
    rewrite (readCells_step v (pre ++ rest)%list gid k t c Hgid Hw Hh)
      by (unfold count; lia).
    set (t1 := mkTileLayer (tl_layer t)
                           (list_set (tl_grid t) k (fst (gidToCell (mGidMapper c) gid)))).
    destruct (IH rest (S k) t1 c Hpre Hw Hh) as (t' & Hl & Hn & Hrun).
    { change (tl_width t1) with (tl_width t). change (tl_height t1) with (tl_height t).
      unfold count. clear - Hfit. lia. }
    { unfold count. subst t1. cbn [tl_grid]. rewrite length_list_set. clear - Hgrid. lia. }
    exists t'. split; [exact Hl|]. split.
    + rewrite Hn. subst t1. cbn [tl_grid]. apply length_list_set.
    + change (tl_width t1) with (tl_width t) in Hrun. rewrite Hrun.
      replace (S k + List.length pre)%nat with (k + List.length (v :: pre))%nat
        by (simpl; lia).
      reflexivity.
Qed.

(** In a tile layer of a width and a height that are not negative and
    of [width * height] data entries, the first entry that is not numeric
    makes [toTileLayer] return null with the error "Unable to parse tile
    at (x,y) on layer '<name>'", [x] and [y] being the column and the row
    of the entry in row-major order. *)
Theorem unparseable_tile_reports_position
        (variantMap : QVariantMap) (c : Converter)
        (before after : QVariantList) (entry : QVariant) :
  QVariant_toList variantMap[["data"]] = (before ++ entry :: after)%list ->
  Forall (fun v => QVariant_toUInt v <> None) before ->
  QVariant_toUInt entry = None ->
  count (QVariant_toList variantMap[["data"]])
  = int_mul (QVariant_toInt variantMap[["width"]]) (QVariant_toInt variantMap[["height"]]) ->
  0 <= QVariant_toInt variantMap[["width"]] ->
  0 <= QVariant_toInt variantMap[["height"]] ->
  toTileLayer variantMap c
  = Returns None
            (mkConverter
               ("Unable to parse tile at ("
                +++ QString_number (count before mod QVariant_toInt variantMap[["width"]])
                +++ ","
                +++ QString_number (count before / QVariant_toInt variantMap[["width"]])
                +++ ") on layer '" +++ QVariant_toString variantMap[["name"]] +++ "'")
               (mGidMapper c) (mMapDir c)).
Proof.
  set (w := QVariant_toInt variantMap[["width"]]).
  set (h := QVariant_toInt variantMap[["height"]]).
  intros Hdata Hnum Hbad Hlen Hw Hh.
  pose proof (QVariant_toInt_range variantMap[["width"]]) as Rw. fold w in Rw.
  pose proof (QVariant_toInt_range variantMap[["height"]]) as Rh. fold h in Rh.
  unfold toTileLayer. cbv zeta. fold w h. rewrite Hlen, Z.eqb_refl. cbn [negb].
  rewrite Hdata in *.
  assert (Hcount : count (before ++ entry :: after)%list = count before + 1 + count after).
  { unfold count. rewrite length_app. simpl. lia. }
  assert (Hpos : 0 < w).
  { destruct (Z.eq_dec w 0) as [Hz|Hz]; [|lia].
    exfalso. rewrite Hz in Hlen. unfold int_mul in Hlen. simpl in Hlen.
    rewrite Hcount in Hlen. unfold count in Hlen. change (to_int 0) with 0 in Hlen. lia. }
  assert (Hprod : int_mul w h <= w * h).
  { unfold int_mul. apply to_int_below. nia. }
  match goal with
  | |- readCells _ 0 0 ?t0 c = _ => set (T0 := t0)
  end.
  assert (HwT : tl_width T0 = w) by reflexivity.
  assert (HhT : tl_height T0 = h) by reflexivity.
  assert (HgT : count (tl_grid T0) = int_mul w h).
  { unfold T0, new_TileLayer. cbn [tl_grid]. unfold count at 1. rewrite repeat_length.
    apply Z2Nat.id. rewrite <- Hlen. unfold count. lia. }
  destruct (readCells_prefix before (entry :: after) 0 T0 c Hnum) as (t' & Hl & _ & Hrun).
  - rewrite HwT. lia.
  - rewrite HhT. lia.
  - rewrite HwT, HhT. unfold count in *. lia.
  - rewrite HgT. unfold count in *. lia.
  - rewrite HwT in Hrun. rewrite Z.mod_0_l, Z.div_0_l in Hrun by lia. rewrite Hrun.
    cbn [readCells]. rewrite Hbad. run_monad. rewrite Hl. reflexivity.
Qed.

(** The object the body of the loop of [toObjectGroup] builds, member by
    member. *)
Lemma toMapObject_members (gidMapper : GidMapper) (objectVariant : QVariant) :
  let m := QVariant_toMap objectVariant in
  let width := QVariant_toReal m[["width"]] in
  let height := QVariant_toReal m[["height"]] in
  let stamp := if QVariant_toInt m[["gid"]] =? 0 then None
               else resolve gidMapper (to_unsigned (QVariant_toInt m[["gid"]])) in
  toMapObject gidMapper objectVariant
  = mkMapObject
      (QVariant_toString m[["name"]])
      (QVariant_toString m[["type"]])
      (mkQPointF (QVariant_toReal m[["x"]]) (QVariant_toReal m[["y"]]))
      (match stamp with
       | Some (_, tile) =>
           mkQSizeF (if qreal_is_zero width then qreal_of_Z (sz_width (tile_size tile))
                     else width)
                    (if qreal_is_zero height then qreal_of_Z (sz_height (tile_size tile))
                     else height)
       | None => mkQSizeF width height
       end)
      (QString_toInt (QVariant_toString m[["id"]]))
      (QVariant_toReal m[["rotation"]])
      (match stamp with
       | Some (pointer, _) => Some pointer
       | None => None
       end)
      (if contains m "visible" then QVariant_toBool m[["visible"]] else true)
      (toProperties m[["properties"]])
      (if contains m "ellipse" then Ellipse
       else if isValid m[["polyline"]] then Polyline
       else if isValid m[["polygon"]] then Polygon
       else Rectangle)
      (if isValid m[["polyline"]] then toPolygon m[["polyline"]]
       else if isValid m[["polygon"]] then toPolygon m[["polygon"]]
       else [])
      (Some (toRTBMapObject m (new_RTBMapObject (rtbObjectTypeOf (QVariant_toString m[["type"]]))))).
Proof.
  cbv zeta. unfold toMapObject. cbv zeta.
  destruct (QVariant_toInt (QVariant_toMap objectVariant)[["gid"]] =? 0); cbn [negb];
    [ | destruct (resolve gidMapper _) as [ [pointer tile] | ];
        [ destruct (qreal_is_zero (QVariant_toReal (QVariant_toMap objectVariant)[["width"]]));
          destruct (qreal_is_zero (QVariant_toReal (QVariant_toMap objectVariant)[["height"]])) | ] ];
    destruct (contains (QVariant_toMap objectVariant) "visible");
    destruct (isValid (QVariant_toMap objectVariant)[["polygon"]]);
    destruct (isValid (QVariant_toMap objectVariant)[["polyline"]]);
    destruct (contains (QVariant_toMap objectVariant) "ellipse");
    reflexivity.
Qed.

(** The shape of an object: an ellipse when the record has the key
    ["ellipse"], whatever its value; otherwise a polyline when it has a
    polyline, a polygon when it has a polygon, and a rectangle when it has
    neither.  The points are those of the polyline when there is one, of
    the polygon otherwise, the ["ellipse"] key changing nothing to them. *)
Theorem shape_precedence (gidMapper : GidMapper) (objectVariant : QVariant) :
  mo_shape (toMapObject gidMapper objectVariant)
  = (if contains (QVariant_toMap objectVariant) "ellipse" then Ellipse
     else if isValid (QVariant_toMap objectVariant)[["polyline"]] then Polyline
     else if isValid (QVariant_toMap objectVariant)[["polygon"]] then Polygon
     else Rectangle) /\
  mo_polygon (toMapObject gidMapper objectVariant)
  = (if isValid (QVariant_toMap objectVariant)[["polyline"]]
     then toPolygon (QVariant_toMap objectVariant)[["polyline"]]
     else if isValid (QVariant_toMap objectVariant)[["polygon"]]
     then toPolygon (QVariant_toMap objectVariant)[["polygon"]]
     else []).
Proof.
  pose proof (toMapObject_members gidMapper objectVariant) as H. cbv zeta in H.
  rewrite H. split; reflexivity.
Qed.

(** A global id of 0, or one the mapper does not resolve, is no
    error: the object has no tile and the size of its record; the name,
    the type, the id, the position, the rotation and the properties are
    those of the record in every case. *)
Theorem object_fields_follow_the_record (gidMapper : GidMapper) (objectVariant : QVariant) :
  let m := QVariant_toMap objectVariant in
  let object := toMapObject gidMapper objectVariant in
  mo_name object = QVariant_toString m[["name"]] /\
  mo_type object = QVariant_toString m[["type"]] /\
  mo_id object = QString_toInt (QVariant_toString m[["id"]]) /\
  mo_position object = mkQPointF (QVariant_toReal m[["x"]]) (QVariant_toReal m[["y"]]) /\
  mo_rotation object = QVariant_toReal m[["rotation"]] /\
  mo_properties object = toProperties m[["properties"]] /\
  (QVariant_toInt m[["gid"]] = 0 \/
   resolve gidMapper (to_unsigned (QVariant_toInt m[["gid"]])) = None ->
   mo_cell object = None /\
   mo_size object = mkQSizeF (QVariant_toReal m[["width"]]) (QVariant_toReal m[["height"]])).
Proof.
  pose proof (toMapObject_members gidMapper objectVariant) as H. cbv zeta in H.
  cbv zeta. rewrite H. cbn [mo_name mo_type mo_id mo_position mo_rotation mo_properties
                            mo_cell mo_size].
  do 6 (split; [reflexivity|]).
  intros [Hz|Hn].
  - rewrite Hz. split; reflexivity.
  - rewrite Hn. destruct (_ =? 0); split; reflexivity.
Qed.

(** Every object gets an extension record, of the category its type
    tag stands for: [toRTBMapObject] fills the record [createRTBMapObject]
    has made and never changes its category. *)
Theorem extension_record_matches_the_type (gidMapper : GidMapper) (objectVariant : QVariant) :
  (forall variantMap o, objectType (toRTBMapObject variantMap o) = objectType o) /\
  exists record,
    mo_rtbMapObject (toMapObject gidMapper objectVariant) = Some record /\
    objectType record
    = rtbObjectTypeOf (QVariant_toString (QVariant_toMap objectVariant)[["type"]]).
Proof.
  assert (Hkeep : forall variantMap o, objectType (toRTBMapObject variantMap o) = objectType o).
  { intros variantMap o. unfold toRTBMapObject. cbv zeta.
    destruct o; cbn [objectType]; try reflexivity.
    destruct (negb _); reflexivity. }
  split; [exact Hkeep|].
  pose proof (toMapObject_members gidMapper objectVariant) as H. cbv zeta in H.
  rewrite H. cbn [mo_rtbMapObject]. eexists. split; [reflexivity|].
  rewrite Hkeep. destruct (rtbObjectTypeOf _); reflexivity.
Qed.

End MoreLayers.

Section Tiles.
Context {E : Environment}.

(** The loop over the corners writes nothing but the corner terrains. *)
Lemma readCorners_keeps (tileset : Tileset) (l : QVariantList) :
  forall (i : Z) (tile : Tile),
    tile_id (readCorners tileset i l tile) = tile_id tile /\
    tile_properties (readCorners tileset i l tile) = tile_properties tile /\
    tile_size (readCorners tileset i l tile) = tile_size tile /\
    tile_imageSource (readCorners tileset i l tile) = tile_imageSource tile /\
    tile_objectGroup (readCorners tileset i l tile) = tile_objectGroup tile /\
    tile_frames (readCorners tileset i l tile) = tile_frames tile.
Proof.
  induction l as [|v r IH]; intros i tile; simpl; [repeat split|].
  match goal with
  | |- context [readCorners tileset (i + 1) r ?x] =>
      destruct (IH (i + 1) x) as (H1 & H2 & H3 & H4 & H5 & H6);
      assert (Hx : tile_id x = tile_id tile /\
                   tile_properties x = tile_properties tile /\
                   tile_size x = tile_size tile /\
                   tile_imageSource x = tile_imageSource tile /\
                   tile_objectGroup x = tile_objectGroup tile /\
                   tile_frames x = tile_frames tile)
  end.
  { destruct (QVariant_toLongLong v) as [z|]; [destruct (_ && _)|]; repeat split. }
  destruct Hx as (K1 & K2 & K3 & K4 & K5 & K6).
  repeat split; congruence.
Qed.

(** What [readTile] does, member by member.  It always returns. *)
Lemma readTile_result (tileset : Tileset) (tileVar : QVariantMap) (tile : Tile) (c : Converter) :
  exists tile' c',
    readTile tileset tileVar tile c = Returns tile' c' /\
    same_session c c' /\
    tile_id tile' = tile_id tile /\
    tile_properties tile' = tile_properties tile /\
    tile_terrain tile'
    = (if count (QVariant_toList tileVar[["terrain"]]) =? 4
       then tile_terrain (readCorners tileset 0 (QVariant_toList tileVar[["terrain"]]) tile)
       else tile_terrain tile) /\
    (tile_size tile', tile_imageSource tile')
    = (if isNull tileVar[["image"]] then (tile_size tile, tile_imageSource tile)
       else (pixmapSize (resolvePath (mMapDir c) tileVar[["image"]]),
             resolvePath (mMapDir c) tileVar[["image"]])) /\
    match QVariant_toMap tileVar[["objectgroup"]] with
    | [] => tile_objectGroup tile' = tile_objectGroup tile /\ c' = c
    | _ => toObjectGroup (QVariant_toMap tileVar[["objectgroup"]]) c
           = Returns (tile_objectGroup tile') c'
    end /\
    tile_frames tile'
    = match QVariant_toList tileVar[["animation"]] with
      | [] => tile_frames tile
      | frameList =>
          map (fun f => mkFrame (QVariant_toInt (QVariant_toMap f)[["tileid"]])
                                (QVariant_toInt (QVariant_toMap f)[["duration"]]))
              frameList
      end.
Proof.
  unfold readTile. cbv zeta. unfold bind at 1. unfold getMapDir.
  pose proof (fun l => readCorners_keeps tileset l 0 tile) as Hcorners.
  destruct (toObjectGroup_frame (QVariant_toMap tileVar[["objectgroup"]]) c)
    as (g & cg & Hg & Hsession & _).
  destruct (count (QVariant_toList tileVar[["terrain"]]) =? 4);
    [destruct (Hcorners (QVariant_toList tileVar[["terrain"]])) as (H1 & H2 & H3 & H4 & H5 & H6)|];
    destruct (QVariant_toFloat tileVar[["probability"]]);
    destruct (isNull tileVar[["image"]]); cbn [negb];
    unfold bind at 1;
    (destruct (QVariant_toMap tileVar[["objectgroup"]]) as [|og ogs] eqn:Hog;
     [ unfold ret at 1 | unfold bind at 1; rewrite Hg; unfold ret at 1 ]);
    destruct (QVariant_toList tileVar[["animation"]]);
    unfold ret; eexists; eexists; (split; [reflexivity|]); cbn;
    repeat match goal with
           | |- _ /\ _ => split
           end;
    try reflexivity; try assumption; try apply same_session_refl; try congruence.
Qed.

(** A ["terrain"] list of exactly four entries is read corner by
    corner: a corner gets the terrain id of its entry when the entry
    converts to an integer that is one of the tileset's terrains, and keeps
    the terrain it had otherwise, the other corners being read all the
    same. *)
Theorem terrain_corners_are_read_one_by_one
        (tileset : Tileset) (tileVar : QVariantMap) (tile tile' : Tile) (c c' : Converter)
        (e0 e1 e2 e3 : QVariant) (t0 t1 t2 t3 : Z) :
  QVariant_toList tileVar[["terrain"]] = [e0; e1; e2; e3] ->
  tile_terrain tile = [t0; t1; t2; t3] ->
  readTile tileset tileVar tile c = Returns tile' c' ->
  tile_terrain tile'
  = [cornerTerrain tileset e0 t0; cornerTerrain tileset e1 t1;
     cornerTerrain tileset e2 t2; cornerTerrain tileset e3 t3].
Proof.
  intros Hl Ht Hrun.
  destruct (readTile_result tileset tileVar tile c) as (x & cx & Hx & _ & _ & _ & Hterrain & _).
  rewrite Hrun in Hx. injection Hx as <- <-.
  rewrite Hterrain, Hl. change (count [e0; e1; e2; e3] =? 4) with true. cbv iota.
  unfold cornerTerrain. simpl readCorners.
  destruct (QVariant_toLongLong e0) as [z0|];
    [destruct ((to_int z0 >=? 0) && (to_int z0 <? terrainCount tileset))|];
    (destruct (QVariant_toLongLong e1) as [z1|];
     [destruct ((to_int z1 >=? 0) && (to_int z1 <? terrainCount tileset))|]);
    (destruct (QVariant_toLongLong e2) as [z2|];
     [destruct ((to_int z2 >=? 0) && (to_int z2 <? terrainCount tileset))|]);
    (destruct (QVariant_toLongLong e3) as [z3|];
     [destruct ((to_int z3 >=? 0) && (to_int z3 <? terrainCount tileset))|]);
    cbn; rewrite Ht; reflexivity.
Qed.

(** The image of a tile is not checked: whatever its path decodes to,
    the tile is returned with the path, resolved against the directory of
    the map, as its image source and with the size of the pixmap, which is
    0 x 0 when the image does not decode; no error is written for it. *)
Theorem tile_image_is_not_checked
        (tileset : Tileset) (tileVar : QVariantMap) (tile : Tile) (c : Converter) :
  isNull tileVar[["image"]] = false ->
  exists tile' c',
    readTile tileset tileVar tile c = Returns tile' c' /\
    tile_imageSource tile' = resolvePath (mMapDir c) tileVar[["image"]] /\
    tile_size tile' = pixmapSize (resolvePath (mMapDir c) tileVar[["image"]]) /\
    (loadImage (resolvePath (mMapDir c) tileVar[["image"]]) = None ->
     tile_size tile' = mkQSize 0 0) /\
    (QVariant_toMap tileVar[["objectgroup"]] = [] -> c' = c).
Proof.
  intros Hnull.
  destruct (readTile_result tileset tileVar tile c)
    as (tile' & c' & Hrun & _ & _ & _ & _ & Himage & Hgroup & _).
  rewrite Hnull in Himage. injection Himage as Hsize Hsource.
  exists tile', c'. split; [exact Hrun|]. split; [exact Hsource|]. split; [exact Hsize|].
  split.
  - intros Hload. rewrite Hsize. unfold pixmapSize. rewrite Hload. reflexivity.
  - intros Hog. rewrite Hog in Hgroup. apply Hgroup.
Qed.

(** The object group of a tile is not checked either: when its draw
    order is not one [drawOrderFromString] knows, [toObjectGroup] writes
    "Invalid draw order" and returns null, and [readTile] goes on with a
    tile that has no object group. *)
Theorem tile_object_group_failure_is_kept_going
        (tileset : Tileset) (tileVar : QVariantMap) (tile : Tile) (c : Converter) :
  QVariant_toMap tileVar[["objectgroup"]] <> [] ->
  isEmpty (QVariant_toString (QVariant_toMap tileVar[["objectgroup"]])[["draworder"]]) = false ->
  drawOrderFromString (QVariant_toString (QVariant_toMap tileVar[["objectgroup"]])[["draworder"]])
  = UnknownOrder ->
  exists tile',
    readTile tileset tileVar tile c
    = Returns tile'
              (mkConverter ("Invalid draw order: "
                            +++ QVariant_toString
                                  (QVariant_toMap tileVar[["objectgroup"]])[["draworder"]])
                           (mGidMapper c) (mMapDir c)) /\
    tile_objectGroup tile' = None.
Proof.
  intros Hog Hs Ho.
  destruct (readTile_result tileset tileVar tile c)
    as (tile' & c' & Hrun & _ & _ & _ & _ & _ & Hgroup & _).
  destruct (QVariant_toMap tileVar[["objectgroup"]]) as [|og ogs] eqn:Hm;
    [contradiction Hog; reflexivity|].
  rewrite (toObjectGroup_invalid_order _ c Hs Ho) in Hgroup.
  injection Hgroup as Hnone Hc.
  exists tile'. rewrite <- Hc in Hrun. split; [exact Hrun | symmetry; exact Hnone].
Qed.

(** Entries of ["tileproperties"] whose index is negative or at or
    beyond the tile count change nothing: the tileset is as it was. *)
Theorem tile_properties_outside_are_ignored (propertiesVariantMap : QVariantMap) (t : Tileset) :
  Forall (fun it => QString_toInt (fst it) < 0 \/ tileCount t <= QString_toInt (fst it))
         propertiesVariantMap ->
  readTileProperties propertiesVariantMap t = t.
Proof.
  unfold readTileProperties.
  induction propertiesVariantMap as [|it rest IH]; intros H; simpl; [reflexivity|].
  inversion H as [|x r Hit Hrest]; subst x r.
  replace ((QString_toInt (fst it) >=? 0) && (QString_toInt (fst it) <? tileCount t)) with false.
  - apply IH, Hrest.
  - symmetry. apply andb_false_iff. destruct Hit as [Hneg|Hhigh].
    + left. rewrite Z.geb_leb. apply Z.leb_gt. exact Hneg.
    + right. apply Z.ltb_ge. exact Hhigh.
Qed.

Lemma properties_set_fresh (k v : string) (p : Properties) :
  ~ In k (map fst p) -> properties_set k v p = (p ++ [(k, v)])%list.
Proof.
  induction p as [| [k' v'] r IH]; intros H; simpl; [reflexivity|].
  destruct (String.eqb k k') eqn:He.
  - apply String.eqb_eq in He. exfalso. apply H. left. symmetry. exact He.
  - rewrite IH; [reflexivity|]. intros Hin. apply H. right. exact Hin.
Qed.

(** A map whose keys are all different converts to the property bag
    of its entries in their order, each value as its text; a value that is
    no map converts to the empty bag. *)
Theorem toProperties_keeps_the_entries (variant : QVariant) :
  NoDup (map fst (QVariant_toMap variant)) ->
  toProperties variant
  = map (fun it => (fst it, QVariant_toString (snd it))) (QVariant_toMap variant).
Proof.
  unfold toProperties. cbv zeta.
  assert (H : forall m acc,
             NoDup (map fst acc ++ map fst m)%list ->
             fold_left (fun properties it =>
                          properties_set (fst it) (QVariant_toString (snd it)) properties) m acc
             = (acc ++ map (fun it => (fst it, QVariant_toString (snd it))) m)%list).
  { induction m as [|it rest IH]; intros acc Hnd; simpl.
    - now rewrite app_nil_r.
    - rewrite properties_set_fresh.
      + rewrite IH.
        * rewrite <- app_assoc. reflexivity.
        * rewrite map_app. simpl. rewrite <- app_assoc. exact Hnd.
      + simpl in Hnd. apply NoDup_remove_2 in Hnd. intros Hin. apply Hnd.
        apply in_or_app. left. exact Hin. }
  intros Hnd. apply (H _ []). exact Hnd.
Qed.

End Tiles.

Lemma only_tiles_refl (a : Tileset) : only_tiles a a.
Proof. destruct a; reflexivity. Qed.

Lemma only_tiles_trans (a b d : Tileset) : only_tiles a b -> only_tiles b d -> only_tiles a d.
Proof. unfold only_tiles. intros H1 H2. rewrite H1. rewrite H2 at 1. reflexivity. Qed.

Lemma only_tiles_with (tiles : list Tile) (t : Tileset) : only_tiles (ts_with_tiles tiles t) t.
Proof. reflexivity. Qed.

Lemma only_tiles_addTiles (n : nat) : forall t, only_tiles (addTiles n t) t.
Proof.
  induction n as [|n IH]; intros t; simpl; [apply only_tiles_refl|].
  apply (only_tiles_trans _ _ _ (IH _)). apply only_tiles_with.
Qed.

Section Registration.
Context {E : Environment}.

Lemma extendTileset_frame (entries tileIndex : Z) (t : Tileset) (c : Converter) r c' :
  extendTileset entries tileIndex t c = Returns r c' ->
  same_session c c' /\
  (forall t', r = Some t' -> c' = c /\ only_tiles t' t /\
                             (tileIndex < tileCount t' <-> tileIndex < Z.max (tileCount t) entries)).
Proof.
  unfold extendTileset.
  destruct (tileIndex >=? tileCount t) eqn:Hge;
    [destruct (tileIndex >=? entries) eqn:Hhigh|]; run_monad;
    intros H; injection H as <- <-.
  - split; [apply same_session_setError|]. intros t' Ht. discriminate Ht.
  - split; [apply same_session_refl|]. intros t' Ht. injection Ht as <-.
    apply Z.geb_le in Hge. rewrite Z.geb_leb in Hhigh. apply Z.leb_gt in Hhigh.
    split; [reflexivity|]. split; [apply only_tiles_addTiles|].
    rewrite (tileCount_growTo _ _ Hge). lia.
  - split; [apply same_session_refl|]. intros t' Ht. injection Ht as <-.
    rewrite Z.geb_leb in Hge. apply Z.leb_gt in Hge.
    split; [reflexivity|]. split; [apply only_tiles_refl|]. lia.
Qed.

Lemma tileAt_inside (t : Tileset) (id : Z) :
  0 <= id < tileCount t ->
  exists tile, tileAt t id = Value (Some tile).
Proof.
  intros [H0 H1]. unfold tileAt.
  replace (id <? tileCount t) with true by (symmetry; apply Z.ltb_lt; exact H1).
  replace (id <? 0) with false by (symmetry; apply Z.ltb_ge; exact H0).
  destruct (nth_error (ts_tiles t) (Z.to_nat id)) as [tile|] eqn:Hn; [exists tile; reflexivity|].
  apply nth_error_None in Hn. unfold tileCount, count in H1. lia.
Qed.

Lemma overrideTile_frame (tileIndex : Z) (value : QVariant) (t t' : Tileset) (c c' : Converter) :
  overrideTile tileIndex value t c = Returns t' c' ->
  same_session c c' /\ only_tiles t' t.
Proof.
  unfold overrideTile. unfold bind at 1.
  destruct (tileAt t tileIndex) as [ [tile|] |]; simpl; try discriminate.
  - unfold bind.
    destruct (readTile_result t (QVariant_toMap value) tile c) as (x & cx & Hx & Hs & _).
    rewrite Hx. unfold ret. intros H. injection H as <- <-.
    split; [exact Hs | apply only_tiles_with].
  - unfold ret. intros H. injection H as <- <-.
    split; [apply same_session_refl | apply only_tiles_refl].
Qed.

Lemma overrideTile_inside (tileIndex : Z) (value : QVariant) (t : Tileset) (c : Converter) :
  0 <= tileIndex < tileCount t ->
  exists t' c', overrideTile tileIndex value t c = Returns t' c'.
Proof.
  intros Hin. destruct (tileAt_inside t tileIndex Hin) as [tile Ht].
  unfold overrideTile. unfold bind at 1. rewrite Ht. simpl. unfold bind.
  destruct (readTile_result t (QVariant_toMap value) tile c) as (x & cx & Hx & _).
  rewrite Hx. eexists. eexists. reflexivity.
Qed.

Lemma readTilesEntry_frame (entries : Z) (it : string * QVariant) (t : Tileset)
      (c : Converter) r c' :
  readTilesEntry entries it t c = Returns r c' ->
  same_session c c' /\ (forall t', r = Some t' -> only_tiles t' t).
Proof.
  unfold readTilesEntry. cbv zeta.
  assert (Hrest : forall c1,
             same_session c c1 ->
             (tileset <-? extendTileset entries (QString_toInt (fst it)) t ;;
              tileset <- overrideTile (QString_toInt (fst it)) (snd it) tileset ;;
              ret (Some tileset)) c1 = Returns r c' ->
             same_session c c' /\ (forall t', r = Some t' -> only_tiles t' t)).
  { intros c1 Hc1. unfold bind at 1.
    destruct (extendTileset _ _ t c1) as [ [t1|] c2|] eqn:H1; try discriminate;
      apply extendTileset_frame in H1; destruct H1 as [Hs1 Ht1].
    - unfold bind.
      destruct (overrideTile _ _ t1 c2) as [t2 c3|] eqn:H2; [|discriminate].
      apply overrideTile_frame in H2. destruct H2 as [Hs2 Ht2].
      unfold ret. intros H. injection H as <- <-.
      split; [exact (same_session_trans _ _ _ Hc1 (same_session_trans _ _ _ Hs1 Hs2))|].
      intros t' Ht. injection Ht as <-.
      apply (only_tiles_trans _ _ _ Ht2). apply (Ht1 t1 eq_refl).
    - unfold ret. intros H. injection H as <- <-.
      split; [exact (same_session_trans _ _ _ Hc1 Hs1)|]. intros t' Ht. discriminate Ht. }
  unfold bind at 1. destruct (QString_toInt (fst it) <? 0).
  - unfold setError. apply Hrest. apply same_session_setError.
  - unfold ret at 1. apply Hrest. apply same_session_refl.
Qed.

Lemma readTiles_frame (entries : Z) (tiles : QVariantMap) :
  forall t c r c',
    readTiles entries tiles t c = Returns r c' ->
    same_session c c' /\ (forall t', r = Some t' -> only_tiles t' t).
Proof.
  induction tiles as [|it rest IH]; intros t c r c' H; simpl in H.
  - unfold ret in H. injection H as <- <-. split; [apply same_session_refl|].
    intros t' Ht. injection Ht as <-. apply only_tiles_refl.
  - unfold bind in H.
    destruct (readTilesEntry entries it t c) as [ [t1|] c1|] eqn:H1; try discriminate H;
      apply readTilesEntry_frame in H1; destruct H1 as [Hs1 Ht1].
    + apply IH in H. destruct H as [Hs Ht].
      split; [exact (same_session_trans _ _ _ Hs1 Hs)|].
      intros t' Hr. apply (only_tiles_trans _ _ _ (Ht t' Hr)). apply (Ht1 t1 eq_refl).
    + unfold ret in H. injection H as <- <-. split; [exact Hs1|]. intros t' Ht. discriminate Ht.
Qed.

(** An entry of ["tiles"] whose index is not negative and below the number
    of entries is accepted: the body of the loop returns a tileset that
    holds the index. *)
Lemma readTilesEntry_inside (entries : Z) (it : string * QVariant) (t : Tileset) (c : Converter) :
  0 <= QString_toInt (fst it) < entries ->
  exists t' c',
    readTilesEntry entries it t c = Returns (Some t') c' /\
    QString_toInt (fst it) < tileCount t'.
Proof.
  intros [H0 H1]. unfold readTilesEntry. cbv zeta.
  replace (QString_toInt (fst it) <? 0) with false by (symmetry; apply Z.ltb_ge; exact H0).
  unfold bind at 1. unfold ret at 1. unfold bind at 1.
  destruct (extendTileset entries (QString_toInt (fst it)) t c) as [ [t1|] c1|] eqn:He.
  - destruct (extendTileset_keeps _ _ _ _ _ _ He) as [Hn _].
    apply extendTileset_frame in He. destruct He as [_ He].
    destruct (He t1 eq_refl) as (_ & _ & Hin).
    assert (Hlt : QString_toInt (fst it) < tileCount t1) by (apply Hin; lia).
    destruct (overrideTile_inside (QString_toInt (fst it)) (snd it) t1 c1 (conj H0 Hlt))
      as (t2 & c2 & Ho).
    unfold bind. rewrite Ho. unfold ret. exists t2, c2. split; [reflexivity|].
    apply overrideTile_keeps in Ho. destruct Ho as [-> _]. exact Hlt.
  - exfalso. unfold extendTileset in He.
    destruct (QString_toInt (fst it) >=? tileCount t); [|discriminate He].
    replace (QString_toInt (fst it) >=? entries) with false in He
      by (symmetry; rewrite Z.geb_leb; apply Z.leb_gt; exact H1).
    discriminate He.
  - exfalso. unfold extendTileset in He.
    destruct (QString_toInt (fst it) >=? tileCount t);
      [destruct (QString_toInt (fst it) >=? entries)|]; discriminate He.
Qed.

(** The loop over entries whose indices are all inside runs to its end. *)
Lemma tiles_within_the_entries_helper (entries : Z) (tiles : QVariantMap) :
  forall (t : Tileset) (c : Converter),
    Forall (fun it => 0 <= QString_toInt (fst it) < entries) tiles ->
    exists t' c',
      readTiles entries tiles t c = Returns (Some t') c' /\
      tileCount t <= tileCount t' /\
      Forall (fun it => QString_toInt (fst it) < tileCount t') tiles.
Proof.
  induction tiles as [|it rest IH]; intros t c H.
  - exists t, c. split; [reflexivity|]. split; [lia | constructor].
  - inversion H as [|x r Hit Hrest]; subst x r.
    destruct (readTilesEntry_inside entries it t c Hit) as (t1 & c1 & H1 & Hlt).
    destruct (IH t1 c1 Hrest) as (t' & c' & Hrun & Hle & Hall).
    exists t', c'. simpl. unfold bind. rewrite H1. split; [exact Hrun|].
    apply readTilesEntry_keeps in H1. destruct H1 as [Hn _].
    split; [lia|]. constructor; [lia | exact Hall].
Qed.

(** When every index of ["tiles"] is at least 0 and below the number
    of entries, the loop over the entries returns a tileset, and that
    tileset has a tile at every one of the indices. *)
Theorem tiles_within_the_entries_are_accepted (entries : Z) (tiles : QVariantMap) :
  forall (t : Tileset) (c : Converter),
    Forall (fun it => 0 <= QString_toInt (fst it) < entries) tiles ->
    exists t' c',
      readTiles entries tiles t c = Returns (Some t') c' /\
      tileCount t <= tileCount t' /\
      Forall (fun it => QString_toInt (fst it) < tileCount t') tiles.
Proof. apply tiles_within_the_entries_helper. Qed.

Lemma readTerrains_terrains (terrains : QVariantList) :
  forall t,
    readTerrains terrains t
    = mkTileset (ts_name t) (ts_tileWidth t) (ts_tileHeight t) (ts_tileSpacing t) (ts_margin t)
                (ts_tileOffset t) (ts_transparentColor t) (ts_imageSource t) (ts_imageSize t)
                (ts_terrains t
                 ++ map (fun v => mkTerrain (QVariant_toString (QVariant_toMap v)[["name"]])
                                            (QVariant_toInt (QVariant_toMap v)[["tile"]]))
                        terrains)
                (ts_tiles t) (ts_properties t).
Proof.
  unfold readTerrains. induction terrains as [|v r IH]; intros t; simpl.
  - rewrite app_nil_r. destruct t; reflexivity.
  - rewrite IH. unfold addTerrain. simpl. rewrite <- app_assoc. reflexivity.
Qed.

Lemma readTileProperties_only_tiles (properties : QVariantMap) (t : Tileset) :
  only_tiles (readTileProperties properties t) t.
Proof.
  unfold readTileProperties.
  apply (fold_left_invariant (fun a => only_tiles a t)).
  - intros a b Ha.
    destruct ((QString_toInt (fst b) >=? 0) && (QString_toInt (fst b) <? tileCount a));
      [destruct (nth_error (ts_tiles a) _)|]; try exact Ha.
    apply (only_tiles_trans _ a); [apply only_tiles_with | exact Ha].
  - apply only_tiles_refl.
Qed.

Lemma loadFromImage_header (path : string) (t t0 : Tileset) :
  loadFromImage path t = Some t0 ->
  ts_name t0 = ts_name t /\ ts_tileWidth t0 = ts_tileWidth t /\
  ts_tileHeight t0 = ts_tileHeight t /\ ts_tileSpacing t0 = ts_tileSpacing t /\
  ts_margin t0 = ts_margin t /\ ts_tileOffset t0 = ts_tileOffset t /\
  ts_transparentColor t0 = ts_transparentColor t /\
  ts_terrains t0 = ts_terrains t /\ ts_properties t0 = ts_properties t.
Proof.
  unfold loadFromImage. destruct (loadImage path); [|discriminate].
  intros H. injection H as <-. repeat split.
Qed.

(** What [toTileset] has done when it returns a tileset. *)
Lemma toTileset_success (variant : QVariant) (c c' : Converter)
        (tileset : Tileset) :
  toTileset variant c = Returns (Some tileset) c' ->
  let m := QVariant_toMap variant in
  mGidMapper c' = gm_insert (to_unsigned (QVariant_toInt m[["firstgid"]])) tileset (mGidMapper c) /\
  mMapDir c' = mMapDir c /\
  0 < QVariant_toInt m[["tilewidth"]] /\
  0 < QVariant_toInt m[["tileheight"]] /\
  QVariant_toInt m[["firstgid"]] <> 0 /\
  ts_name tileset = QVariant_toString m[["name"]] /\
  ts_tileWidth tileset = QVariant_toInt m[["tilewidth"]] /\
  ts_tileHeight tileset = QVariant_toInt m[["tileheight"]] /\
  ts_tileSpacing tileset = QVariant_toInt m[["spacing"]] /\
  ts_margin tileset = QVariant_toInt m[["margin"]] /\
  ts_tileOffset tileset = mkQPoint (QVariant_toInt (QVariant_toMap m[["tileoffset"]])[["x"]])
                                   (QVariant_toInt (QVariant_toMap m[["tileoffset"]])[["y"]]) /\
  ts_properties tileset = toProperties m[["properties"]] /\
  ts_terrains tileset
  = map (fun v => mkTerrain (QVariant_toString (QVariant_toMap v)[["name"]])
                            (QVariant_toInt (QVariant_toMap v)[["tile"]]))
        (QVariant_toList m[["terrains"]]).
Proof.
  intros H m. unfold toTileset in H. cbv zeta in H. fold m in H.
  destruct (_ || _) eqn:Hvalid in H; [run_monad; discriminate|].
  apply orb_false_iff in Hvalid. destruct Hvalid as [Hvalid Hgid].
  apply orb_false_iff in Hvalid. destruct Hvalid as [Hw Hh].
  apply Z.leb_gt in Hw. apply Z.leb_gt in Hh. apply Z.eqb_neq in Hgid.
  fold (createdTileset m) in H.
  assert (Hcreated : forall t0,
             (if isNull m[["image"]] then t0 = createdTileset m
              else loadFromImage rtbTilesetImage (createdTileset m) = Some t0) ->
             ts_name t0 = QVariant_toString m[["name"]] /\
             ts_tileWidth t0 = QVariant_toInt m[["tilewidth"]] /\
             ts_tileHeight t0 = QVariant_toInt m[["tileheight"]] /\
             ts_tileSpacing t0 = QVariant_toInt m[["spacing"]] /\
             ts_margin t0 = QVariant_toInt m[["margin"]] /\
             ts_tileOffset t0
             = mkQPoint (QVariant_toInt (QVariant_toMap m[["tileoffset"]])[["x"]])
                        (QVariant_toInt (QVariant_toMap m[["tileoffset"]])[["y"]]) /\
             ts_terrains t0 = []).
  { assert (Hc : ts_name (createdTileset m) = QVariant_toString m[["name"]] /\
                 ts_tileWidth (createdTileset m) = QVariant_toInt m[["tilewidth"]] /\
                 ts_tileHeight (createdTileset m) = QVariant_toInt m[["tileheight"]] /\
                 ts_tileSpacing (createdTileset m) = QVariant_toInt m[["spacing"]] /\
                 ts_margin (createdTileset m) = QVariant_toInt m[["margin"]] /\
                 ts_tileOffset (createdTileset m)
                 = mkQPoint (QVariant_toInt (QVariant_toMap m[["tileoffset"]])[["x"]])
                            (QVariant_toInt (QVariant_toMap m[["tileoffset"]])[["y"]]) /\
                 ts_terrains (createdTileset m) = []).
    { unfold createdTileset. cbv zeta. destruct (_ && _); repeat split. }
    intros t0 Ht0. destruct (isNull m[["image"]]).
    - subst t0. exact Hc.
    - apply loadFromImage_header in Ht0.
      destruct Ht0 as (A1 & A2 & A3 & A4 & A5 & A6 & _ & A8 & _).
      destruct Hc as (B1 & B2 & B3 & B4 & B5 & B6 & B7).
      repeat split; congruence. }
  assert (Hend : forall t0 : Tileset,
             (if isNull m[["image"]] then t0 = createdTileset m
              else loadFromImage rtbTilesetImage (createdTileset m) = Some t0) ->
             (tileset0 <-? readTiles (count (QVariant_toMap m[["tiles"]]))
                                     (QVariant_toMap m[["tiles"]])
                                     (readTerrains (QVariant_toList m[["terrains"]])
                                        (ts_setProperties (toProperties m[["properties"]]) t0)) ;;
              registerTileset (QVariant_toInt m[["firstgid"]])
                              (readTileProperties (QVariant_toMap m[["tileproperties"]]) tileset0) ;;;
              ret (Some (readTileProperties (QVariant_toMap m[["tileproperties"]]) tileset0))) c
             = Returns (Some tileset) c' ->
             mGidMapper c'
             = gm_insert (to_unsigned (QVariant_toInt m[["firstgid"]])) tileset (mGidMapper c) /\
             mMapDir c' = mMapDir c /\
             only_tiles tileset (readTerrains (QVariant_toList m[["terrains"]])
                                   (ts_setProperties (toProperties m[["properties"]]) t0))).
  { intros t0 _. unfold bind at 1.
    destruct (readTiles _ _ _ c) as [ [t1|] c1|] eqn:Hr; run_monad; try discriminate.
    intros Hx. injection Hx as <- <-. cbn [mGidMapper mMapDir].
    apply readTiles_frame in Hr. destruct Hr as [ [Hg Hd] Ht].
    rewrite Hg. split; [reflexivity|]. split; [exact Hd|].
    apply (only_tiles_trans _ t1); [apply readTileProperties_only_tiles | apply (Ht t1 eq_refl)]. }
  assert (Hfinal : forall t0,
             (if isNull m[["image"]] then t0 = createdTileset m
              else loadFromImage rtbTilesetImage (createdTileset m) = Some t0) ->
             only_tiles tileset (readTerrains (QVariant_toList m[["terrains"]])
                                   (ts_setProperties (toProperties m[["properties"]]) t0)) ->
             ts_name tileset = QVariant_toString m[["name"]] /\
             ts_tileWidth tileset = QVariant_toInt m[["tilewidth"]] /\
             ts_tileHeight tileset = QVariant_toInt m[["tileheight"]] /\
             ts_tileSpacing tileset = QVariant_toInt m[["spacing"]] /\
             ts_margin tileset = QVariant_toInt m[["margin"]] /\
             ts_tileOffset tileset
             = mkQPoint (QVariant_toInt (QVariant_toMap m[["tileoffset"]])[["x"]])
                        (QVariant_toInt (QVariant_toMap m[["tileoffset"]])[["y"]]) /\
             ts_properties tileset = toProperties m[["properties"]] /\
             ts_terrains tileset
             = map (fun v => mkTerrain (QVariant_toString (QVariant_toMap v)[["name"]])
                                       (QVariant_toInt (QVariant_toMap v)[["tile"]]))
                   (QVariant_toList m[["terrains"]])).
  { intros t0 Ht0 Honly. destruct (Hcreated t0 Ht0) as (B1 & B2 & B3 & B4 & B5 & B6 & B7).
    unfold only_tiles in Honly. rewrite readTerrains_terrains in Honly.
    rewrite Honly. cbn. rewrite B7. repeat split; assumption. }
  unfold bind at 1 in H.
  destruct (isNull m[["image"]]) eqn:Hnull; cbn [negb] in H.
  - unfold ret at 1 in H.
    destruct (Hend (createdTileset m) eq_refl H) as (Hg & Hd & Honly).
    destruct (Hfinal (createdTileset m) eq_refl Honly) as (F1 & F2 & F3 & F4 & F5 & F6 & F7 & F8).
    repeat split; assumption.
  - destruct (loadFromImage rtbTilesetImage (createdTileset m)) as [t0|] eqn:Hload;
      [|run_monad; discriminate].
    unfold ret at 1 in H.
    destruct (Hend t0 eq_refl H) as (Hg & Hd & Honly).
    destruct (Hfinal t0 eq_refl Honly) as (F1 & F2 & F3 & F4 & F5 & F6 & F7 & F8).
    repeat split; assumption.
Qed.

(** A tileset that [toTileset] returns has the name, the tile size,
    the spacing, the margin, the tile offset, the properties and the
    terrains of its record, whose tile width and height are positive and
    whose first global id is not 0; it has been registered in the mapper
    under that first global id, read as unsigned, and the directory of the
    map is as it was. *)
Theorem returned_tileset_is_registered (variant : QVariant) (c c' : Converter)
        (tileset : Tileset) :
  toTileset variant c = Returns (Some tileset) c' ->
  let m := QVariant_toMap variant in
  mGidMapper c' = gm_insert (to_unsigned (QVariant_toInt m[["firstgid"]])) tileset (mGidMapper c) /\
  mMapDir c' = mMapDir c /\
  0 < QVariant_toInt m[["tilewidth"]] /\
  0 < QVariant_toInt m[["tileheight"]] /\
  QVariant_toInt m[["firstgid"]] <> 0 /\
  ts_name tileset = QVariant_toString m[["name"]] /\
  ts_tileWidth tileset = QVariant_toInt m[["tilewidth"]] /\
  ts_tileHeight tileset = QVariant_toInt m[["tileheight"]] /\
  ts_tileSpacing tileset = QVariant_toInt m[["spacing"]] /\
  ts_margin tileset = QVariant_toInt m[["margin"]] /\
  ts_tileOffset tileset = mkQPoint (QVariant_toInt (QVariant_toMap m[["tileoffset"]])[["x"]])
                                   (QVariant_toInt (QVariant_toMap m[["tileoffset"]])[["y"]]) /\
  ts_properties tileset = toProperties m[["properties"]] /\
  ts_terrains tileset
  = map (fun v => mkTerrain (QVariant_toString (QVariant_toMap v)[["name"]])
                            (QVariant_toInt (QVariant_toMap v)[["tile"]]))
        (QVariant_toList m[["terrains"]]).
Proof. apply toTileset_success. Qed.

End Registration.

Lemma to_unsigned_nonzero (z : Z) :
  INT_MIN <= z <= INT_MAX -> z <> 0 -> to_unsigned z <> 0.
Proof.
  unfold INT_MIN, INT_MAX, to_unsigned. intros Hr Hz Hm.
  pose proof (Z.div_mod z 4294967296 ltac:(lia)) as Hd. rewrite Hm in Hd. lia.
Qed.

Lemma gm_find_below (gid : Z) (m : GidMapper) :
  forall k t, gm_find gid m = Some (k, t) -> k <= gid /\ In (k, t) m.
Proof.
  induction m as [| [k0 t0] r IH]; intros k t H; simpl in H; [discriminate H|].
  destruct (gm_find gid r) as [ [k1 t1] |] eqn:Hr.
  - destruct (IH k1 t1 eq_refl) as [Hle Hin].
    destruct ((k0 <=? gid) && (k1 <? k0)) eqn:Hc; injection H as <- <-.
    + apply andb_true_iff in Hc. destruct Hc as [Hc _]. apply Z.leb_le in Hc.
      split; [exact Hc | left; reflexivity].
    + split; [exact Hle | right; exact Hin].
  - destruct (k0 <=? gid) eqn:Hc; [|discriminate H]. injection H as <- <-.
    apply Z.leb_le in Hc. split; [exact Hc | left; reflexivity].
Qed.

(** A tileset just registered is what its first global id resolves to. *)
Lemma gm_find_insert (k : Z) (t : Tileset) (m : GidMapper) :
  gm_find k (gm_insert k t m) = Some (k, t).
Proof.
  unfold gm_insert. simpl.
  destruct (gm_find k (filter (fun p => negb (fst p =? k)) m)) as [ [k1 t1] |] eqn:Hr.
  - destruct (gm_find_below _ _ _ _ Hr) as [Hle Hin].
    apply filter_In in Hin. destruct Hin as [_ Hne]. simpl in Hne.
    apply negb_true_iff, Z.eqb_neq in Hne.
    rewrite Z.leb_refl. replace (k1 <? k) with true by (symmetry; apply Z.ltb_lt; lia).
    reflexivity.
  - rewrite Z.leb_refl. reflexivity.
Qed.

Section Assembly.
Context {E : Environment}.

(** After [toTileset] has returned a tileset that has a tile, the
    first global id of the record resolves, in the mapper the converter is
    left with, to the first tile of that tileset. *)
Theorem first_gid_resolves_to_first_tile (variant : QVariant) (c c' : Converter)
        (tileset : Tileset) (tile : Tile) :
  toTileset variant c = Returns (Some tileset) c' ->
  nth_error (ts_tiles tileset) 0 = Some tile ->
  resolve (mGidMapper c') (to_unsigned (QVariant_toInt (QVariant_toMap variant)[["firstgid"]]))
  = Some (mkTileRef (to_unsigned (QVariant_toInt (QVariant_toMap variant)[["firstgid"]])) 0,
          tile).
Proof.
  intros H Htile. apply toTileset_success in H. cbv zeta in H.
  destruct H as (Hg & _ & _ & _ & Hgid & _).
  pose proof (to_unsigned_nonzero _ (QVariant_toInt_range _) Hgid) as Hnz.
  unfold resolve. rewrite Hg, gm_find_insert.
  apply Z.eqb_neq in Hnz. rewrite Hnz. rewrite Z.sub_diag. simpl Z.to_nat.
  rewrite Htile. reflexivity.
Qed.

Lemma addTilesets_shape (tilesets : QVariantList) :
  forall (m m' : Map) (c c' : Converter),
    addTilesets tilesets m c = Returns (Some m') c' ->
    map_header m' = map_header m /\
    map_layers m' = map_layers m /\
    mMapDir c' = mMapDir c /\
    exists built,
      map_tilesets m' = (map_tilesets m ++ built)%list /\
      Forall2 (fun v t => exists c1 c2, toTileset v c1 = Returns (Some t) c2) tilesets built.
Proof.
  induction tilesets as [|v rest IH]; intros m m' c c' H; simpl in H.
  - unfold ret in H. injection H as <- <-. repeat split.
    exists []. rewrite app_nil_r. split; [reflexivity | constructor].
  - unfold bind in H.
    destruct (toTileset v c) as [ [t|] c1|] eqn:Ht; try discriminate H.
    apply IH in H. destruct H as (Hh & Hl & Hd & built & Hb & Hall).
    pose proof (toTileset_success _ _ _ _ Ht) as Hreg. cbv zeta in Hreg.
    destruct Hreg as (_ & Hd1 & _).
    split; [exact Hh|]. split; [exact Hl|]. split; [congruence|].
    exists (t :: built). split.
    + rewrite Hb. simpl. rewrite <- app_assoc. reflexivity.
    + constructor; [exists c, c1; exact Ht | exact Hall].
Qed.

Lemma addLayers_shape (layers : QVariantList) :
  forall (m m' : Map) (c c' : Converter),
    addLayers layers m c = Returns (Some m') c' ->
    c' = c /\
    map_header m' = map_header m /\
    map_tilesets m' = map_tilesets m /\
    exists built,
      map_layers m' = (map_layers m ++ built)%list /\
      Forall2 (fun v l => toLayer v c = Returns (Some l) c) layers built.
Proof.
  induction layers as [|v rest IH]; intros m m' c c' H; simpl in H.
  - unfold ret in H. injection H as <- <-. repeat split.
    exists []. rewrite app_nil_r. split; [reflexivity | constructor].
  - unfold bind in H.
    destruct (toLayer v c) as [ [l|] c1|] eqn:Hl; try discriminate H.
    destruct (toLayer_frame _ _ _ _ Hl) as (_ & _ & Hsame).
    destruct (Hsame l eq_refl) as [-> _].
    apply IH in H. destruct H as (Hc & Hh & Ht & built & Hb & Hall).
    split; [exact Hc|]. split; [exact Hh|]. split; [exact Ht|].
    exists (l :: built). split.
    + rewrite Hb. simpl. rewrite <- app_assoc. reflexivity.
    + constructor; [exact Hl | exact Hall].
Qed.

(** A document that [toMap] returns has an orientation that is known
    and the sizes, the next object id (1 when the record gives none or 0)
    and the properties of its record; its tilesets are the tilesets built
    from the tileset records, one for each and in their order, and its
    layers the layers built from the layer records, one for each and in
    their order, each built without a change to the converter; the
    converter is left with the directory of the map. *)
Theorem returned_document_follows_the_record (variant : QVariant) (mapDir : string)
        (c c' : Converter) (m : Map) :
  toMap variant mapDir c = Returns (Some m) c' ->
  let r := QVariant_toMap variant in
  map_orientation m = orientationFromString (QVariant_toString r[["orientation"]]) /\
  map_orientation m <> Unknown /\
  map_width m = QVariant_toInt r[["width"]] /\
  map_height m = QVariant_toInt r[["height"]] /\
  map_tileWidth m = QVariant_toInt r[["tilewidth"]] /\
  map_tileHeight m = QVariant_toInt r[["tileheight"]] /\
  map_nextObjectId m
  = (if QString_toInt (QVariant_toString r[["nextobjectid"]]) =? 0 then 1
     else QString_toInt (QVariant_toString r[["nextobjectid"]])) /\
  map_properties m = toProperties r[["properties"]] /\
  map_rtbMap m = toRTBMap r new_RTBMap /\
  Forall2 (fun v t => exists c1 c2, toTileset v c1 = Returns (Some t) c2)
          (QVariant_toList r[["tilesets"]]) (map_tilesets m) /\
  Forall2 (fun v l => toLayer v c' = Returns (Some l) c')
          (QVariant_toList r[["layers"]]) (map_layers m) /\
  mMapDir c' = mapDir.
Proof.
  intros H r. unfold toMap in H. cbv zeta in H. fold r in H. unfold bind at 1 in H.
  destruct (orientationFromString (QVariant_toString r[["orientation"]])) eqn:Ho;
    [run_monad; discriminate| | | | ];
    unfold bind at 1 in H;
    match type of H with
    | context [addTilesets ?l ?m0 ?c0] =>
        destruct (addTilesets l m0 c0) as [ [m1|] c1|] eqn:Hts;
        [ | run_monad; discriminate | discriminate ]
    end;
    apply addTilesets_shape in Hts; destruct Hts as (Hh1 & Hl1 & Hd1 & bt & Hbt & Hat);
    apply addLayers_shape in H; destruct H as (-> & Hh2 & Ht2 & bl & Hbl & Hal);
    rewrite Hl1 in Hbl; rewrite Ht2, Hbt; simpl app in *; rewrite Hbl;
    rewrite Hh1 in Hh2; unfold map_header in Hh2; cbn in Hh2;
    injection Hh2 as E1 E2 E3 E4 E5 E6 E7 E8 E9 E10 E11 E12 E13;
    (split; [exact E1|]); (split; [rewrite E1; discriminate|]);
    (split; [exact E2|]); (split; [exact E3|]); (split; [exact E4|]); (split; [exact E5|]);
    (split; [rewrite E11; destruct (_ =? 0); reflexivity|]);
    (split; [exact E12|]); (split; [exact E10|]);
    (split; [exact Hat|]); (split; [exact Hal|]); exact Hd1.
Qed.

End Assembly.

Section Success.
Context {E : Environment}.

(** An image layer that is returned has the name, the place, the size,
    the opacity and the visibility of its record, and the converter is as
    it was.  Without a text for the image it has no image and an empty
    image source; with one, its image source is the path resolved against
    the directory of the map and its image has the size the decoder
    gave. *)
Theorem image_layer_follows_the_record (variantMap : QVariantMap) (c c' : Converter)
        (i : ImageLayer) :
  toImageLayer variantMap c = Returns (Some i) c' ->
  c' = c /\
  il_layer i
  = mkLayerData (QVariant_toString variantMap[["name"]])
                (QVariant_toInt variantMap[["x"]]) (QVariant_toInt variantMap[["y"]])
                (QVariant_toInt variantMap[["width"]]) (QVariant_toInt variantMap[["height"]])
                (QVariant_toReal variantMap[["opacity"]])
                (QVariant_toBool variantMap[["visible"]]) [] /\
  (toString_isNull variantMap[["image"]] = true ->
   il_image i = None /\ il_imageSource i = EmptyString) /\
  (toString_isNull variantMap[["image"]] = false ->
   il_imageSource i
   = resolvePath (mMapDir c) (VString (QVariant_toString variantMap[["image"]])) /\
   il_image i <> None /\
   loadImage (il_imageSource i) = il_image i).
Proof.
  unfold toImageLayer. cbv zeta. run_monad.
  destruct (toString_isNull variantMap[["image"]]); cbn [negb].
  - intros H. injection H as <- <-. repeat split; intros; discriminate.
  - destruct (loadImage _) as [size|] eqn:Hload; [|discriminate].
    intros H. injection H as <- <-. cbn.
    split; [reflexivity|]. split; [reflexivity|]. split; [discriminate|].
    intros _. split; [reflexivity|]. split; [discriminate | exact Hload].
Qed.

(** An object group that is returned has the name, the place, the size,
    the opacity and the visibility of its record and the colour its
    ["color"] converts to; its draw order is top-down when the record gives
    none, and the order [drawOrderFromString] reads otherwise, which is
    never the unknown one. *)
Theorem object_group_follows_the_record (variantMap : QVariantMap) (c c' : Converter)
        (g : ObjectGroup) :
  toObjectGroup variantMap c = Returns (Some g) c' ->
  og_layer g
  = mkLayerData (QVariant_toString variantMap[["name"]])
                (QVariant_toInt variantMap[["x"]]) (QVariant_toInt variantMap[["y"]])
                (QVariant_toInt variantMap[["width"]]) (QVariant_toInt variantMap[["height"]])
                (QVariant_toReal variantMap[["opacity"]])
                (QVariant_toBool variantMap[["visible"]]) [] /\
  og_color g = QVariant_toColor variantMap[["color"]] /\
  og_drawOrder g <> UnknownOrder /\
  og_drawOrder g
  = (if isEmpty (QVariant_toString variantMap[["draworder"]]) then TopDownOrder
     else drawOrderFromString (QVariant_toString variantMap[["draworder"]])).
Proof.
  unfold toObjectGroup. cbv zeta. run_monad.
  destruct (isEmpty _); cbn [negb]; [|destruct (drawOrderFromString _) eqn:Ho];
    intros H; try discriminate; injection H as <- _; cbn;
    repeat split; discriminate.
Qed.

(** A tileset record with a positive tile width and height and a first
    global id other than 0, without an image, whose indices of ["tiles"]
    are all at least 0 and below the number of entries, is built:
    [toTileset] returns a tileset, which holds a tile at every one of those
    indices and no more tiles than there are entries. *)
Theorem well_formed_tileset_is_built (variant : QVariant) (c : Converter) :
  0 < QVariant_toInt (QVariant_toMap variant)[["tilewidth"]] ->
  0 < QVariant_toInt (QVariant_toMap variant)[["tileheight"]] ->
  QVariant_toInt (QVariant_toMap variant)[["firstgid"]] <> 0 ->
  isNull (QVariant_toMap variant)[["image"]] = true ->
  Forall (fun it => 0 <= QString_toInt (fst it)
                    < count (QVariant_toMap (QVariant_toMap variant)[["tiles"]]))
         (QVariant_toMap (QVariant_toMap variant)[["tiles"]]) ->
  exists tileset c',
    toTileset variant c = Returns (Some tileset) c' /\
    tileCount tileset <= count (QVariant_toMap (QVariant_toMap variant)[["tiles"]]) /\
    Forall (fun it => QString_toInt (fst it) < tileCount tileset)
           (QVariant_toMap (QVariant_toMap variant)[["tiles"]]).
Proof.
  intros Hw Hh Hg Hnull Hall.
  set (m := QVariant_toMap variant) in *.
  set (start := readTerrains (QVariant_toList m[["terrains"]])
                  (ts_setProperties (toProperties m[["properties"]]) (createdTileset m))).
  destruct (tiles_within_the_entries_helper _ _ start c Hall) as (t1 & c1 & Hrun & _ & Hin).
  assert (Hstart : tileCount start = 0).
  { unfold start, tileCount. destruct (readTerrains_keeps (QVariant_toList m[["terrains"]])
                                         (ts_setProperties (toProperties m[["properties"]])
                                                           (createdTileset m))) as [-> _].
    cbn [ts_setProperties ts_tiles].
    destruct (createdTileset_empty m) as [-> _]. reflexivity. }
  destruct (readTiles_keeps _ _ _ _ _ _ Hrun) as [Hn _]. rewrite Hstart in Hn.
  destruct (readTileProperties_keeps (QVariant_toMap m[["tileproperties"]]) t1) as [Hp _].
  exists (readTileProperties (QVariant_toMap m[["tileproperties"]]) t1).
  eexists. split; [|split].
  - unfold toTileset. cbv zeta. fold m.
    replace (_ <=? 0) with false by (symmetry; apply Z.leb_gt; exact Hw).
    replace (_ <=? 0) with false by (symmetry; apply Z.leb_gt; exact Hh).
    replace (_ =? 0) with false by (symmetry; apply Z.eqb_neq; exact Hg).
    cbn [orb]. fold (createdTileset m). rewrite Hnull. cbn [negb].
    unfold bind at 1. unfold ret at 1. fold start. unfold bind at 1. rewrite Hrun.
    run_monad. reflexivity.
  - rewrite Hp. unfold count in *. lia.
  - rewrite Hp. exact Hin.
Qed.

End Success.

(* ================================================================== *)
(** ** The claims on concrete documents *)

Lemma target_zero_is_absent_witness :
  storedTarget (toRTBMapObject (E := qtEnvironment noImages)
                               [("teleportertarget", VString "0")] (RTBTeleporter "exit"))
  = Some EmptyString.
Proof.
  apply (proj1 (target_zero_is_absent (E := qtEnvironment noImages)
                  [("teleportertarget", VString "0")] (RTBTeleporter "exit") "0"
                  (or_introl (conj eq_refl eq_refl)))).
  reflexivity.
Defined.

Lemma polyline_wins_over_polygon_witness :
  mo_shape (toMapObject (E := qtEnvironment noImages) []
              (VMap [("polygon", VList [VMap [("x", VInt 0); ("y", VInt 0)] ]);
                     ("polyline", VList [VMap [("x", VInt 1); ("y", VInt 2)] ])]))
  = Polyline.
Proof.
  apply (proj1 (polyline_wins_over_polygon (E := qtEnvironment noImages) []
                  (VMap [("polygon", VList [VMap [("x", VInt 0); ("y", VInt 0)] ]);
                         ("polyline", VList [VMap [("x", VInt 1); ("y", VInt 2)] ])])
                  [VMap [("x", VInt 0); ("y", VInt 0)] ]
                  [VMap [("x", VInt 1); ("y", VInt 2)] ]
                  eq_refl eq_refl eq_refl)).
Defined.

Lemma tile_stamp_backfills_zero_size_witness :
  szf_width (mo_size (toMapObject (E := qtEnvironment noImages) fourTiles
                        (VMap [("gid", VInt 2); ("height", VInt 5); ("width", VInt 0)])))
  = qreal_of_Z 16 /\
  szf_height (mo_size (toMapObject (E := qtEnvironment noImages) fourTiles
                         (VMap [("gid", VInt 2); ("height", VInt 5); ("width", VInt 0)])))
  = qreal_of_Z 5.
Proof.
  destruct (tile_stamp_backfills_zero_size (E := qtEnvironment noImages) fourTiles
              (VMap [("gid", VInt 2); ("height", VInt 5); ("width", VInt 0)])
              (mkTileRef 1 1) (new_Tile (mkQSize 16 16) 1) eq_refl)
    as (_ & Hzero & _ & _ & Hkept).
  split; [apply Hzero; reflexivity | apply Hkept; reflexivity].
Defined.

Lemma layer_without_visible_key_is_hidden_witness :
  exists layer c',
    toLayer (E := qtEnvironment noImages) (floorLayer 0 0 []) newConverter
    = Returns (Some layer) c' /\
    l_visible (layerData layer) = false.
Proof.
  destruct (layer_without_visible_key_is_hidden (E := qtEnvironment noImages)
              (QVariant_toMap (floorLayer 0 0 [])) eq_refl)
    as (_ & _ & _ & Hlayer & _).
  eexists. eexists. split; [reflexivity|].
  eapply (Hlayer (floorLayer 0 0 []) newConverter _ _ eq_refl). reflexivity.
Defined.


Lemma tile_layer_cells_row_major_witness :
  exists tileLayer,
    toTileLayer (E := qtEnvironment noImages)
                (QVariant_toMap (floorLayer 2 2 [VInt 0; VInt 1; VInt 2; VInt 5]))
                (mkConverter EmptyString fourTiles EmptyString)
    = Returns (Some tileLayer) (mkConverter EmptyString fourTiles EmptyString) /\
    count (tl_grid tileLayer) = 4.
Proof.
  destruct (tile_layer_cells_row_major (E := qtEnvironment noImages)
              (QVariant_toMap (floorLayer 2 2 [VInt 0; VInt 1; VInt 2; VInt 5]))
              (mkConverter EmptyString fourTiles EmptyString))
    as (tileLayer & Hrun & _ & _ & Hcount & _).
  - repeat constructor; discriminate.
  - reflexivity.
  - vm_compute. discriminate.
  - vm_compute. discriminate.
  - exists tileLayer. split; [exact Hrun | exact Hcount].
Defined.

(** C5 as it is stated, at a layer of width -2 and height -2 with four
    numeric entries: the length of the data is the product of width and
    height, and [toTileLayer] writes outside the grid at the first
    entry. *)
Lemma negative_size_tile_layer_is_undefined :
  Forall (fun gidVariant => QVariant_toUInt (E := qtEnvironment noImages) gidVariant <> None)
         [VInt 0; VInt 0; VInt 0; VInt 0] /\
  count [VInt 0; VInt 0; VInt 0; VInt 0] = (-2) * (-2) /\
  toTileLayer (E := qtEnvironment noImages)
              (QVariant_toMap (floorLayer (-2) (-2) [VInt 0; VInt 0; VInt 0; VInt 0]))
              newConverter
  = Undefined.
Proof.
  split; [repeat constructor; discriminate|]. split; reflexivity.
Qed.

Lemma tile_growth_is_capped_witness :
  exists tileset c',
    toTileset (E := qtEnvironment noImages)
              (groundTileset VInvalid [("0", VMap []); ("1", VMap [])]) newConverter
    = Returns (Some tileset) c' /\
    tileCount tileset <= 2.
Proof.
  destruct (toTileset (E := qtEnvironment noImages)
                      (groundTileset VInvalid [("0", VMap []); ("1", VMap [])]) newConverter)
    as [ [tileset|] c'|] eqn:Hrun.
  - exists tileset, c'. split; [reflexivity|].
    apply (proj1 (proj2 (proj2 (tile_growth_is_capped (E := qtEnvironment noImages)
                                  (groundTileset VInvalid [("0", VMap []); ("1", VMap [])])
                                  newConverter c' tileset Hrun)))).
    reflexivity.
  - vm_compute in Hrun. discriminate Hrun.
  - vm_compute in Hrun. discriminate Hrun.
Defined.

Lemma tileset_image_is_the_resource_witness :
  toTileset (E := qtEnvironment noImages)
            (groundTileset (VString "tiles.png") []) newConverter
  = Returns None (mkConverter ("Error loading tileset image:" +++ nl
                               +++ "':/rtb_resources/tileset/Floor.png'")
                              [] EmptyString).
Proof.
  apply (proj1 (proj2 (proj2 (tileset_image_is_the_resource (E := qtEnvironment noImages)
                                (groundTileset (VString "tiles.png") []) newConverter
                                eq_refl)
                             eq_refl))).
  - reflexivity.
  - reflexivity.
  - discriminate.
Defined.

(** C1 as it is stated, at a tileset record whose image is ["tiles.png"]
    in a map of directory ["/maps"].  With a decoder that knows that image
    and no other, the path of the record resolves to an image that decodes,
    and yet [toTileset] fails, having asked for the resource.  With a
    decoder that knows the resource and no other, the image of the record
    does not decode, and yet [toTileset] returns a tileset, whose image
    source is the resource. *)
Lemma tileset_image_path_is_ignored :
  (resolvePath (E := qtEnvironment (onlyImage "/maps/tiles.png" (mkQSize 64 64)))
               "/maps" (VString "tiles.png") = "/maps/tiles.png" /\
   loadImage (Environment := qtEnvironment (onlyImage "/maps/tiles.png" (mkQSize 64 64)))
             "/maps/tiles.png" = Some (mkQSize 64 64) /\
   toTileset (E := qtEnvironment (onlyImage "/maps/tiles.png" (mkQSize 64 64)))
             (groundTileset (VString "tiles.png") [])
             (mkConverter EmptyString [] "/maps")
   = Returns None (mkConverter ("Error loading tileset image:" +++ nl
                                +++ "':/rtb_resources/tileset/Floor.png'")
                               [] "/maps")) /\
  (loadImage (Environment := qtEnvironment (onlyImage rtbTilesetImage (mkQSize 32 32)))
             (resolvePath (E := qtEnvironment (onlyImage rtbTilesetImage (mkQSize 32 32)))
                          "/maps" (VString "tiles.png")) = None /\
   exists tileset c',
     toTileset (E := qtEnvironment (onlyImage rtbTilesetImage (mkQSize 32 32)))
               (groundTileset (VString "tiles.png") [])
               (mkConverter EmptyString [] "/maps")
     = Returns (Some tileset) c' /\
     ts_imageSource tileset = ":/rtb_resources/tileset/Floor.png" /\
     tileCount tileset = 4).
Proof.
  split.
  - repeat split.
  - split; [reflexivity|]. eexists. eexists.
    split; [vm_compute; reflexivity|]. split; reflexivity.
Qed.

(** C2 on the code: a map whose only layer has the type ["foo"].  [toMap]
    returns null and leaves the error text as it found it: empty in a
    converter that has not run, the message of an earlier conversion
    otherwise. *)
Theorem unknown_layer_type_sets_no_error (c : Converter) :
  toMap (E := qtEnvironment noImages)
        (orthogonalMap [] [VMap [("type", VString "foo")] ]) EmptyString c
  = Returns None (mkConverter (mError c) [] EmptyString).
Proof. reflexivity. Qed.

(** C3 on the code: a tileset record whose ["tiles"] has the key ["-1"].
    The body of the loop writes the error "Tileset tile index negative"
    and goes on: the index is below the tile count, so nothing is grown,
    and [tileAt] is asked for the tile at -1.  [toTileset] does not return
    null there. *)
Theorem negative_tile_index_does_not_return :
  readTilesEntry (E := qtEnvironment noImages) 1 ("-1", VMap [])
                 (Tileset_create "ground" 16 16 0 0) newConverter
  = Undefined /\
  toTileset (E := qtEnvironment noImages)
            (groundTileset VInvalid [("-1", VMap [])]) newConverter
  = Undefined.
Proof. split; reflexivity. Qed.

Lemma invalid_draw_order_is_fatal_witness :
  toObjectGroup (E := qtEnvironment noImages) [("draworder", VString "foobar")] newConverter
  = Returns None (mkConverter "Invalid draw order: foobar" [] EmptyString).
Proof.
  apply (invalid_draw_order_is_fatal (E := qtEnvironment noImages)
           [("draworder", VString "foobar")] newConverter eq_refl eq_refl).
Defined.

Lemma objects_follow_the_list_witness :
  exists g,
    toObjectGroup (E := qtEnvironment noImages)
                  [("objects", VList [VMap [("id", VInt 7)]; VMap [("id", VInt 8)] ])]
                  newConverter
    = Returns (Some g) newConverter /\
    map mo_id (og_objects g) = [7; 8].
Proof.
  destruct (toObjectGroup (E := qtEnvironment noImages)
                          [("objects", VList [VMap [("id", VInt 7)]; VMap [("id", VInt 8)] ])]
                          newConverter)
    as [ [g|] c'|] eqn:Hrun.
  - destruct (objects_follow_the_list (E := qtEnvironment noImages) _ _ _ _ Hrun)
      as [-> Hobjects].
    exists g. split; [reflexivity|]. rewrite Hobjects. reflexivity.
  - vm_compute in Hrun. discriminate Hrun.
  - vm_compute in Hrun. discriminate Hrun.
Defined.

Lemma invalid_tileset_parameters_are_fatal_witness :
  toTileset (E := qtEnvironment noImages)
            (VMap [("firstgid", VInt 0); ("name", VString "ground");
                   ("tileheight", VInt 16); ("tilewidth", VInt 16)]) newConverter
  = Returns None (mkConverter "Invalid tileset parameters for tileset 'ground'"
                              [] EmptyString).
Proof.
  apply (invalid_tileset_parameters_are_fatal (E := qtEnvironment noImages)
           (VMap [("firstgid", VInt 0); ("name", VString "ground");
                  ("tileheight", VInt 16); ("tilewidth", VInt 16)]) newConverter).
  right. right. reflexivity.
Defined.

Lemma unknown_orientation_is_fatal_witness :
  toMap (E := qtEnvironment noImages) (VMap [("orientation", VString "round")]) "/maps"
        newConverter
  = Returns None (mkConverter ("Unsupported map orientation: " +++ dquote +++ "round"
                               +++ dquote) [] "/maps").
Proof.
  apply (unknown_orientation_is_fatal (E := qtEnvironment noImages)
           (VMap [("orientation", VString "round")]) "/maps" newConverter eq_refl).
Defined.

Lemma unknown_layer_type_gives_no_layer_witness :
  toLayer (E := qtEnvironment noImages) (VMap [("type", VString "foo")]) newConverter
  = Returns None newConverter.
Proof.
  apply (proj1 (unknown_layer_type_gives_no_layer (E := qtEnvironment noImages)
                  (VMap [("type", VString "foo")]) newConverter eq_refl eq_refl eq_refl)).
Defined.

Lemma image_layer_decoding_failure_is_fatal_witness :
  toImageLayer (E := qtEnvironment noImages) [("image", VString "sky.png")]
               (mkConverter EmptyString [] "/maps")
  = Returns None (mkConverter ("Error loading image:" +++ nl +++ "'/maps/sky.png'")
                              [] "/maps").
Proof.
  apply (image_layer_decoding_failure_is_fatal (E := qtEnvironment noImages)
           [("image", VString "sky.png")] (mkConverter EmptyString [] "/maps")
           eq_refl eq_refl).
Defined.

Lemma terrain_needs_four_entries_witness :
  exists tile' c',
    readTile (E := qtEnvironment noImages) (Tileset_create "ground" 16 16 0 0)
             [("terrain", VList [VInt 0; VInt 0; VInt 0])] (new_Tile (mkQSize 0 0) 0)
             newConverter
    = Returns tile' c' /\
    tile_terrain tile' = [-1; -1; -1; -1].
Proof.
  destruct (readTile (E := qtEnvironment noImages) (Tileset_create "ground" 16 16 0 0)
                     [("terrain", VList [VInt 0; VInt 0; VInt 0])] (new_Tile (mkQSize 0 0) 0)
                     newConverter)
    as [tile' c'|] eqn:Hrun.
  - exists tile', c'. split; [reflexivity|].
    refine (terrain_needs_four_entries (E := qtEnvironment noImages)
              (Tileset_create "ground" 16 16 0 0)
              [("terrain", VList [VInt 0; VInt 0; VInt 0])] (new_Tile (mkQSize 0 0) 0)
              tile' newConverter c' _ Hrun).
    discriminate.
  - vm_compute in Hrun. discriminate Hrun.
Defined.

(** The document of one tileset (first global id 1, tiles of 16 x 16, four
    of them cut from the tileset image) and one tile layer of 2 x 2 with
    the data 0, 1, 2, 5: the cells are empty, tile 0, tile 1 and empty, the
    global id 5 lying beyond the four tiles. *)
Example four_tiles_two_by_two :
  exists m c',
    toMap (E := qtEnvironment (onlyImage rtbTilesetImage (mkQSize 32 32)))
          (orthogonalMap [groundTileset (VString "tiles.png") [] ]
                         [floorLayer 2 2 [VInt 0; VInt 1; VInt 2; VInt 5] ])
          "/maps" newConverter
    = Returns (Some m) c' /\
    mError c' = EmptyString /\
    map tileCount (map_tilesets m) = [4] /\
    map (fun l => match l with
                  | LayerTiles t => tl_grid t
                  | _ => []
                  end) (map_layers m)
    = [ [None; Some (mkTileRef 1 0); Some (mkTileRef 1 1); None] ].
Proof.
  eexists. eexists. split; [vm_compute; reflexivity|].
  repeat split.
Qed.

Lemma layer_builders_only_write_errors_witness :
  toLayer (E := qtEnvironment noImages) (floorLayer 3 3 (repeat (VInt 1) 8))
          (mkConverter "stale" fourTiles "/maps")
  = Returns None (mkConverter "Corrupt layer data for layer 'floor'" fourTiles "/maps") /\
  mGidMapper (mkConverter "Corrupt layer data for layer 'floor'" fourTiles "/maps") = fourTiles.
Proof.
  assert (Hrun : toLayer (E := qtEnvironment noImages) (floorLayer 3 3 (repeat (VInt 1) 8))
                         (mkConverter "stale" fourTiles "/maps")
                 = Returns None (mkConverter "Corrupt layer data for layer 'floor'"
                                             fourTiles "/maps")) by reflexivity.
  split; [exact Hrun|].
  exact (proj1 (layer_builders_only_write_errors (E := qtEnvironment noImages) _ _ _ _ Hrun)).
Defined.

Lemma tile_layer_has_one_cell_per_entry_witness :
  exists t,
    toTileLayer (E := qtEnvironment noImages)
                (QVariant_toMap (floorLayer 2 1 [VInt 1; VInt 9])) newConverter
    = Returns (Some t) newConverter /\
    count (tl_grid t) = 2.
Proof.
  destruct (toTileLayer (E := qtEnvironment noImages)
                        (QVariant_toMap (floorLayer 2 1 [VInt 1; VInt 9])) newConverter)
    as [ [t|] c'|] eqn:Hrun.
  - destruct (tile_layer_has_one_cell_per_entry (E := qtEnvironment noImages) _ _ _ _ Hrun)
      as (-> & Hcount & _).
    exists t. split; [reflexivity | exact Hcount].
  - vm_compute in Hrun. discriminate Hrun.
  - vm_compute in Hrun. discriminate Hrun.
Defined.

Lemma unparseable_tile_reports_position_witness :
  toTileLayer (E := qtEnvironment noImages)
              (QVariant_toMap (floorLayer 2 2 [VInt 1; VInt 1; VInt 1; VString "x"]))
              newConverter
  = Returns None (mkConverter "Unable to parse tile at (1,1) on layer 'floor'" [] EmptyString).
Proof.
  refine (unparseable_tile_reports_position (E := qtEnvironment noImages)
            (QVariant_toMap (floorLayer 2 2 [VInt 1; VInt 1; VInt 1; VString "x"]))
            newConverter [VInt 1; VInt 1; VInt 1] [] (VString "x")
            eq_refl _ eq_refl eq_refl _ _).
  - repeat constructor; discriminate.
  - vm_compute. discriminate.
  - vm_compute. discriminate.
Defined.

Lemma terrain_corners_are_read_one_by_one_witness :
  exists tile' c',
    readTile (E := qtEnvironment noImages)
             (addTerrain "grass" 0 (Tileset_create "ground" 16 16 0 0))
             [("terrain", VList [VInt 0; VInt 7; VString "x"; VInt 0])]
             (new_Tile (mkQSize 0 0) 0) newConverter
    = Returns tile' c' /\
    tile_terrain tile' = [0; -1; -1; 0].
Proof.
  destruct (readTile (E := qtEnvironment noImages)
                     (addTerrain "grass" 0 (Tileset_create "ground" 16 16 0 0))
                     [("terrain", VList [VInt 0; VInt 7; VString "x"; VInt 0])]
                     (new_Tile (mkQSize 0 0) 0) newConverter)
    as [tile' c'|] eqn:Hrun.
  - exists tile', c'. split; [reflexivity|].
    exact (terrain_corners_are_read_one_by_one (E := qtEnvironment noImages)
             (addTerrain "grass" 0 (Tileset_create "ground" 16 16 0 0))
             [("terrain", VList [VInt 0; VInt 7; VString "x"; VInt 0])]
             (new_Tile (mkQSize 0 0) 0) tile' newConverter c'
             (VInt 0) (VInt 7) (VString "x") (VInt 0) (-1) (-1) (-1) (-1)
             eq_refl eq_refl Hrun).
  - vm_compute in Hrun. discriminate Hrun.
Defined.

Lemma tile_image_is_not_checked_witness :
  exists tile' c',
    readTile (E := qtEnvironment noImages) (Tileset_create "ground" 16 16 0 0)
             [("image", VString "rock.png")] (new_Tile (mkQSize 0 0) 0)
             (mkConverter EmptyString [] "/maps")
    = Returns tile' c' /\
    tile_imageSource tile' = "/maps/rock.png" /\
    tile_size tile' = mkQSize 0 0.
Proof.
  destruct (tile_image_is_not_checked (E := qtEnvironment noImages)
              (Tileset_create "ground" 16 16 0 0)
              [("image", VString "rock.png")] (new_Tile (mkQSize 0 0) 0)
              (mkConverter EmptyString [] "/maps") eq_refl)
    as (tile' & c' & Hrun & Hsource & _ & Hnull & _).
  exists tile', c'. split; [exact Hrun|]. split; [exact Hsource | exact (Hnull eq_refl)].
Defined.

Lemma tile_object_group_failure_is_kept_going_witness :
  exists tile',
    readTile (E := qtEnvironment noImages) (Tileset_create "ground" 16 16 0 0)
             [("objectgroup", VMap [("draworder", VString "foobar")])]
             (new_Tile (mkQSize 0 0) 0) newConverter
    = Returns tile' (mkConverter "Invalid draw order: foobar" [] EmptyString) /\
    tile_objectGroup tile' = None.
Proof.
  apply (tile_object_group_failure_is_kept_going (E := qtEnvironment noImages)
           (Tileset_create "ground" 16 16 0 0)
           [("objectgroup", VMap [("draworder", VString "foobar")])]
           (new_Tile (mkQSize 0 0) 0) newConverter).
  - discriminate.
  - reflexivity.
  - reflexivity.
Defined.

Lemma tile_properties_outside_are_ignored_witness :
  readTileProperties (E := qtEnvironment noImages)
                     [("-1", VMap [("solid", VBool true)]); ("4", VMap [])]
                     (addTile (addTile (Tileset_create "ground" 16 16 0 0)))
  = addTile (addTile (Tileset_create "ground" 16 16 0 0)).
Proof.
  apply (tile_properties_outside_are_ignored (E := qtEnvironment noImages)).
  constructor; [left; vm_compute; reflexivity|].
  constructor; [right; vm_compute; discriminate | constructor].
Defined.

Lemma toProperties_keeps_the_entries_witness :
  toProperties (E := qtEnvironment noImages)
               (VMap [("depth", VInt 3); ("solid", VBool true)])
  = [("depth", "3"); ("solid", "true")].
Proof.
  apply (toProperties_keeps_the_entries (E := qtEnvironment noImages)
           (VMap [("depth", VInt 3); ("solid", VBool true)])).
  repeat constructor; simpl; intuition discriminate.
Defined.

Lemma returned_tileset_is_registered_witness :
  exists tileset c',
    toTileset (E := qtEnvironment noImages) (groundTileset VInvalid [("0", VMap [])])
              newConverter
    = Returns (Some tileset) c' /\
    mGidMapper c' = [(1, tileset)] /\
    ts_name tileset = "ground".
Proof.
  destruct (toTileset (E := qtEnvironment noImages) (groundTileset VInvalid [("0", VMap [])])
                      newConverter)
    as [ [tileset|] c'|] eqn:Hrun.
  - pose proof (returned_tileset_is_registered (E := qtEnvironment noImages) _ _ _ _ Hrun)
      as Hreg.
    cbv zeta in Hreg. destruct Hreg as (Hg & _ & _ & _ & _ & Hname & _).
    exists tileset, c'. split; [reflexivity|]. split; [exact Hg | exact Hname].
  - vm_compute in Hrun. discriminate Hrun.
  - vm_compute in Hrun. discriminate Hrun.
Defined.

Lemma first_gid_resolves_to_first_tile_witness :
  exists tileset c',
    toTileset (E := qtEnvironment noImages) (groundTileset VInvalid [("0", VMap [])])
              newConverter
    = Returns (Some tileset) c' /\
    resolve (mGidMapper c') 1 = Some (mkTileRef 1 0, new_Tile (mkQSize 0 0) 0).
Proof.
  destruct (toTileset (E := qtEnvironment noImages) (groundTileset VInvalid [("0", VMap [])])
                      newConverter)
    as [ [tileset|] c'|] eqn:Hrun.
  - exists tileset, c'. split; [reflexivity|].
    apply (first_gid_resolves_to_first_tile (E := qtEnvironment noImages) _ _ _ _ _ Hrun).
    vm_compute in Hrun. injection Hrun as <- _. reflexivity.
  - vm_compute in Hrun. discriminate Hrun.
  - vm_compute in Hrun. discriminate Hrun.
Defined.

Lemma tiles_within_the_entries_are_accepted_witness :
  exists t' c',
    readTiles (E := qtEnvironment noImages) 2 [("0", VMap []); ("1", VMap [])]
              (Tileset_create "ground" 16 16 0 0) newConverter
    = Returns (Some t') c' /\
    0 <= tileCount t'.
Proof.
  destruct (tiles_within_the_entries_are_accepted (E := qtEnvironment noImages) 2
              [("0", VMap []); ("1", VMap [])]
              (Tileset_create "ground" 16 16 0 0) newConverter)
    as (t' & c' & Hrun & Hle & _).
  - repeat constructor; vm_compute; discriminate.
  - exists t', c'. split; [exact Hrun | exact Hle].
Defined.

Lemma returned_document_follows_the_record_witness :
  exists m c',
    toMap (E := qtEnvironment noImages)
          (orthogonalMap [] [floorLayer 0 0 [] ]) "/maps" newConverter
    = Returns (Some m) c' /\
    map_orientation m = Orthogonal /\
    mMapDir c' = "/maps".
Proof.
  destruct (toMap (E := qtEnvironment noImages)
                  (orthogonalMap [] [floorLayer 0 0 [] ]) "/maps" newConverter)
    as [ [m|] c'|] eqn:Hrun.
  - pose proof (returned_document_follows_the_record (E := qtEnvironment noImages)
                  _ _ _ _ _ Hrun) as Hdoc.
    cbv zeta in Hdoc.
    destruct Hdoc as (Ho & _ & _ & _ & _ & _ & _ & _ & _ & _ & _ & Hd).
    exists m, c'. split; [reflexivity|]. split; [exact Ho | exact Hd].
  - vm_compute in Hrun. discriminate Hrun.
  - vm_compute in Hrun. discriminate Hrun.
Defined.

Lemma image_layer_follows_the_record_witness :
  exists i,
    toImageLayer (E := qtEnvironment (onlyImage "/maps/sky.png" (mkQSize 320 200)))
                 [("image", VString "sky.png"); ("name", VString "sky")]
                 (mkConverter EmptyString [] "/maps")
    = Returns (Some i) (mkConverter EmptyString [] "/maps") /\
    il_imageSource i = "/maps/sky.png".
Proof.
  destruct (toImageLayer (E := qtEnvironment (onlyImage "/maps/sky.png" (mkQSize 320 200)))
                         [("image", VString "sky.png"); ("name", VString "sky")]
                         (mkConverter EmptyString [] "/maps"))
    as [ [i|] c'|] eqn:Hrun.
  - destruct (image_layer_follows_the_record
                (E := qtEnvironment (onlyImage "/maps/sky.png" (mkQSize 320 200)))
                _ _ _ _ Hrun) as (-> & _ & _ & Himage).
    exists i. split; [reflexivity|]. exact (proj1 (Himage eq_refl)).
  - vm_compute in Hrun. discriminate Hrun.
  - vm_compute in Hrun. discriminate Hrun.
Defined.

Lemma object_group_follows_the_record_witness :
  exists g c',
    toObjectGroup (E := qtEnvironment noImages) [("name", VString "things")] newConverter
    = Returns (Some g) c' /\
    og_drawOrder g = TopDownOrder.
Proof.
  destruct (toObjectGroup (E := qtEnvironment noImages) [("name", VString "things")]
                          newConverter)
    as [ [g|] c'|] eqn:Hrun.
  - destruct (object_group_follows_the_record (E := qtEnvironment noImages) _ _ _ _ Hrun)
      as (_ & _ & _ & Horder).
    exists g, c'. split; [reflexivity | exact Horder].
  - vm_compute in Hrun. discriminate Hrun.
  - vm_compute in Hrun. discriminate Hrun.
Defined.

Lemma well_formed_tileset_is_built_witness :
  exists tileset c',
    toTileset (E := qtEnvironment noImages)
              (groundTileset VInvalid [("0", VMap []); ("1", VMap [])]) newConverter
    = Returns (Some tileset) c' /\
    tileCount tileset <= 2.
Proof.
  destruct (well_formed_tileset_is_built (E := qtEnvironment noImages)
              (groundTileset VInvalid [("0", VMap []); ("1", VMap [])]) newConverter)
    as (tileset & c' & Hrun & Hcount & _).
  - vm_compute. reflexivity.
  - vm_compute. reflexivity.
  - vm_compute. discriminate.
  - reflexivity.
  - repeat constructor; vm_compute; discriminate.
  - exists tileset, c'. split; [exact Hrun | exact Hcount].
Defined.
